(** * wmbusmeters core: byte sources, event loop, M-Bus framing, meter drivers

    A shallow embedding of the parts of the daemon that its specification
    makes statements about, followed by the theorems that settle them.

    Conventions of the embedding.
    - [uchar] values are integers in [0, 256); a [vector<uchar>] is a
      [list Z].  Arithmetic that wraps in C++ has its [mod 256] written out.
    - [double] is IEEE binary64, i.e. Rocq's primitive [float].
    - [time_t] and [int] are unbounded integers: no computation below comes
      near the limits of the machine types.
    - Reading a vector out of range is undefined behaviour in C++; the
      embedding returns [None] there.
    - Functions of the repository that live outside the embedded files
      (the frame recogniser, the DIF/VIF helpers, hex decoding, ...) are
      parameters of the definitions that call them.
    - Operating-system answers (write, select, the clock, ...) are inputs. *)

From Stdlib Require Import ZArith List Lia Bool Floats Uint63.
From Stdlib Require Import Ascii String Sorted.
From stdpp Require Import base option list gmap.
Import ListNotations.

Open Scope Z_scope.

(* ================================================================== *)
(** * Part I: the embedding *)
(* ================================================================== *)

(** ** Bytes, hex printing and doubles *)

Definition uchar := Z.

Definition is_uchar (b : Z) : Prop := 0 <= b < 256.

(** [(uchar) n]: conversion of an integer to [unsigned char]. *)
Definition to_uchar (n : Z) : uchar := n mod 256.

(** [(double) b] for an [unsigned char] [b]. *)
Definition double_of_uchar (b : uchar) : float :=
  PrimFloat.of_uint63 (Uint63.of_Z b).

(** The double nearest to the integer [n]; exact for every [n] the
    theorems use it at (below [2^53]). *)
Definition double_of_Z (n : Z) : float :=
  PrimFloat.of_uint63 (Uint63.of_Z n).

Definition hex_digit (n : Z) : ascii :=
  if n <? 10 then ascii_of_nat (Z.to_nat (48 + n))
  else ascii_of_nat (Z.to_nat (87 + n)).

(** [printf("%02x", b)] *)
Definition hex02x (b : uchar) : string :=
  String (hex_digit (b / 16)) (String (hex_digit (b mod 16)) EmptyString).

(** [content[i]] where the index is in range. *)
Definition at_index (content : list uchar) (i : nat) : uchar := nth i content 0.

(** All byte values, for arguments by enumeration. *)
Definition all_uchars : list Z := List.map Z.of_nat (seq 0 256).

(* ------------------------------------------------------------------ *)
(** ** meter_compact5.cc *)

Module Compact5.

(** The parts of [Telegram] the driver touches: the payload that
    [extractPayload] yields, the bytes parsed so far, and the
    explanation trace. *)
Record Telegram : Type := mkTelegram {
  payload : list uchar;
  parsed : list uchar;
  explanations : list (Z * string)
}.

Record MeterCompact5 : Type := mkMeter {
  total_energy_kwh_ : float;
  curr_energy_kwh_ : float;
  prev_energy_kwh_ : float
}.

(** [double total_energy_kwh_ {}] and so on: value-initialised to zero. *)
Definition new_meter : MeterCompact5 :=
  {| total_energy_kwh_ := 0; curr_energy_kwh_ := 0; prev_energy_kwh_ := 0 |}.

Definition push_explanation (offset : Z) (s : string) (t : Telegram) : Telegram :=
  {| payload := payload t;
     parsed := parsed t;
     explanations := explanations t ++ [(offset, s)] |}.

Section ProcessContent.

(** [Telegram::addMoreExplanation(offset, fmt, value)] is defined
    outside this file. *)
Variable addMoreExplanation : Z -> string -> float -> Telegram -> Telegram.

(** [content] is filled once by [extractPayload]; every [content[i]]
    below reads that copy. *)
Definition processContent (m : MeterCompact5) (t : Telegram)
  : option (MeterCompact5 * Telegram) :=
  let content := payload t in
  prev_lo ← content !! 3%nat;
  prev_hi ← content !! 4%nat;
  let prev := (256 * double_of_uchar prev_hi + double_of_uchar prev_lo)%float in
  let prevs := (hex02x prev_lo ++ hex02x prev_hi)%string in
  let offset := Z.of_nat (length (parsed t)) + 3 in
  let t := push_explanation offset prevs t in
  let t :=
    addMoreExplanation offset
      " energy used in previous billing period (%f KWH)" prev t in
  curr_lo ← content !! 7%nat;
  curr_hi ← content !! 8%nat;
  let curr := (256 * double_of_uchar curr_hi + double_of_uchar curr_lo)%float in
  let currs := (hex02x curr_lo ++ hex02x curr_hi)%string in
  let offset := Z.of_nat (length (parsed t)) + 7 in
  let t := push_explanation offset currs t in
  let t :=
    addMoreExplanation offset
      " energy used in current billing period (%f KWH)" curr t in
  Some ({| total_energy_kwh_ := (prev + curr)%float;
           curr_energy_kwh_ := curr;
           prev_energy_kwh_ := prev |}, t).

End ProcessContent.

End Compact5.

(* ------------------------------------------------------------------ *)
(** ** meter_multical603.cc, first part: the driver *)

Module Multical603.

(** Enumerations of dvparser.h and units.h, with the enumerators this
    driver names. *)
Inductive MeasurementType : Type :=
  Instantaneous | Minimum | Maximum | AtError | Unknown.

Inductive ValueInformation : Type :=
  EnergyWh | Volume | VolumeFlow | FlowTemperature | ReturnTemperature | Date.

Inductive Quantity : Type := Energy | QVolume | Flow | Temperature | Text.

Inductive Unit : Type := KWH | M3 | M3H | C | OtherUnit (n : nat).

(** One argument of a printf-style annotation. *)
Inductive FmtArg : Type :=
| ArgDouble (d : float)
| ArgUInt (n : Z)
| ArgString (s : string).

(** The helpers of dvparser.cc, wmbus.cc, units.cc and util.cc that the
    driver calls.  An extractor gets the current contents of its two
    out-parameters and returns its result with their new contents.
    [Values] is the record map of the telegram, [Expl] its explanation
    trace, [Tm] is [struct tm]. *)
Class Helpers (Values Expl Tm : Type) : Type := {
  findKey : MeasurementType -> ValueInformation -> Z -> Z -> Values -> option string;
  extractDVuint8 : Values -> string -> Z -> uchar -> bool * Z * uchar;
  extractDVuint32 : Values -> string -> Z -> Z -> bool * Z * Z;
  extractDVdouble : Values -> string -> Z -> float -> bool * Z * float;
  extractDVdate : Values -> string -> Z -> Tm -> bool * Z * Tm;
  strdatetime : Tm -> string;
  addMoreExplanation : Expl -> Z -> string -> FmtArg -> Expl;
  convert : float -> Unit -> Unit -> float;
  assertQuantity : Unit -> Quantity -> bool
}.

Record Telegram (Values Expl : Type) : Type := mkTelegram {
  values : Values;
  explanations : Expl
}.
Arguments mkTelegram {Values Expl}.
Arguments values {Values Expl}.
Arguments explanations {Values Expl}.

Record MeterMultical603 : Type := mkMeter {
  info_codes_ : uchar;
  total_energy_kwh_ : float;
  total_volume_m3_ : float;
  volume_flow_m3h_ : float;
  t1_temperature_c_ : float;
  has_t1_temperature_ : bool;
  t2_temperature_c_ : float;
  has_t2_temperature_ : bool;
  target_date_ : string;
  energy_forward_kwh_ : Z;
  energy_returned_kwh_ : Z
}.

(** The member initialisers: [{}] everywhere except the two
    temperatures, which start at [{ 127 }]. *)
Definition new_meter : MeterMultical603 :=
  {| info_codes_ := 0;
     total_energy_kwh_ := 0;
     total_volume_m3_ := 0;
     volume_flow_m3h_ := 0;
     t1_temperature_c_ := 127;
     has_t1_temperature_ := false;
     t2_temperature_c_ := 127;
     has_t2_temperature_ := false;
     target_date_ := "";
     energy_forward_kwh_ := 0;
     energy_returned_kwh_ := 0 |}.

Definition INFO_CODE_VOLTAGE_INTERRUPTED : Z := 1.
Definition INFO_CODE_LOW_BATTERY_LEVEL : Z := 2.
Definition INFO_CODE_EXTERNAL_ALARM : Z := 4.
Definition INFO_CODE_SENSOR_T1_ABOVE_MEASURING_RANGE : Z := 8.
Definition INFO_CODE_SENSOR_T2_ABOVE_MEASURING_RANGE : Z := 16.
Definition INFO_CODE_SENSOR_T1_BELOW_MEASURING_RANGE : Z := 32.
Definition INFO_CODE_SENSOR_T2_BELOW_MEASURING_RANGE : Z := 64.
Definition INFO_CODE_TEMP_DIFF_WRONG_POLARITY : Z := 128.

(** [if (info_codes_ & flag) s.append(token)] *)
Definition append_if (codes flag : Z) (token s : string) : string :=
  if Z.eqb (Z.land codes flag) 0 then s else (s ++ token)%string.

(** [s.pop_back()] on a non-empty string. *)
Fixpoint pop_back (s : string) : string :=
  match s with
  | EmptyString => EmptyString
  | String _ EmptyString => EmptyString
  | String c rest => String c (pop_back rest)
  end.

Definition status (m : MeterMultical603) : string :=
  let c := info_codes_ m in
  let s := EmptyString in
  let s := append_if c INFO_CODE_VOLTAGE_INTERRUPTED "VOLTAGE_INTERRUPTED " s in
  let s := append_if c INFO_CODE_LOW_BATTERY_LEVEL "LOW_BATTERY_LEVEL " s in
  let s := append_if c INFO_CODE_EXTERNAL_ALARM "EXTERNAL_ALARM " s in
  let s := append_if c INFO_CODE_SENSOR_T1_ABOVE_MEASURING_RANGE
             "SENSOR_T1_ABOVE_MEASURING_RANGE " s in
  let s := append_if c INFO_CODE_SENSOR_T2_ABOVE_MEASURING_RANGE
             "SENSOR_T2_ABOVE_MEASURING_RANGE " s in
  let s := append_if c INFO_CODE_SENSOR_T1_BELOW_MEASURING_RANGE
             "SENSOR_T1_BELOW_MEASURING_RANGE " s in
  let s := append_if c INFO_CODE_SENSOR_T2_BELOW_MEASURING_RANGE
             "SENSOR_T2_BELOW_MEASURING_RANGE " s in
  let s := append_if c INFO_CODE_TEMP_DIFF_WRONG_POLARITY
             "TEMP_DIFF_WRONG_POLARITY " s in
  if (0 <? Z.of_nat (String.length s)) then pop_back s else s.

(** The bits [status()] tests, in its order, with the names it appends. *)
Definition info_code_names : list (Z * string) :=
  [ (INFO_CODE_VOLTAGE_INTERRUPTED, "VOLTAGE_INTERRUPTED");
    (INFO_CODE_LOW_BATTERY_LEVEL, "LOW_BATTERY_LEVEL");
    (INFO_CODE_EXTERNAL_ALARM, "EXTERNAL_ALARM");
    (INFO_CODE_SENSOR_T1_ABOVE_MEASURING_RANGE, "SENSOR_T1_ABOVE_MEASURING_RANGE");
    (INFO_CODE_SENSOR_T2_ABOVE_MEASURING_RANGE, "SENSOR_T2_ABOVE_MEASURING_RANGE");
    (INFO_CODE_SENSOR_T1_BELOW_MEASURING_RANGE, "SENSOR_T1_BELOW_MEASURING_RANGE");
    (INFO_CODE_SENSOR_T2_BELOW_MEASURING_RANGE, "SENSOR_T2_BELOW_MEASURING_RANGE");
    (INFO_CODE_TEMP_DIFF_WRONG_POLARITY, "TEMP_DIFF_WRONG_POLARITY") ]%string.

(** The names of the bits that are set in [codes]. *)
Definition names_of_set_bits (table : list (Z * string)) (codes : Z) : list string :=
  List.map snd (List.filter (fun p => negb (Z.land codes (fst p) =? 0)) table).

(** Field setters, one per member that [processContent] assigns. *)
Definition set_info_codes (v : uchar) (m : MeterMultical603) :=
  {| info_codes_ := v;
     total_energy_kwh_ := total_energy_kwh_ m;
     total_volume_m3_ := total_volume_m3_ m;
     volume_flow_m3h_ := volume_flow_m3h_ m;
     t1_temperature_c_ := t1_temperature_c_ m;
     has_t1_temperature_ := has_t1_temperature_ m;
     t2_temperature_c_ := t2_temperature_c_ m;
     has_t2_temperature_ := has_t2_temperature_ m;
     target_date_ := target_date_ m;
     energy_forward_kwh_ := energy_forward_kwh_ m;
     energy_returned_kwh_ := energy_returned_kwh_ m |}.

Definition set_energy_forward (v : Z) (m : MeterMultical603) :=
  {| info_codes_ := info_codes_ m;
     total_energy_kwh_ := total_energy_kwh_ m;
     total_volume_m3_ := total_volume_m3_ m;
     volume_flow_m3h_ := volume_flow_m3h_ m;
     t1_temperature_c_ := t1_temperature_c_ m;
     has_t1_temperature_ := has_t1_temperature_ m;
     t2_temperature_c_ := t2_temperature_c_ m;
     has_t2_temperature_ := has_t2_temperature_ m;
     target_date_ := target_date_ m;
     energy_forward_kwh_ := v;
     energy_returned_kwh_ := energy_returned_kwh_ m |}.

Definition set_energy_returned (v : Z) (m : MeterMultical603) :=
  {| info_codes_ := info_codes_ m;
     total_energy_kwh_ := total_energy_kwh_ m;
     total_volume_m3_ := total_volume_m3_ m;
     volume_flow_m3h_ := volume_flow_m3h_ m;
     t1_temperature_c_ := t1_temperature_c_ m;
     has_t1_temperature_ := has_t1_temperature_ m;
     t2_temperature_c_ := t2_temperature_c_ m;
     has_t2_temperature_ := has_t2_temperature_ m;
     target_date_ := target_date_ m;
     energy_forward_kwh_ := energy_forward_kwh_ m;
     energy_returned_kwh_ := v |}.

Definition set_total_energy (v : float) (m : MeterMultical603) :=
  {| info_codes_ := info_codes_ m;
     total_energy_kwh_ := v;
     total_volume_m3_ := total_volume_m3_ m;
     volume_flow_m3h_ := volume_flow_m3h_ m;
     t1_temperature_c_ := t1_temperature_c_ m;
     has_t1_temperature_ := has_t1_temperature_ m;
     t2_temperature_c_ := t2_temperature_c_ m;
     has_t2_temperature_ := has_t2_temperature_ m;
     target_date_ := target_date_ m;
     energy_forward_kwh_ := energy_forward_kwh_ m;
     energy_returned_kwh_ := energy_returned_kwh_ m |}.

Definition set_total_volume (v : float) (m : MeterMultical603) :=
  {| info_codes_ := info_codes_ m;
     total_energy_kwh_ := total_energy_kwh_ m;
     total_volume_m3_ := v;
     volume_flow_m3h_ := volume_flow_m3h_ m;
     t1_temperature_c_ := t1_temperature_c_ m;
     has_t1_temperature_ := has_t1_temperature_ m;
     t2_temperature_c_ := t2_temperature_c_ m;
     has_t2_temperature_ := has_t2_temperature_ m;
     target_date_ := target_date_ m;
     energy_forward_kwh_ := energy_forward_kwh_ m;
     energy_returned_kwh_ := energy_returned_kwh_ m |}.

Definition set_volume_flow (v : float) (m : MeterMultical603) :=
  {| info_codes_ := info_codes_ m;
     total_energy_kwh_ := total_energy_kwh_ m;
     total_volume_m3_ := total_volume_m3_ m;
     volume_flow_m3h_ := v;
     t1_temperature_c_ := t1_temperature_c_ m;
     has_t1_temperature_ := has_t1_temperature_ m;
     t2_temperature_c_ := t2_temperature_c_ m;
     has_t2_temperature_ := has_t2_temperature_ m;
     target_date_ := target_date_ m;
     energy_forward_kwh_ := energy_forward_kwh_ m;
     energy_returned_kwh_ := energy_returned_kwh_ m |}.

Definition set_t1 (has : bool) (v : float) (m : MeterMultical603) :=
  {| info_codes_ := info_codes_ m;
     total_energy_kwh_ := total_energy_kwh_ m;
     total_volume_m3_ := total_volume_m3_ m;
     volume_flow_m3h_ := volume_flow_m3h_ m;
     t1_temperature_c_ := v;
     has_t1_temperature_ := has;
     t2_temperature_c_ := t2_temperature_c_ m;
     has_t2_temperature_ := has_t2_temperature_ m;
     target_date_ := target_date_ m;
     energy_forward_kwh_ := energy_forward_kwh_ m;
     energy_returned_kwh_ := energy_returned_kwh_ m |}.

Definition set_t2 (has : bool) (v : float) (m : MeterMultical603) :=
  {| info_codes_ := info_codes_ m;
     total_energy_kwh_ := total_energy_kwh_ m;
     total_volume_m3_ := total_volume_m3_ m;
     volume_flow_m3h_ := volume_flow_m3h_ m;
     t1_temperature_c_ := t1_temperature_c_ m;
     has_t1_temperature_ := has_t1_temperature_ m;
     t2_temperature_c_ := v;
     has_t2_temperature_ := has;
     target_date_ := target_date_ m;
     energy_forward_kwh_ := energy_forward_kwh_ m;
     energy_returned_kwh_ := energy_returned_kwh_ m |}.

Definition set_target_date (v : string) (m : MeterMultical603) :=
  {| info_codes_ := info_codes_ m;
     total_energy_kwh_ := total_energy_kwh_ m;
     total_volume_m3_ := total_volume_m3_ m;
     volume_flow_m3h_ := volume_flow_m3h_ m;
     t1_temperature_c_ := t1_temperature_c_ m;
     has_t1_temperature_ := has_t1_temperature_ m;
     t2_temperature_c_ := t2_temperature_c_ m;
     has_t2_temperature_ := has_t2_temperature_ m;
     target_date_ := v;
     energy_forward_kwh_ := energy_forward_kwh_ m;
     energy_returned_kwh_ := energy_returned_kwh_ m |}.

Section Driver.

Context {Values Expl Tm : Type} `{H : Helpers Values Expl Tm}.

(** The state [processContent] runs in: the meter, the telegram's
    explanation trace and the local [int offset]. *)
Record St : Type := mkSt {
  meter : MeterMultical603;
  expl : Expl;
  offset : Z
}.

Definition annotate (fmt : string) (a : FmtArg) (s : St) : St :=
  {| meter := meter s;
     expl := addMoreExplanation (expl s) (offset s) fmt a;
     offset := offset s |}.

(** [extractDVuint8(&t->values, "04FF22", &offset, &info_codes_)] and the
    annotation after it. *)
Definition step_info_codes (vs : Values) (s : St) : St :=
  let '(_, off, v) := extractDVuint8 vs "04FF22" (offset s) (info_codes_ (meter s)) in
  let s := {| meter := set_info_codes v (meter s); expl := expl s; offset := off |} in
  annotate " info codes (%s)" (ArgString (status (meter s))) s.

Definition step_energy_forward (vs : Values) (s : St) : St :=
  let '(_, off, v) :=
    extractDVuint32 vs "04FF07" (offset s) (energy_forward_kwh_ (meter s)) in
  let s := {| meter := set_energy_forward v (meter s); expl := expl s; offset := off |} in
  annotate " energy forward kwh (%zu)" (ArgUInt (energy_forward_kwh_ (meter s))) s.

Definition step_energy_returned (vs : Values) (s : St) : St :=
  let '(_, off, v) :=
    extractDVuint32 vs "04FF08" (offset s) (energy_returned_kwh_ (meter s)) in
  let s := {| meter := set_energy_returned v (meter s); expl := expl s; offset := off |} in
  annotate " energy returned kwh (%zu)" (ArgUInt (energy_returned_kwh_ (meter s))) s.

Definition step_total_energy (vs : Values) (s : St) : St :=
  match findKey Instantaneous EnergyWh 0 0 vs with
  | Some key =>
      let '(_, off, v) :=
        extractDVdouble vs key (offset s) (total_energy_kwh_ (meter s)) in
      let s := {| meter := set_total_energy v (meter s); expl := expl s; offset := off |} in
      annotate " total energy consumption (%f kWh)" (ArgDouble v) s
  | None => s
  end.

Definition step_total_volume (vs : Values) (s : St) : St :=
  match findKey Instantaneous Volume 0 0 vs with
  | Some key =>
      let '(_, off, v) :=
        extractDVdouble vs key (offset s) (total_volume_m3_ (meter s)) in
      let s := {| meter := set_total_volume v (meter s); expl := expl s; offset := off |} in
      annotate " total volume (%f m3)" (ArgDouble v) s
  | None => s
  end.

Definition step_volume_flow (vs : Values) (s : St) : St :=
  match findKey Unknown VolumeFlow 0 0 vs with
  | Some key =>
      let '(_, off, v) :=
        extractDVdouble vs key (offset s) (volume_flow_m3h_ (meter s)) in
      let s := {| meter := set_volume_flow v (meter s); expl := expl s; offset := off |} in
      annotate " volume flow (%f m3/h)" (ArgDouble v) s
  | None => s
  end.

(** [has_t1_temperature_ = extractDVdouble(..., &t1_temperature_c_)] *)
Definition step_t1 (vs : Values) (s : St) : St :=
  match findKey Instantaneous FlowTemperature 0 0 vs with
  | Some key =>
      let '(ok, off, v) :=
        extractDVdouble vs key (offset s) (t1_temperature_c_ (meter s)) in
      let s := {| meter := set_t1 ok v (meter s); expl := expl s; offset := off |} in
      annotate " T1 flow temperature (%f °C)" (ArgDouble v) s
  | None => s
  end.

Definition step_t2 (vs : Values) (s : St) : St :=
  match findKey Instantaneous ReturnTemperature 0 0 vs with
  | Some key =>
      let '(ok, off, v) :=
        extractDVdouble vs key (offset s) (t2_temperature_c_ (meter s)) in
      let s := {| meter := set_t2 ok v (meter s); expl := expl s; offset := off |} in
      annotate " T2 flow temperature (%f °C)" (ArgDouble v) s
  | None => s
  end.

(** [struct tm datetime] is an uninitialised local: [tm0] stands for
    whatever it holds. *)
Definition step_target_date (tm0 : Tm) (vs : Values) (s : St) : St :=
  match findKey Unknown Date 0 0 vs with
  | Some key =>
      let '(_, off, datetime) := extractDVdate vs key (offset s) tm0 in
      let d := strdatetime datetime in
      let s := {| meter := set_target_date d (meter s); expl := expl s; offset := off |} in
      annotate " target date (%s)" (ArgString d) s
  | None => s
  end.

(** [MeterMultical603::processContent].  [offset0] and [tm0] are the
    indeterminate initial contents of the locals [offset] and
    [datetime]. *)
Definition processContent (offset0 : Z) (tm0 : Tm)
    (m : MeterMultical603) (t : Telegram Values Expl)
  : MeterMultical603 * Telegram Values Expl :=
  let vs := values t in
  let s := {| meter := m; expl := explanations t; offset := offset0 |} in
  let s := step_info_codes vs s in
  let s := step_energy_forward vs s in
  let s := step_energy_returned vs s in
  let s := step_total_energy vs s in
  let s := step_total_volume vs s in
  let s := step_volume_flow vs s in
  let s := step_t1 vs s in
  let s := step_t2 vs s in
  let s := step_target_date tm0 vs s in
  (meter s, {| values := vs; explanations := expl s |}).

(** The getters.  [assertQuantity] aborts the program when the unit is
    of another quantity: [None]. *)
Definition t1Temperature (m : MeterMultical603) (u : Unit) : option float :=
  if assertQuantity u Temperature
  then Some (convert (t1_temperature_c_ m) C u) else None.

Definition hasT1Temperature (m : MeterMultical603) : bool := has_t1_temperature_ m.

Definition t2Temperature (m : MeterMultical603) (u : Unit) : option float :=
  if assertQuantity u Temperature
  then Some (convert (t2_temperature_c_ m) C u) else None.

Definition hasT2Temperature (m : MeterMultical603) : bool := has_t2_temperature_ m.

(** The four members the temperature records are stored in, for the
    proofs. *)
Definition m603_temps (m : MeterMultical603) : float * bool * float * bool :=
  (t1_temperature_c_ m, has_t1_temperature_ m,
   t2_temperature_c_ m, has_t2_temperature_ m).

(** The state in which [processContent] looks up the T1 record. *)
Definition before_t1 (offset0 : Z) (m : MeterMultical603)
    (t : Telegram Values Expl) : St :=
  step_volume_flow (values t)
    (step_total_volume (values t)
       (step_total_energy (values t)
          (step_energy_returned (values t)
             (step_energy_forward (values t)
                (step_info_codes (values t)
                   {| meter := m; expl := explanations t; offset := offset0 |}))))).

End Driver.

End Multical603.

(* ------------------------------------------------------------------ *)
(** ** meter_multical302.cc *)

Module Multical302.

(** Enumerations of dvparser.h and units.h, with the enumerators this
    driver names; [MeasurementType] and the printf arguments are those of
    the Multical 603 driver. *)
Inductive ValueInformation : Type := EnergyWh | Volume | PowerW | Date.

Inductive Quantity : Type := Energy | Power | QVolume | Text.

Inductive Unit : Type := KWH | KW | M3 | OtherUnit (n : nat).

(** The helpers of dvparser.cc, wmbus.cc, units.cc and util.cc that the
    driver calls, as for the Multical 603. *)
Class Helpers (Values Expl Tm : Type) : Type := {
  findKey : Multical603.MeasurementType -> ValueInformation -> Z -> Z -> Values
            -> option string;
  extractDVuint8 : Values -> string -> Z -> uchar -> bool * Z * uchar;
  extractDVdouble : Values -> string -> Z -> float -> bool * Z * float;
  extractDVdate : Values -> string -> Z -> Tm -> bool * Z * Tm;
  strdatetime : Tm -> string;
  addMoreExplanation : Expl -> Z -> string -> Multical603.FmtArg -> Expl;
  convert : float -> Unit -> Unit -> float;
  assertQuantity : Unit -> Quantity -> bool
}.

Record MeterMultical302 : Type := mkMeter {
  info_codes_ : uchar;
  total_energy_kwh_ : float;
  target_energy_kwh_ : float;
  current_power_kw_ : float;
  total_volume_m3_ : float;
  target_date_ : string
}.

(** The member initialisers: [{}] everywhere. *)
Definition new_meter : MeterMultical302 :=
  {| info_codes_ := 0;
     total_energy_kwh_ := 0;
     target_energy_kwh_ := 0;
     current_power_kw_ := 0;
     total_volume_m3_ := 0;
     target_date_ := "" |}.

Definition INFO_CODE_VOLTAGE_INTERRUPTED : Z := 1.
Definition INFO_CODE_WRONG_FLOW_DIRECTION : Z := 2.
Definition INFO_CODE_SENSOR_T2_OUT_OF_RANGE : Z := 4.
Definition INFO_CODE_SENSOR_T1_OUT_OF_RANGE : Z := 8.
Definition INFO_CODE_FLOW_SENSOR_WEAK_OR_AIR : Z := 16.
Definition INFO_CODE_TEMP_DIFF_WRONG_POLARITY : Z := 32.
Definition INFO_CODE_VOLTAGE_TOO_LOW : Z := 128.

(** [MeterMultical302::status]; bit 64 has no name of its own. *)
Definition status (m : MeterMultical302) : string :=
  let c := info_codes_ m in
  let s := EmptyString in
  let s := Multical603.append_if c INFO_CODE_VOLTAGE_INTERRUPTED "VOLTAGE_INTERRUPTED " s in
  let s := Multical603.append_if c INFO_CODE_WRONG_FLOW_DIRECTION "WRONG_FLOW_DIRECTION " s in
  let s := Multical603.append_if c INFO_CODE_SENSOR_T2_OUT_OF_RANGE
             "SENSOR_T2_OUT_OF_RANGE " s in
  let s := Multical603.append_if c INFO_CODE_SENSOR_T1_OUT_OF_RANGE
             "SENSOR_T1_OUT_OF_RANGE " s in
  let s := Multical603.append_if c INFO_CODE_FLOW_SENSOR_WEAK_OR_AIR
             "FLOW_SENSOR_WEAK_OR_AIR " s in
  let s := Multical603.append_if c INFO_CODE_TEMP_DIFF_WRONG_POLARITY
             "TEMP_DIFF_WRONG_POLARITY " s in
  let s := Multical603.append_if c 64 "UNKNOWN_64 " s in
  let s := Multical603.append_if c INFO_CODE_VOLTAGE_TOO_LOW "VOLTAGE_TOO_LOW " s in
  if (0 <? Z.of_nat (String.length s)) then Multical603.pop_back s else s.

(** The bits [status()] tests, in its order, with the names it appends. *)
Definition info_code_names : list (Z * string) :=
  [ (INFO_CODE_VOLTAGE_INTERRUPTED, "VOLTAGE_INTERRUPTED");
    (INFO_CODE_WRONG_FLOW_DIRECTION, "WRONG_FLOW_DIRECTION");
    (INFO_CODE_SENSOR_T2_OUT_OF_RANGE, "SENSOR_T2_OUT_OF_RANGE");
    (INFO_CODE_SENSOR_T1_OUT_OF_RANGE, "SENSOR_T1_OUT_OF_RANGE");
    (INFO_CODE_FLOW_SENSOR_WEAK_OR_AIR, "FLOW_SENSOR_WEAK_OR_AIR");
    (INFO_CODE_TEMP_DIFF_WRONG_POLARITY, "TEMP_DIFF_WRONG_POLARITY");
    (64, "UNKNOWN_64");
    (INFO_CODE_VOLTAGE_TOO_LOW, "VOLTAGE_TOO_LOW") ]%string.

(** Field setters, one per member that [processContent] assigns. *)
Definition set_info_codes (v : uchar) (m : MeterMultical302) :=
  {| info_codes_ := v;
     total_energy_kwh_ := total_energy_kwh_ m;
     target_energy_kwh_ := target_energy_kwh_ m;
     current_power_kw_ := current_power_kw_ m;
     total_volume_m3_ := total_volume_m3_ m;
     target_date_ := target_date_ m |}.

Definition set_total_energy (v : float) (m : MeterMultical302) :=
  {| info_codes_ := info_codes_ m;
     total_energy_kwh_ := v;
     target_energy_kwh_ := target_energy_kwh_ m;
     current_power_kw_ := current_power_kw_ m;
     total_volume_m3_ := total_volume_m3_ m;
     target_date_ := target_date_ m |}.

Definition set_target_energy (v : float) (m : MeterMultical302) :=
  {| info_codes_ := info_codes_ m;
     total_energy_kwh_ := total_energy_kwh_ m;
     target_energy_kwh_ := v;
     current_power_kw_ := current_power_kw_ m;
     total_volume_m3_ := total_volume_m3_ m;
     target_date_ := target_date_ m |}.

Definition set_current_power (v : float) (m : MeterMultical302) :=
  {| info_codes_ := info_codes_ m;
     total_energy_kwh_ := total_energy_kwh_ m;
     target_energy_kwh_ := target_energy_kwh_ m;
     current_power_kw_ := v;
     total_volume_m3_ := total_volume_m3_ m;
     target_date_ := target_date_ m |}.

Definition set_total_volume (v : float) (m : MeterMultical302) :=
  {| info_codes_ := info_codes_ m;
     total_energy_kwh_ := total_energy_kwh_ m;
     target_energy_kwh_ := target_energy_kwh_ m;
     current_power_kw_ := current_power_kw_ m;
     total_volume_m3_ := v;
     target_date_ := target_date_ m |}.

Definition set_target_date (v : string) (m : MeterMultical302) :=
  {| info_codes_ := info_codes_ m;
     total_energy_kwh_ := total_energy_kwh_ m;
     target_energy_kwh_ := target_energy_kwh_ m;
     current_power_kw_ := current_power_kw_ m;
     total_volume_m3_ := total_volume_m3_ m;
     target_date_ := v |}.

Section Driver.

Context {Values Expl Tm : Type} `{H : Helpers Values Expl Tm}.

(** The state [processContent] runs in: the meter, the telegram's
    explanation trace and the local [int offset]. *)
Record St : Type := mkSt {
  meter : MeterMultical302;
  expl : Expl;
  offset : Z
}.

Definition annotate (fmt : string) (a : Multical603.FmtArg) (s : St) : St :=
  {| meter := meter s;
     expl := addMoreExplanation (expl s) (offset s) fmt a;
     offset := offset s |}.

(** [extractDVuint8(&t->values, "01FF21", &offset, &info_codes_)] and the
    annotation after it. *)
Definition step_info_codes (vs : Values) (s : St) : St :=
  let '(_, off, v) := extractDVuint8 vs "01FF21" (offset s) (info_codes_ (meter s)) in
  let s := {| meter := set_info_codes v (meter s); expl := expl s; offset := off |} in
  annotate " info codes (%s)" (Multical603.ArgString (status (meter s))) s.

(** A guarded [extractDVdouble] into one of the four doubles. *)
Definition step_double (mt : Multical603.MeasurementType) (vi : ValueInformation)
    (storagenr tariff : Z) (get : MeterMultical302 -> float)
    (set : float -> MeterMultical302 -> MeterMultical302) (fmt : string)
    (vs : Values) (s : St) : St :=
  match findKey mt vi storagenr tariff vs with
  | Some key =>
      let '(_, off, v) := extractDVdouble vs key (offset s) (get (meter s)) in
      let s := {| meter := set v (meter s); expl := expl s; offset := off |} in
      annotate fmt (Multical603.ArgDouble v) s
  | None => s
  end.

Definition step_total_energy : Values -> St -> St :=
  step_double Multical603.Instantaneous EnergyWh 0 0
    total_energy_kwh_ set_total_energy " total energy consumption (%f kWh)".

Definition step_total_volume : Values -> St -> St :=
  step_double Multical603.Instantaneous Volume 0 0
    total_volume_m3_ set_total_volume " total volume (%f m3)".

(** The record of storage 1 is the energy at the target date. *)
Definition step_target_energy : Values -> St -> St :=
  step_double Multical603.Instantaneous EnergyWh 1 0
    target_energy_kwh_ set_target_energy " target energy consumption (%f kWh)".

Definition step_current_power : Values -> St -> St :=
  step_double Multical603.Instantaneous PowerW 0 0
    current_power_kw_ set_current_power " current power consumption (%f kW)".

(** [struct tm datetime] is an uninitialised local: [tm0] stands for
    whatever it holds. *)
Definition step_target_date (tm0 : Tm) (vs : Values) (s : St) : St :=
  match findKey Multical603.Unknown Date 1 0 vs with
  | Some key =>
      let '(_, off, datetime) := extractDVdate vs key (offset s) tm0 in
      let d := strdatetime datetime in
      let s := {| meter := set_target_date d (meter s); expl := expl s; offset := off |} in
      annotate " target date (%s)" (Multical603.ArgString d) s
  | None => s
  end.

(** [MeterMultical302::processContent].  [offset0] and [tm0] are the
    indeterminate initial contents of the locals [offset] and
    [datetime]. *)
Definition processContent (offset0 : Z) (tm0 : Tm)
    (m : MeterMultical302) (t : Multical603.Telegram Values Expl)
  : MeterMultical302 * Multical603.Telegram Values Expl :=
  let vs := Multical603.values t in
  let s := {| meter := m; expl := Multical603.explanations t; offset := offset0 |} in
  let s := step_info_codes vs s in
  let s := step_total_energy vs s in
  let s := step_total_volume vs s in
  let s := step_target_energy vs s in
  let s := step_current_power vs s in
  let s := step_target_date tm0 vs s in
  (meter s, {| Multical603.values := vs; Multical603.explanations := expl s |}).

(** The getters.  [assertQuantity] aborts the program when the unit is
    of another quantity: [None]. *)
Definition totalEnergyConsumption (m : MeterMultical302) (u : Unit) : option float :=
  if assertQuantity u Energy
  then Some (convert (total_energy_kwh_ m) KWH u) else None.

Definition targetEnergyConsumption (m : MeterMultical302) (u : Unit) : option float :=
  if assertQuantity u Energy
  then Some (convert (target_energy_kwh_ m) KWH u) else None.

Definition totalVolume (m : MeterMultical302) (u : Unit) : option float :=
  if assertQuantity u QVolume
  then Some (convert (total_volume_m3_ m) M3 u) else None.

Definition currentPowerConsumption (m : MeterMultical302) (u : Unit) : option float :=
  if assertQuantity u Power
  then Some (convert (current_power_kw_ m) KW u) else None.

End Driver.

End Multical302.

(** Modelled from the spec: the record map of a telegram and the lookup
    helpers of dvparser.cc, which is not among the embedded files
    (section 4.E): [findKey] is a linear search in which [Unknown] is a
    wildcard for the measurement type, and the extractors yield the offset
    and the value of the record stored at a key.  The values are stored
    already decoded.  It serves to run the driver on concrete telegrams. *)
Module DVRecords.
Import Multical603.

Record DVRecord : Type := mkRecord {
  dv_key : string;
  dv_type : MeasurementType;
  dv_vif : option ValueInformation;
  dv_storagenr : Z;
  dv_tariff : Z;
  dv_offset : Z;
  dv_uint : Z;
  dv_double : float
}.

Definition mt_eqb (a b : MeasurementType) : bool :=
  match a, b with
  | Instantaneous, Instantaneous | Minimum, Minimum | Maximum, Maximum
  | AtError, AtError | Unknown, Unknown => true
  | _, _ => false
  end.

Definition vi_eqb (a b : ValueInformation) : bool :=
  match a, b with
  | EnergyWh, EnergyWh | Volume, Volume | VolumeFlow, VolumeFlow
  | FlowTemperature, FlowTemperature | ReturnTemperature, ReturnTemperature
  | Date, Date => true
  | _, _ => false
  end.

Definition record_matches (mt : MeasurementType) (vi : ValueInformation)
    (storagenr tariff : Z) (r : DVRecord) : bool :=
  (mt_eqb mt Unknown || mt_eqb mt (dv_type r))
  && match dv_vif r with Some v => vi_eqb vi v | None => false end
  && Z.eqb storagenr (dv_storagenr r)
  && Z.eqb tariff (dv_tariff r).

Definition find_key (mt : MeasurementType) (vi : ValueInformation)
    (storagenr tariff : Z) (vs : list DVRecord) : option string :=
  option_map dv_key (List.find (record_matches mt vi storagenr tariff) vs).

Definition lookup_key (vs : list DVRecord) (key : string) : option DVRecord :=
  List.find (fun r => String.eqb key (dv_key r)) vs.

Definition extract {A : Type} (get : DVRecord -> A)
    (vs : list DVRecord) (key : string) (off : Z) (old : A) : bool * Z * A :=
  match lookup_key vs key with
  | Some r => (true, dv_offset r, get r)
  | None => (false, off, old)
  end.

Definition unit_quantity (u : Unit) : option Quantity :=
  match u with
  | KWH => Some Energy
  | M3 => Some QVolume
  | M3H => Some Flow
  | C => Some Temperature
  | OtherUnit _ => None
  end.

Definition quantity_eqb (a b : Quantity) : bool :=
  match a, b with
  | Energy, Energy | QVolume, QVolume | Flow, Flow
  | Temperature, Temperature | Text, Text => true
  | _, _ => false
  end.

(** Modelled from the spec: the helpers of dvparser.cc over a list of
    decoded records (section 4.E), with a conversion that leaves the value
    alone and an annotation that appends to the trace. *)
#[global] Instance helpers : Helpers (list DVRecord) (list (Z * string)) string := {
  findKey := find_key;
  extractDVuint8 := extract (fun r => to_uchar (dv_uint r));
  extractDVuint32 := extract dv_uint;
  extractDVdouble := extract dv_double;
  extractDVdate := extract dv_key;
  strdatetime := fun d => d;
  addMoreExplanation := fun e off fmt _ => e ++ [(off, fmt)];
  convert := fun v _ _ => v;
  assertQuantity := fun u q =>
    match unit_quantity u with Some q' => quantity_eqb q q' | None => false end
}.

(** Two record maps shaped like the Multical603 telegram quoted in the
    driver's comment, without and with the two temperature records. *)
Definition telegram_without_temperatures : Telegram (list DVRecord) (list (Z * string)) :=
  {| values :=
       [ mkRecord "0406" Instantaneous (Some EnergyWh) 0 0 0x16 165 165;
         mkRecord "0414" Instantaneous (Some Volume) 0 0 0x2a 550 5.5;
         mkRecord "04FF22" Instantaneous None 0 0 0x3f 0 0 ];
     explanations := [] |}.

Definition telegram_with_temperatures : Telegram (list DVRecord) (list (Z * string)) :=
  {| values :=
       [ mkRecord "0406" Instantaneous (Some EnergyWh) 0 0 0x16 165 165;
         mkRecord "0259" Instantaneous (Some FlowTemperature) 0 0 0x36 5325 53.25;
         mkRecord "025D" Instantaneous (Some ReturnTemperature) 0 0 0x3a 2300 23;
         mkRecord "04FF22" Instantaneous None 0 0 0x3f 0 0 ];
     explanations := [] |}.

End DVRecords.

(* ------------------------------------------------------------------ *)
(** ** How a call can end *)

(** A call returns a value, or the program stops inside it (a failed
    [assert], the fatal [error()], undefined behaviour), or it is still
    looping when the recorded answers of the environment, or the rounds
    it is given, are used up. *)
Inductive Run (A : Type) : Type :=
| Returns (a : A)
| Fails
| Pending.
Arguments Returns {A} a.
Arguments Fails {A}.
Arguments Pending {A}.

#[global] Instance run_ret : MRet Run := fun A a => Returns a.

#[global] Instance run_bind : MBind Run := fun A B k r =>
  match r with
  | Returns a => k a
  | Fails => Fails
  | Pending => Pending
  end.

(* ------------------------------------------------------------------ *)
(** ** The serial layer: byte sources and their manager

    This is the second part of meter_multical603.cc, from [struct Timer]
    on. *)

Module Serial.

(** The four classes derived from [SerialDeviceImp]. *)
Inductive Kind : Type := KTTY | KCommand | KFile | KSimulator.

(** What the operating system answers when a source asks. *)
Record OS : Type := mkOS {
  (** [checkCharacterDeviceExists(device, false)] *)
  checkCharacterDeviceExists : string -> bool;
  (** [ioctl(fd, FIONREAD, &n)]: [None] when it fails, else [n]. *)
  fionread : Z -> option Z;
  (** [stillRunning(pid)] *)
  stillRunning : Z -> bool
}.

(** One answer of [write(fd, buf, count)]: the number of bytes taken, or
    -1 with [errno] either [EINTR] or something else. *)
Inductive WriteResult : Type :=
| Wrote (n : nat)
| WriteEINTR
| WriteError.

Section Devices.

(** The values a [function<void()>] can hold; [None] is the empty
    function. *)
Variable Callback : Type.

(** [SerialDeviceImp] together with the members of its subclasses:
    [device_] is the tty path, the command identifier or the file name. *)
Record SerialDeviceImp : Type := mkDevice {
  kind : Kind;
  on_data_ : option Callback;
  on_disappear_ : option Callback;
  fd_ : Z;
  expecting_ascii_ : bool;
  is_file_ : bool;
  is_stdin_ : bool;
  no_callbacks_ : bool;
  resetting_ : bool;
  device_ : string;
  pid_ : Z;
  data_ : list uchar
}.

(** What a source does that the rest of the program can observe. *)
Inductive Event : Type :=
| CallOnDisappear (cb : Callback)
| OsClose (fd : Z)
| StopBackgroundShell (pid : Z)
| TickleEventLoop.

(** [int fd_ = -2; // -2 not yet opened, -1 not working] *)
Definition new_device (k : Kind) (dev : string) : SerialDeviceImp :=
  {| kind := k; on_data_ := None; on_disappear_ := None; fd_ := -2;
     expecting_ascii_ := false; is_file_ := false; is_stdin_ := false;
     no_callbacks_ := false; resetting_ := false; device_ := dev;
     pid_ := 0; data_ := [] |}.

Definition skippingCallbacks (d : SerialDeviceImp) : bool := no_callbacks_ d.

Definition resetting (d : SerialDeviceImp) : bool := resetting_ d.

Definition opened (d : SerialDeviceImp) : bool :=
  resetting_ d || negb (fd_ d =? -2).

Definition isClosed (d : SerialDeviceImp) : bool :=
  (fd_ d =? -1) && negb (resetting_ d).

(** [fd()], overridden by the simulator. *)
Definition fd (d : SerialDeviceImp) : Z :=
  match kind d with
  | KSimulator => -1
  | _ => fd_ d
  end.

(** [readonly()], overridden by the simulator. *)
Definition readonly (d : SerialDeviceImp) : bool :=
  match kind d with
  | KSimulator => true
  | _ => is_stdin_ d || is_file_ d
  end.

(** [working()], overridden by each subclass. *)
Definition working (os : OS) (d : SerialDeviceImp) : bool :=
  match kind d with
  | KTTY =>
      if resetting_ d then true
      else if fd_ d =? -1 then false
      else checkCharacterDeviceExists os (device_ d)
  | KCommand =>
      if resetting_ d then true
      else if fd_ d =? -1 then false
      else match fionread os (fd_ d) with
           | None => false
           | Some n =>
               if 0 <? n then true
               else if pid_ d =? 0 then false
               else stillRunning os (pid_ d)
           end
  | KFile =>
      if resetting_ d then true
      else if fd_ d =? -1 then false
      else match fionread os (fd_ d) with
           | None => false
           | Some _ => true
           end
  | KSimulator => false
  end.

Definition set_fd (v : Z) (d : SerialDeviceImp) : SerialDeviceImp :=
  {| kind := kind d; on_data_ := on_data_ d; on_disappear_ := on_disappear_ d;
     fd_ := v; expecting_ascii_ := expecting_ascii_ d; is_file_ := is_file_ d;
     is_stdin_ := is_stdin_ d; no_callbacks_ := no_callbacks_ d;
     resetting_ := resetting_ d; device_ := device_ d; pid_ := pid_ d;
     data_ := data_ d |}.

Definition set_pid (v : Z) (d : SerialDeviceImp) : SerialDeviceImp :=
  {| kind := kind d; on_data_ := on_data_ d; on_disappear_ := on_disappear_ d;
     fd_ := fd_ d; expecting_ascii_ := expecting_ascii_ d; is_file_ := is_file_ d;
     is_stdin_ := is_stdin_ d; no_callbacks_ := no_callbacks_ d;
     resetting_ := resetting_ d; device_ := device_ d; pid_ := v;
     data_ := data_ d |}.

Definition set_on_disappear (v : option Callback) (d : SerialDeviceImp)
  : SerialDeviceImp :=
  {| kind := kind d; on_data_ := on_data_ d; on_disappear_ := v;
     fd_ := fd_ d; expecting_ascii_ := expecting_ascii_ d; is_file_ := is_file_ d;
     is_stdin_ := is_stdin_ d; no_callbacks_ := no_callbacks_ d;
     resetting_ := resetting_ d; device_ := device_ d; pid_ := pid_ d;
     data_ := data_ d |}.

Definition set_on_data (v : option Callback) (d : SerialDeviceImp)
  : SerialDeviceImp :=
  {| kind := kind d; on_data_ := v; on_disappear_ := on_disappear_ d;
     fd_ := fd_ d; expecting_ascii_ := expecting_ascii_ d; is_file_ := is_file_ d;
     is_stdin_ := is_stdin_ d; no_callbacks_ := no_callbacks_ d;
     resetting_ := resetting_ d; device_ := device_ d; pid_ := pid_ d;
     data_ := data_ d |}.

Definition set_resetting (v : bool) (d : SerialDeviceImp) : SerialDeviceImp :=
  {| kind := kind d; on_data_ := on_data_ d; on_disappear_ := on_disappear_ d;
     fd_ := fd_ d; expecting_ascii_ := expecting_ascii_ d; is_file_ := is_file_ d;
     is_stdin_ := is_stdin_ d; no_callbacks_ := no_callbacks_ d;
     resetting_ := v; device_ := device_ d; pid_ := pid_ d;
     data_ := data_ d |}.

Definition set_no_callbacks (v : bool) (d : SerialDeviceImp) : SerialDeviceImp :=
  {| kind := kind d; on_data_ := on_data_ d; on_disappear_ := on_disappear_ d;
     fd_ := fd_ d; expecting_ascii_ := expecting_ascii_ d; is_file_ := is_file_ d;
     is_stdin_ := is_stdin_ d; no_callbacks_ := v;
     resetting_ := resetting_ d; device_ := device_ d; pid_ := pid_ d;
     data_ := data_ d |}.

Definition set_is_file (d : SerialDeviceImp) : SerialDeviceImp :=
  {| kind := kind d; on_data_ := on_data_ d; on_disappear_ := on_disappear_ d;
     fd_ := fd_ d; expecting_ascii_ := expecting_ascii_ d; is_file_ := true;
     is_stdin_ := is_stdin_ d; no_callbacks_ := no_callbacks_ d;
     resetting_ := resetting_ d; device_ := device_ d; pid_ := pid_ d;
     data_ := data_ d |}.

Definition set_is_stdin (d : SerialDeviceImp) : SerialDeviceImp :=
  {| kind := kind d; on_data_ := on_data_ d; on_disappear_ := on_disappear_ d;
     fd_ := fd_ d; expecting_ascii_ := expecting_ascii_ d; is_file_ := is_file_ d;
     is_stdin_ := true; no_callbacks_ := no_callbacks_ d;
     resetting_ := resetting_ d; device_ := device_ d; pid_ := pid_ d;
     data_ := data_ d |}.

Definition set_expecting_ascii (d : SerialDeviceImp) : SerialDeviceImp :=
  {| kind := kind d; on_data_ := on_data_ d; on_disappear_ := on_disappear_ d;
     fd_ := fd_ d; expecting_ascii_ := true; is_file_ := is_file_ d;
     is_stdin_ := is_stdin_ d; no_callbacks_ := no_callbacks_ d;
     resetting_ := resetting_ d; device_ := device_ d; pid_ := pid_ d;
     data_ := data_ d |}.

(** [if (on_disappear_ && !resetting_) { on_disappear_(); on_disappear_ = NULL; }]
    The callback is run for its effect on the rest of the program; it is
    recorded, and does not re-enter the source. *)
Definition fire_on_disappear (d : SerialDeviceImp)
  : SerialDeviceImp * list Event :=
  match on_disappear_ d with
  | Some cb =>
      if resetting_ d then (d, [])
      else (set_on_disappear None d, [CallOnDisappear cb])
  | None => (d, [])
  end.

(** [SerialDeviceTTY::close] *)
Definition close_tty (d : SerialDeviceImp) : SerialDeviceImp * list Event :=
  if fd_ d =? -1 then (d, [])
  else
    let ev1 := [OsClose (fd_ d)] in
    let d := set_fd (-1) d in
    let '(d, ev2) := fire_on_disappear d in
    (d, ev1 ++ ev2 ++ [TickleEventLoop]).

(** [SerialDeviceCommand::close] *)
Definition close_command (os : OS) (d : SerialDeviceImp)
  : SerialDeviceImp * list Event :=
  if (pid_ d =? 0) && (fd_ d =? -1) then (d, [])
  else
    let '(d, ev1) :=
      if negb (pid_ d =? 0) && stillRunning os (pid_ d)
      then (set_pid 0 d, [StopBackgroundShell (pid_ d)])
      else (d, []) in
    let '(d, ev2) := fire_on_disappear d in
    let ev3 := [OsClose (fd_ d)] in
    let d := set_fd (-1) d in
    (d, ev1 ++ ev2 ++ ev3 ++ [TickleEventLoop]).

(** [SerialDeviceFile::close] *)
Definition close_file (d : SerialDeviceImp) : SerialDeviceImp * list Event :=
  if fd_ d =? -1 then (d, [])
  else (set_fd (-1) d, [OsClose (fd_ d); TickleEventLoop]).

(** [close()], dispatched on the class; the simulator's is empty. *)
Definition close (os : OS) (d : SerialDeviceImp) : SerialDeviceImp * list Event :=
  match kind d with
  | KTTY => close_tty d
  | KCommand => close_command os d
  | KFile => close_file d
  | KSimulator => (d, [])
  end.

(** The loop of [SerialDeviceTTY::send] and [SerialDeviceCommand::send]:
    [written] bytes are out already, [wire] is what has gone out, and
    [answers] are the results of the coming [write] calls.  A [write] takes
    at most the [n - written] bytes it is offered. *)
Fixpoint send_loop (answers : list WriteResult) (data : list uchar)
    (written : nat) (wire : list uchar) : Run (bool * list uchar) :=
  match answers with
  | [] => Pending
  | Wrote k :: rest =>
      let nw := Nat.min k (length data - written) in
      let wire := wire ++ take nw (drop written data) in
      let written := (written + nw)%nat in
      if (written =? length data)%nat then Returns (true, wire)
      else send_loop rest data written wire
  | WriteEINTR :: rest => send_loop rest data written wire
  | WriteError :: _ => Returns (false, wire)
  end.

(** The bytes a run of [write] answers is ready to take. *)
Fixpoint accepted (answers : list WriteResult) : nat :=
  match answers with
  | [] => 0
  | Wrote k :: rest => k + accepted rest
  | _ :: rest => accepted rest
  end.

(** [send(data)], dispatched on the class: the result and the bytes
    that went out.  The tty and the command assert [data.size() > 0]; the
    signal the tty sends to the event loop thread after a complete write
    changes no state. *)
Definition send (answers : list WriteResult) (d : SerialDeviceImp)
    (data : list uchar) : Run (bool * list uchar) :=
  match kind d with
  | KTTY | KCommand =>
      match data with
      | [] => Fails
      | _ => send_loop answers data 0 []
      end
  | KFile => Returns (true, [])
  | KSimulator => Returns (true, [])
  end.

(** The other operations that change a source between two calls of
    [close]. *)
Definition resetInitiated (d : SerialDeviceImp) : SerialDeviceImp :=
  set_resetting true d.

Definition resetCompleted (d : SerialDeviceImp) : SerialDeviceImp :=
  set_resetting false d.

Definition disableCallbacks (d : SerialDeviceImp) : SerialDeviceImp :=
  set_no_callbacks true d.

Definition enableCallbacks (d : SerialDeviceImp) : SerialDeviceImp :=
  set_no_callbacks false d.

(** [AccessCheck] of util.h. *)
Inductive AccessCheck : Type := AccessOK | NotThere | NotSameGroup.

(** What the operating system answers to an [open]: whether the path
    exists, the descriptor obtained ([openSerialTTY] yields -1 when the
    tty cannot be opened and -2 when it is locked), and for a command
    whether the shell started and its pid. *)
Record OpenAnswer : Type := mkOpen {
  path_exists : bool;
  new_fd : Z;
  shell_ok : bool;
  new_pid : Z
}.

(** [open(fail_if_not_ok)], dispatched on the class.  [error()] ends the
    program. *)
Definition open (a : OpenAnswer) (fail_if_not_ok : bool) (d : SerialDeviceImp)
  : Run (AccessCheck * SerialDeviceImp * list Event) :=
  match kind d with
  | KTTY =>
      if String.eqb (device_ d) "" then Fails
      else if negb (path_exists a) then Returns (NotThere, d, [])
      else
        let d := set_fd (new_fd a) d in
        if fd_ d <? 0 then
          if fail_if_not_ok then
            if (fd_ d =? -1) || (fd_ d =? -2) then Fails
            else Returns (AccessOK, d, [])
          else if fd_ d =? -1 then Returns (NotThere, d, [])
          else if fd_ d =? -2 then Returns (NotSameGroup, d, [])
          else Returns (AccessOK, d, [])
        else Returns (AccessOK, d, [])
  | KCommand =>
      let d := set_expecting_ascii d in
      let d := set_pid (new_pid a) (set_fd (new_fd a) d) in
      if fd_ d <? 0 then Fails
      else if negb (shell_ok a) then Returns (NotThere, d, [])
      else Returns (AccessOK, set_is_stdin d, [])
  | KFile =>
      if String.eqb (device_ d) "stdin" then
        Returns (AccessOK, set_is_stdin (set_fd 0 d), [TickleEventLoop])
      else if negb (path_exists a) then Returns (NotThere, d, [])
      else
        let d := set_fd (new_fd a) d in
        if fd_ d =? -1 then
          if fail_if_not_ok then Fails else Returns (NotThere, d, [])
        else Returns (AccessOK, set_is_file d, [TickleEventLoop])
  | KSimulator => Returns (AccessOK, d, [])
  end.

(** *** The manager *)

Record Timer : Type := mkTimer {
  id : Z;
  seconds : Z;
  last_call : Z;
  callback : Callback;
  name : string
}.

(** [Timer::isTime] *)
Definition isTime (t : Timer) (now : Z) : bool :=
  last_call t + seconds t <=? now.

Definition set_last_call (v : Z) (t : Timer) : Timer :=
  {| id := id t; seconds := seconds t; last_call := v;
     callback := callback t; name := name t |}.

Record Manager : Type := mkManager {
  running_ : bool;
  expect_devices_to_work_ : bool;
  start_time_ : Z;
  exit_after_seconds_ : Z;
  serial_devices_ : list SerialDeviceImp;
  timers_ : list Timer
}.

Definition set_running (v : bool) (m : Manager) : Manager :=
  {| running_ := v; expect_devices_to_work_ := expect_devices_to_work_ m;
     start_time_ := start_time_ m; exit_after_seconds_ := exit_after_seconds_ m;
     serial_devices_ := serial_devices_ m; timers_ := timers_ m |}.

Definition set_serial_devices (v : list SerialDeviceImp) (m : Manager) : Manager :=
  {| running_ := running_ m; expect_devices_to_work_ := expect_devices_to_work_ m;
     start_time_ := start_time_ m; exit_after_seconds_ := exit_after_seconds_ m;
     serial_devices_ := v; timers_ := timers_ m |}.

Definition set_timers (v : list Timer) (m : Manager) : Manager :=
  {| running_ := running_ m; expect_devices_to_work_ := expect_devices_to_work_ m;
     start_time_ := start_time_ m; exit_after_seconds_ := exit_after_seconds_ m;
     serial_devices_ := serial_devices_ m; timers_ := v |}.

(** The constructor: [running_ = true], nothing expected yet. *)
Definition new_manager (now exit_after_seconds : Z) : Manager :=
  {| running_ := true; expect_devices_to_work_ := false;
     start_time_ := now; exit_after_seconds_ := exit_after_seconds;
     serial_devices_ := []; timers_ := [] |}.

Definition expectDevicesToWork (m : Manager) : Manager :=
  {| running_ := running_ m; expect_devices_to_work_ := true;
     start_time_ := start_time_ m; exit_after_seconds_ := exit_after_seconds_ m;
     serial_devices_ := serial_devices_ m; timers_ := timers_ m |}.

(** [stop()]: the signals it sends wake the other threads up and change
    no state. *)
Definition stop (m : Manager) : Manager :=
  if running_ m then set_running false m else m.

Definition isRunning (m : Manager) : bool := running_ m.

Definition addSerialDeviceForManagement (sd : SerialDeviceImp) (m : Manager)
  : Manager :=
  set_serial_devices (serial_devices_ m ++ [sd]) m.

(** The erase loop of [removeNonWorkingSerialDevices]. *)
Fixpoint erase_non_working (os : OS) (l : list SerialDeviceImp)
  : list SerialDeviceImp :=
  match l with
  | [] => []
  | sd :: rest =>
      if opened sd && negb (working os sd) then erase_non_working os rest
      else sd :: erase_non_working os rest
  end.

Definition removeNonWorkingSerialDevices (os : OS) (m : Manager) : Manager :=
  let m := set_serial_devices (erase_non_working os (serial_devices_ m)) m in
  if (length (serial_devices_ m) =? 0)%nat && expect_devices_to_work_ m
  then stop m else m.

(** [startRegularCallback]: the new timer's id is the number of timers. *)
Definition startRegularCallback (now : Z) (nm : string) (secs : Z)
    (cb : Callback) (m : Manager) : Manager * Z :=
  let t := {| id := Z.of_nat (length (timers_ m)); seconds := secs;
              last_call := now; callback := cb; name := nm |} in
  (set_timers (timers_ m ++ [t]) m, id t).

(** The first loop of [executeTimerCallbacks]: every timer whose time has
    come gets [last_call = curr] and a copy of it is appended to
    [to_be_called]. *)
Fixpoint mark_timers (curr : Z) (timers : list Timer) (to_be_called : list Timer)
  : list Timer * list Timer :=
  match timers with
  | [] => ([], to_be_called)
  | t :: rest =>
      if isTime t curr then
        let t := set_last_call curr t in
        let '(rest', called) := mark_timers curr rest (to_be_called ++ [t]) in
        (t :: rest', called)
      else
        let '(rest', called) := mark_timers curr rest to_be_called in
        (t :: rest', called)
  end.

(** [executeTimerCallbacks]: the manager afterwards, and the callbacks
    run by the second loop, in the order they are run. *)
Definition executeTimerCallbacks (curr : Z) (m : Manager)
  : Manager * list Callback :=
  let '(timers, to_be_called) := mark_timers curr (timers_ m) [] in
  (set_timers timers m, List.map callback to_be_called).

(** One round of [timerLoop]: [interrupted] tells whether [usleep] was cut
    short by a signal, [curr] and [curr'] are the two readings of the
    clock.  The boolean tells whether the loop goes on to test
    [running_] again. *)
Definition timerLoop_round (interrupted : bool) (curr curr' : Z) (m : Manager)
  : Manager * list Callback * bool :=
  if interrupted then (m, [], true)
  else if (0 <? exit_after_seconds_ m)
          && (exit_after_seconds_ m <? curr - start_time_ m)
  then (stop m, [], false)
  else let '(m, called) := executeTimerCallbacks curr' m in (m, called, true).

(** The conditions of the first loop of [eventLoop]. *)
Definition listened_to (os : OS) (sd : SerialDeviceImp) : bool :=
  (opened sd && working os sd && negb (skippingCallbacks sd))
  && (negb (resetting sd) && (0 <=? fd sd)).

Definition not_working (os : OS) (sd : SerialDeviceImp) : bool :=
  opened sd && negb (working os sd).

(** The first loop of [eventLoop]: builds [readfds] and [all_working]. *)
Fixpoint scan_devices (os : OS) (l : list SerialDeviceImp)
    (readfds : gset Z) (all_working : bool) : gset Z * bool :=
  match l with
  | [] => (readfds, all_working)
  | sd :: rest =>
      let readfds :=
        if opened sd && working os sd && negb (skippingCallbacks sd) then
          if negb (resetting sd) && (0 <=? fd sd) then {[ fd sd ]} ∪ readfds
          else readfds
        else readfds in
      let all_working :=
        if opened sd && negb (working os sd) then false else all_working in
      scan_devices os rest readfds all_working
  end.

(** What [select] answers: its return value and the descriptors it found
    readable; it leaves in [readfds] those of them that were asked for. *)
Record SelectAnswer : Type := mkSelect {
  activity : Z;
  readable : gset Z
}.

(** The test of the loop that fills [to_be_notified]. *)
Definition triggered (os : OS) (readfds : gset Z) (sd : SerialDeviceImp) : bool :=
  (opened sd && working os sd && negb (resetting sd) && (0 <=? fd sd))
  && bool_decide (fd sd ∈ readfds).

(** The test of the loop that fills [non_working]. *)
Definition to_be_closed (os : OS) (sd : SerialDeviceImp) : bool :=
  opened sd && negb (working os sd) && negb (isClosed sd).

(** [to_be_notified] and [non_working] hold pointers to sources that are
    in [serial_devices_] as well: a pointer is the position of the source
    in [serial_devices_].  [select_indices test l i] are the positions,
    counted from [i], of the sources of [l] that pass [test]. *)
Fixpoint select_indices (test : SerialDeviceImp -> bool)
    (l : list SerialDeviceImp) (i : nat) : list nat :=
  match l with
  | [] => []
  | sd :: rest =>
      if test sd then i :: select_indices test rest (S i)
      else select_indices test rest (S i)
  end.

(** Open descriptors tell the sources apart: no two positions of the list
    hold the same descriptor, unless it is negative. *)
Definition distinct_descriptors (devs : list SerialDeviceImp) : Prop :=
  forall (i j : nat) (sd1 sd2 : SerialDeviceImp),
    devs !! i = Some sd1 -> devs !! j = Some sd2 ->
    0 <= fd sd1 -> fd sd1 = fd sd2 -> i = j.

(** What a round of the event loop does to the sources. *)
Inductive LoopEvent : Type :=
| OnData (i : nat) (cb : Callback)
| Closed (i : nat) (ev : list Event).

Section EventLoop.

(** What running the [on_data_] callback of a source does to that source
    (the callback reads from it, which closes it at end of file or when
    the descriptor has gone bad). *)
Variable on_data_effect : Callback -> SerialDeviceImp -> SerialDeviceImp.

(** The delivery loop: each source of [to_be_notified] that has a callback
    gets it run. *)
Fixpoint deliver (to_be_notified : list nat) (devs : list SerialDeviceImp)
  : list SerialDeviceImp * list LoopEvent :=
  match to_be_notified with
  | [] => (devs, [])
  | i :: rest =>
      match devs !! i with
      | Some sd =>
          match on_data_ sd with
          | Some cb =>
              let '(devs, ev) := deliver rest (<[i := on_data_effect cb sd]> devs) in
              (devs, OnData i cb :: ev)
          | None => deliver rest devs
          end
      | None => deliver rest devs
      end
  end.

(** The sweep: each source of [non_working] is closed. *)
Fixpoint close_all (os : OS) (non_working : list nat) (devs : list SerialDeviceImp)
  : list SerialDeviceImp * list LoopEvent :=
  match non_working with
  | [] => (devs, [])
  | i :: rest =>
      match devs !! i with
      | Some sd =>
          let '(sd', ev) := close os sd in
          let '(devs, evs) := close_all os rest (<[i := sd']> devs) in
          (devs, Closed i ev :: evs)
      | None => close_all os rest devs
      end
  end.

(** The body of the [while (running_)] loop of [eventLoop], entered with
    [running_] true: the manager afterwards, what happened to the sources,
    and whether the loop goes on to test [running_] again ([false] is
    [break]).  The loop that computes [max_fd] for [select] is left
    out. *)
Definition eventLoop_round (os : OS) (sel : SelectAnswer) (m : Manager)
  : Manager * list LoopEvent * bool :=
  let '(readfds, all_working) := scan_devices os (serial_devices_ m) ∅ true in
  if negb all_working && expect_devices_to_work_ m then (stop m, [], false)
  else
    let readfds := readfds ∩ readable sel in
    if negb (running_ m) then (m, [], false)
    else
      let '(devs, ev1) :=
        if 0 <? activity sel then
          let to_be_notified :=
            select_indices (triggered os readfds) (serial_devices_ m) 0 in
          deliver to_be_notified (serial_devices_ m)
        else (serial_devices_ m, []) in
      let non_working := select_indices (to_be_closed os) devs 0 in
      let '(devs, ev2) := close_all os non_working devs in
      let m := removeNonWorkingSerialDevices os (set_serial_devices devs m) in
      if (0 <? length non_working)%nat && expect_devices_to_work_ m
      then (stop m, ev1 ++ ev2, false)
      else (m, ev1 ++ ev2, true).

(** [eventLoop]: one answer of the operating system per round. *)
Fixpoint eventLoop (rounds : list (OS * SelectAnswer)) (m : Manager)
  : Run (Manager * list LoopEvent) :=
  if negb (running_ m) then Returns (m, [])
  else
    match rounds with
    | [] => Pending
    | (os, sel) :: rest =>
        let '(m, ev, continue) := eventLoop_round os sel m in
        if continue then
          '(m, ev') ← eventLoop rest m; Returns (m, ev ++ ev')
        else Returns (m, ev)
    end.

End EventLoop.

(** *** Sequences of operations on one source *)

Inductive Op : Type :=
| OpClose
| OpOpen (a : OpenAnswer) (fail_if_not_ok : bool)
| OpResetInitiated
| OpResetCompleted
| OpDisableCallbacks
| OpEnableCallbacks
| OpListenTo (cb : Callback).

(** One operation; [None] when the program ends in it. *)
Definition apply_op (os : OS) (op : Op) (d : SerialDeviceImp)
  : option (SerialDeviceImp * list Event) :=
  match op with
  | OpClose => Some (close os d)
  | OpOpen a fail_if_not_ok =>
      match open a fail_if_not_ok d with
      | Returns (_, d, ev) => Some (d, ev)
      | _ => None
      end
  | OpResetInitiated => Some (resetInitiated d, [])
  | OpResetCompleted => Some (resetCompleted d, [])
  | OpDisableCallbacks => Some (disableCallbacks d, [])
  | OpEnableCallbacks => Some (enableCallbacks d, [])
  | OpListenTo cb => Some (set_on_data (Some cb) d, [])
  end.

(** The operations in turn, each with the state of the operating system
    it meets, up to the end of the list or of the program. *)
Fixpoint run_ops (ops : list (OS * Op)) (d : SerialDeviceImp)
  : SerialDeviceImp * list Event :=
  match ops with
  | [] => (d, [])
  | (os, op) :: rest =>
      match apply_op os op d with
      | Some (d, ev) =>
          let '(d, ev') := run_ops rest d in (d, ev ++ ev')
      | None => (d, [])
      end
  end.

(** The callbacks a source may still run: one when [on_disappear_] is
    set, none when it is empty. *)
Definition registered (d : SerialDeviceImp) : nat :=
  match on_disappear_ d with Some _ => 1%nat | None => 0%nat end.

(** How many times the trace runs an [on_disappear_] callback. *)
Fixpoint disappear_calls (ev : list Event) : nat :=
  match ev with
  | [] => 0
  | CallOnDisappear _ :: rest => S (disappear_calls rest)
  | _ :: rest => disappear_calls rest
  end.

(** *** More of the sources and of the manager *)

(** [device()]: the tty path, the command identifier or the file name;
    the simulator keeps the empty string of the base class. *)
Definition device (d : SerialDeviceImp) : string :=
  match kind d with
  | KSimulator => EmptyString
  | _ => device_ d
  end.

Definition set_data (v : list uchar) (d : SerialDeviceImp) : SerialDeviceImp :=
  {| kind := kind d; on_data_ := on_data_ d; on_disappear_ := on_disappear_ d;
     fd_ := fd_ d; expecting_ascii_ := expecting_ascii_ d; is_file_ := is_file_ d;
     is_stdin_ := is_stdin_ d; no_callbacks_ := no_callbacks_ d;
     resetting_ := resetting_ d; device_ := device_ d; pid_ := pid_ d;
     data_ := v |}.

(** [checkIfDataIsPending]: [ioctl(fd_, FIONREAD, &available)] is the
    [fionread] of the operating system. *)
Definition checkIfDataIsPending (os : OS) (d : SerialDeviceImp) : bool :=
  if negb (opened d) || negb (working os d) then false
  else match fionread os (fd_ d) with
       | None => false
       | Some available => 0 <? available
       end.

(** One answer of [read(fd_, buf, 1024)]: some bytes (at least one, and at
    most the 1024 asked for), 0, or -1 with [errno] one of [EINTR],
    [EAGAIN], [EBADF] or something else. *)
Inductive ReadResult : Type :=
| ReadBytes (first : uchar) (more : list uchar)
| ReadNothing
| ReadEINTR
| ReadEAGAIN
| ReadEBADF
| ReadError.

(** The bytes an answer of [read] delivers. *)
Definition bytes_of (a : ReadResult) : list uchar :=
  match a with
  | ReadBytes b more => take 1024 (b :: more)
  | _ => []
  end.

(** The answers after which the loop of [receive] reads again while the
    descriptor is not -1. *)
Definition reads_on (a : ReadResult) : bool :=
  match a with
  | ReadBytes _ _ | ReadEINTR => true
  | _ => false
  end.

(** The [while (true)] loop of [SerialDeviceImp::receive]: the bytes read
    and [close_me].  [stdin_at_eof] tells whether [getchar()] yields
    [EOF]. *)
Fixpoint receive_loop (answers : list ReadResult) (stdin_at_eof : bool)
    (d : SerialDeviceImp) (data : list uchar) : Run (list uchar * bool) :=
  match answers with
  | [] => Pending
  | ReadBytes b more :: rest =>
      receive_loop rest stdin_at_eof d (data ++ take 1024 (b :: more))
  | ReadNothing :: _ =>
      let close_me := is_file_ d in
      let close_me := if is_stdin_ d then (if stdin_at_eof then true else close_me)
                      else close_me in
      Returns (data, close_me)
  | ReadEINTR :: rest =>
      if negb (fd_ d =? -1) then receive_loop rest stdin_at_eof d data
      else Returns (data, false)
  | ReadEAGAIN :: _ => Returns (data, false)
  | ReadEBADF :: _ => Returns (data, true)
  | ReadError :: _ => Returns (data, false)
  end.

(** [receive(&data)]: the source afterwards, the bytes delivered (the
    function returns their number) and what a [close] did.  The simulator
    hands out its buffer and empties it. *)
Definition receive (answers : list ReadResult) (stdin_at_eof : bool) (os : OS)
    (d : SerialDeviceImp) : Run (SerialDeviceImp * list uchar * list Event) :=
  match kind d with
  | KSimulator => Returns (set_data [] d, data_ d, [])
  | _ =>
      '(data, close_me) ← receive_loop answers stdin_at_eof d [];
      if (close_me : bool) then
        let '(d', ev) := close os d in Returns (d', data, ev)
      else Returns (d, data, [])
  end.

(** [fill(data)]: nothing for the base class; the simulator stores the
    bytes and calls [on_data_], whose callback is returned.  Calling an
    empty [function<void()>] throws, which ends the program. *)
Definition fill (data : list uchar) (d : SerialDeviceImp)
  : Run (SerialDeviceImp * option Callback) :=
  match kind d with
  | KSimulator =>
      match on_data_ d with
      | Some cb => Returns (set_data data d, Some cb)
      | None => Fails
      end
  | _ => Returns (d, None)
  end.

(** The loop of [lookup]: the first source called [name], with its
    position. *)
Fixpoint lookup_from (name : string) (l : list SerialDeviceImp) (i : nat)
  : option (nat * SerialDeviceImp) :=
  match l with
  | [] => None
  | sd :: rest =>
      if String.eqb (device sd) name then Some (i, sd)
      else lookup_from name rest (S i)
  end.

Definition lookup (name : string) (m : Manager) : option (nat * SerialDeviceImp) :=
  lookup_from name (serial_devices_ m) 0.

(** The erase loop of [removeNonWorking(device)]: the list afterwards and
    [found_and_removed]. *)
Fixpoint erase_named (os : OS) (name : string) (l : list SerialDeviceImp)
    (found_and_removed : bool) : list SerialDeviceImp * bool :=
  match l with
  | [] => ([], found_and_removed)
  | sd :: rest =>
      if opened sd && negb (working os sd) && String.eqb (device sd) name
      then erase_named os name rest true
      else let '(rest', found) := erase_named os name rest found_and_removed in
           (sd :: rest', found)
  end.

Definition removeNonWorking (os : OS) (name : string) (m : Manager)
  : Manager * bool :=
  let '(devs, found) := erase_named os name (serial_devices_ m) false in
  (set_serial_devices devs m, found).

(** The loop of [closeAllDoNotRemove], from position [i]. *)
Fixpoint close_each (os : OS) (l : list SerialDeviceImp) (i : nat)
  : list SerialDeviceImp * list LoopEvent :=
  match l with
  | [] => ([], [])
  | sd :: rest =>
      let '(sd', ev) := close os sd in
      let '(rest', evs) := close_each os rest (S i) in
      (sd' :: rest', Closed i ev :: evs)
  end.

Definition closeAllDoNotRemove (os : OS) (m : Manager) : Manager * list LoopEvent :=
  if (length (serial_devices_ m) =? 0)%nat then (m, [])
  else let '(devs, ev) := close_each os (serial_devices_ m) 0 in
       (set_serial_devices devs m, ev).

(** The destructor of the manager: [stop()], then [closeAllDoNotRemove()],
    then [removeNonWorkingSerialDevices()]; [os] is what the operating
    system answers during the closing and [os'] during the sweep. *)
Definition destroy (os os' : OS) (m : Manager) : Manager * list LoopEvent :=
  let m := stop m in
  let '(m, ev) := closeAllDoNotRemove os m in
  (removeNonWorkingSerialDevices os' m, ev).

(** The loop of [stopRegularCallback]: the first timer with the id is
    erased. *)
Fixpoint erase_timer (i : Z) (timers : list Timer) : list Timer :=
  match timers with
  | [] => []
  | t :: rest => if id t =? i then rest else t :: erase_timer i rest
  end.

Definition stopRegularCallback (i : Z) (m : Manager) : Manager :=
  set_timers (erase_timer i (timers_ m)) m.

(** The loop of [calculateTimeToNearestTimerCallback]. *)
Fixpoint nearest_timer (now : Z) (timers : list Timer) (r : Z) : Z :=
  match timers with
  | [] => r
  | t :: rest =>
      let done := last_call t + seconds t in
      let remaining := done - now in
      nearest_timer now rest (if remaining <? r then remaining else r)
  end.

Definition calculateTimeToNearestTimerCallback (now : Z) (m : Manager) : Z :=
  nearest_timer now (timers_ m) (1024 * 1024 * 1024).

(** [timerLoop]: per round, whether [usleep] was interrupted and the two
    readings of the clock. *)
Fixpoint timerLoop (rounds : list (bool * Z * Z)) (m : Manager)
  : Run (Manager * list Callback) :=
  if negb (running_ m) then Returns (m, [])
  else
    match rounds with
    | [] => Pending
    | (interrupted, curr, curr') :: rest =>
        let '(m, called, continue) := timerLoop_round interrupted curr curr' m in
        if continue then
          '(m, called') ← timerLoop rest m; Returns (m, called ++ called')
        else Returns (m, called)
    end.

(** A simulator as it is created, but for its callbacks and its
    buffer. *)
Definition pristine_simulator (d : SerialDeviceImp) : Prop :=
  kind d = KSimulator /\ fd_ d = -2 /\ resetting_ d = false.

(** The timers' ids are their positions, as in a manager that has only
    started timers. *)
Definition ids_are_positions (timers : list Timer) : Prop :=
  forall (i : nat) (t : Timer), timers !! i = Some t -> id t = Z.of_nat i.

End Devices.

Arguments device {Callback}.
Arguments set_data {Callback}.
Arguments checkIfDataIsPending {Callback}.
Arguments receive_loop {Callback}.
Arguments receive {Callback}.
Arguments fill {Callback}.
Arguments lookup_from {Callback}.
Arguments lookup {Callback}.
Arguments erase_named {Callback}.
Arguments removeNonWorking {Callback}.
Arguments close_each {Callback}.
Arguments closeAllDoNotRemove {Callback}.
Arguments destroy {Callback}.
Arguments erase_timer {Callback}.
Arguments stopRegularCallback {Callback}.
Arguments nearest_timer {Callback}.
Arguments calculateTimeToNearestTimerCallback {Callback}.
Arguments timerLoop {Callback}.
Arguments ids_are_positions {Callback}.
Arguments pristine_simulator {Callback}.
Arguments kind {Callback}.
Arguments on_data_ {Callback}.
Arguments on_disappear_ {Callback}.
Arguments fd_ {Callback}.
Arguments is_file_ {Callback}.
Arguments is_stdin_ {Callback}.
Arguments no_callbacks_ {Callback}.
Arguments resetting_ {Callback}.
Arguments device_ {Callback}.
Arguments pid_ {Callback}.
Arguments data_ {Callback}.
Arguments expecting_ascii_ {Callback}.
Arguments CallOnDisappear {Callback}.
Arguments OsClose {Callback}.
Arguments StopBackgroundShell {Callback}.
Arguments TickleEventLoop {Callback}.
Arguments skippingCallbacks {Callback}.
Arguments resetting {Callback}.
Arguments opened {Callback}.
Arguments isClosed {Callback}.
Arguments fd {Callback}.
Arguments readonly {Callback}.
Arguments working {Callback}.
Arguments close {Callback}.
Arguments send {Callback}.
Arguments new_device {Callback}.
Arguments fire_on_disappear {Callback}.
Arguments close_tty {Callback}.
Arguments close_command {Callback}.
Arguments close_file {Callback}.
Arguments set_fd {Callback}.
Arguments set_pid {Callback}.
Arguments set_on_data {Callback}.
Arguments set_on_disappear {Callback}.
Arguments set_resetting {Callback}.
Arguments set_no_callbacks {Callback}.
Arguments set_is_file {Callback}.
Arguments set_is_stdin {Callback}.
Arguments set_expecting_ascii {Callback}.
Arguments resetInitiated {Callback}.
Arguments resetCompleted {Callback}.
Arguments disableCallbacks {Callback}.
Arguments enableCallbacks {Callback}.
Arguments id {Callback}.
Arguments seconds {Callback}.
Arguments last_call {Callback}.
Arguments callback {Callback}.
Arguments name {Callback}.
Arguments isTime {Callback}.
Arguments set_last_call {Callback}.
Arguments running_ {Callback}.
Arguments expect_devices_to_work_ {Callback}.
Arguments start_time_ {Callback}.
Arguments exit_after_seconds_ {Callback}.
Arguments serial_devices_ {Callback}.
Arguments timers_ {Callback}.
Arguments set_running {Callback}.
Arguments set_serial_devices {Callback}.
Arguments set_timers {Callback}.
Arguments expectDevicesToWork {Callback}.
Arguments stop {Callback}.
Arguments isRunning {Callback}.
Arguments addSerialDeviceForManagement {Callback}.
Arguments erase_non_working {Callback}.
Arguments removeNonWorkingSerialDevices {Callback}.
Arguments startRegularCallback {Callback}.
Arguments mark_timers {Callback}.
Arguments executeTimerCallbacks {Callback}.
Arguments timerLoop_round {Callback}.
Arguments listened_to {Callback}.
Arguments not_working {Callback}.
Arguments scan_devices {Callback}.
Arguments triggered {Callback}.
Arguments to_be_closed {Callback}.
Arguments select_indices {Callback}.
Arguments OnData {Callback}.
Arguments Closed {Callback}.
Arguments deliver {Callback}.
Arguments close_all {Callback}.
Arguments eventLoop_round {Callback}.
Arguments eventLoop {Callback}.
Arguments open {Callback}.
Arguments OpClose {Callback}.
Arguments OpOpen {Callback}.
Arguments OpResetInitiated {Callback}.
Arguments OpResetCompleted {Callback}.
Arguments OpDisableCallbacks {Callback}.
Arguments OpEnableCallbacks {Callback}.
Arguments OpListenTo {Callback}.
Arguments apply_op {Callback}.
Arguments run_ops {Callback}.
Arguments disappear_calls {Callback}.
Arguments registered {Callback}.
Arguments distinct_descriptors {Callback}.

(** *** Sources and managers to run the definitions on *)

Module Examples.

Definition os_all_present : OS :=
  {| checkCharacterDeviceExists := fun _ => true;
     fionread := fun _ => Some 0;
     stillRunning := fun _ => true |}.

(** A tty opened on descriptor 5 with an [on_data_] callback. *)
Definition tty_usb0 : SerialDeviceImp nat :=
  set_on_data (Some 1%nat) (set_fd 5 (new_device KTTY "/dev/ttyUSB0")).

(** A tty opened on descriptor 6 whose callbacks are disabled. *)
Definition tty_usb1_muted : SerialDeviceImp nat :=
  disableCallbacks
    (set_on_data (Some 2%nat) (set_fd 6 (new_device KTTY "/dev/ttyUSB1"))).

(** A file that has been read to its end and closed. *)
Definition file_closed : SerialDeviceImp nat :=
  set_is_file (set_fd (-1) (new_device KFile "telegrams.bin")).

(** A file opened on descriptor 3, with an [on_disappear_] callback. *)
Definition file_open : SerialDeviceImp nat :=
  set_on_disappear (Some 9%nat)
    (set_is_file (set_fd 3 (new_device KFile "telegrams.bin"))).

(** A tty opened on descriptor 5, with an [on_disappear_] callback. *)
Definition tty_watched : SerialDeviceImp nat :=
  set_on_disappear (Some 9%nat) (set_fd 5 (new_device KTTY "/dev/ttyUSB0")).

(** A command running as process 77 and read on descriptor 4, with an
    [on_disappear_] callback. *)
Definition command_watched : SerialDeviceImp nat :=
  set_on_disappear (Some 9%nat)
    (set_is_stdin (set_pid 77 (set_fd 4 (new_device KCommand "rtlwmbus")))).

Definition select_both : SelectAnswer :=
  {| activity := 2; readable := {[ 5; 6 ]} |}.

Definition manager_of (latched : bool) (devs : list (SerialDeviceImp nat))
  : Manager nat :=
  {| running_ := true; expect_devices_to_work_ := latched;
     start_time_ := 0; exit_after_seconds_ := 0;
     serial_devices_ := devs; timers_ := [] |}.

End Examples.

End Serial.

(* ------------------------------------------------------------------ *)
(** ** mbus_rawtty.cc *)

Module MBusRawTTY.

(** [FrameStatus] of wmbus.h. *)
Inductive FrameStatus : Type := PartialFrame | FullFrame | ErrorInFrame.

(** What [checkMBusFrame] hands back: the status and its three
    out-parameters, which the caller reads for a full frame only. *)
Record FrameCheck : Type := mkCheck {
  status : FrameStatus;
  frame_length : nat;
  payload_len : Z;
  payload_offset : Z
}.

(** [ContentStartsWith] of wmbus.h. *)
Inductive ContentStartsWith : Type := C_FIELD | CI_FIELD | SHORT_FRAME | LONG_FRAME.

(** The iterator range [v.begin()+off, v.begin()+off+len): outside the
    vector it is undefined behaviour. *)
Definition vec_range (v : list uchar) (off len : Z) : Run (list uchar) :=
  if (0 <=? off) && (0 <=? len) && (off + len <=? Z.of_nat (length v))
  then Returns (take (Z.to_nat len) (drop (Z.to_nat off) v))
  else Fails.

(** [v.erase(v.begin(), v.begin()+n)] *)
Definition erase_front (n : nat) (v : list uchar) : Run (list uchar) :=
  if (n <=? length v)%nat then Returns (drop n v) else Fails.

(** What [processSerialData] leaves behind: the read buffer, the payloads
    handed to [handleTelegram] in order, and the lines written with
    [verbose]. *)
Record Processed : Type := mkProcessed {
  read_buffer_ : list uchar;
  handled : list (list uchar);
  verbose_log : list string
}.

Section Recogniser.

(** [checkMBusFrame] is defined in wmbus.cc. *)
Variable checkMBusFrame : list uchar -> FrameCheck.

(** The [for (;;)] loop of [processSerialData]; [rounds] bounds the number
    of times its body is run. *)
Fixpoint eat_frames (rounds : nat) (buf : list uchar) : Run Processed :=
  match rounds with
  | O => Pending
  | S rounds =>
      let c := checkMBusFrame buf in
      match status c with
      | PartialFrame =>
          Returns {| read_buffer_ := buf; handled := []; verbose_log := [] |}
      | ErrorInFrame =>
          Returns {| read_buffer_ := [];
                     handled := [];
                     verbose_log := ["(mbus) protocol error in message received!"%string] |}
      | FullFrame =>
          payload ←
            (if 0 <? payload_len c then
               body ← vec_range buf (payload_offset c) (payload_len c);
               Returns (to_uchar (payload_len c) :: body)
             else Returns []);
          buf ← erase_front (frame_length c) buf;
          r ← eat_frames rounds buf;
          Returns {| read_buffer_ := read_buffer_ r;
                     handled := payload :: handled r;
                     verbose_log := verbose_log r |}
      end
  end.

(** [processSerialData]: [data] is what [serial()->receive] delivers. *)
Definition processSerialData (rounds : nat) (data : list uchar)
    (buf : list uchar) : Run Processed :=
  eat_frames rounds (buf ++ data).

(** A recogniser is well behaved on a buffer when a full frame it reports
    is not empty and lies, with its payload, inside the buffer. *)
Definition well_behaved (buf : list uchar) : Prop :=
  let c := checkMBusFrame buf in
  status c = FullFrame ->
  (0 < frame_length c <= length buf)%nat
  /\ (0 < payload_len c ->
      0 <= payload_offset c
      /\ payload_offset c + payload_len c <= Z.of_nat (length buf)).

End Recogniser.

(** The loop of [sendTelegram] that copies the content and sums it into
    the [uchar crc]. *)
Fixpoint copy_and_sum (content : list uchar) (msg : list uchar) (crc : uchar)
  : list uchar * uchar :=
  match content with
  | [] => (msg, crc)
  | c :: rest => copy_and_sum rest (msg ++ [c]) (to_uchar (crc + c))
  end.

(** [sendTelegram]: the result and the bytes that went out on the wire. *)
Definition sendTelegram {Callback : Type} (answers : list Serial.WriteResult)
    (serial : Serial.SerialDeviceImp Callback)
    (starts_with : ContentStartsWith) (content : list uchar)
  : Run (bool * list uchar) :=
  if Serial.readonly serial then Returns (true, [])
  else if (250 <? length content)%nat then Returns (false, [])
  else
    let header :=
      match starts_with with
      | SHORT_FRAME => Some [0x10]
      | LONG_FRAME =>
          Some [0x68; to_uchar (Z.of_nat (length content));
                to_uchar (Z.of_nat (length content)); 0x68]
      | _ => None
      end in
    match header with
    | None => Returns (false, [])
    | Some msg =>
        let '(msg, crc) := copy_and_sum content msg 0 in
        let msg := msg ++ [crc] ++ [0x16] in
        '(sent, wire) ← Serial.send answers serial msg;
        if negb sent then Returns (false, wire) else Returns (true, wire)
    end.

(** [detectMBUS]: a tty source is created in the manager and opened
    without insisting; when that succeeds it is closed again.  The source
    stays in the list of the manager at the position [probe] it was added
    at.  The answer is [NotThere] whatever made the opening fail;
    [detected->setAsFound] is left out. *)
Definition detectMBUS {Callback : Type} (a : Serial.OpenAnswer) (os : Serial.OS)
    (tty : string) (m : Serial.Manager Callback)
  : Run (Serial.AccessCheck * Serial.Manager Callback * list (Serial.Event Callback)) :=
  let probe := length (Serial.serial_devices_ m) in
  let m := Serial.addSerialDeviceForManagement (Serial.new_device Serial.KTTY tty) m in
  '(rc, serial, ev) ← Serial.open a false (Serial.new_device Serial.KTTY tty);
  let m := Serial.set_serial_devices (<[probe := serial]> (Serial.serial_devices_ m)) m in
  match rc with
  | Serial.AccessOK =>
      let '(serial, ev') := Serial.close os serial in
      Returns (Serial.AccessOK,
               Serial.set_serial_devices
                 (<[probe := serial]> (Serial.serial_devices_ m)) m,
               ev ++ ev')
  | _ => Returns (Serial.NotThere, m, ev)
  end.

(** What a payload handed to [handleTelegram] looks like: empty, or the
    re-inserted length byte followed by that many bytes. *)
Definition length_prefixed (p : list uchar) : Prop :=
  p = []
  \/ exists len : Z,
       0 < len /\ p !! 0%nat = Some (to_uchar len)
       /\ length p = S (Z.to_nat len).

(** The sum of the bytes of a vector. *)
Definition sum_bytes (l : list uchar) : Z := fold_right Z.add 0 l.

Definition partial_frame : FrameCheck :=
  {| status := PartialFrame; frame_length := 0; payload_len := 0; payload_offset := 0 |}.

Definition error_in_frame : FrameCheck :=
  {| status := ErrorInFrame; frame_length := 0; payload_len := 0; payload_offset := 0 |}.

Definition full_frame (n : nat) (len off : Z) : FrameCheck :=
  {| status := FullFrame; frame_length := n; payload_len := len; payload_offset := off |}.

(** Modelled from the spec: [checkMBusFrame] of wmbus.cc, which is not
    among the embedded files (section 4.C).  A single [0xE5] is a frame of
    one byte without payload.  A short frame is [0x10 C A CS 0x16].  A long
    frame is [0x68 L L 0x68 ... CS 0x16] with [L >= 3], both [L] equal, and
    [CS] the low byte of the sum of the [L] bytes after the second [0x68];
    these [L] bytes are the payload, at offset 4 (for a short frame the
    two bytes at offset 1).  A buffer too short to decide is a partial
    frame, anything else an error. *)
Definition spec_checkMBusFrame (data : list uchar) : FrameCheck :=
  match data with
  | [] => partial_frame
  | b0 :: _ =>
      if b0 =? 0xE5 then full_frame 1 0 0
      else if b0 =? 0x10 then
        match data with
        | _ :: c :: a :: cs :: e :: _ =>
            if (cs =? to_uchar (c + a)) && (e =? 0x16) then full_frame 5 2 1
            else error_in_frame
        | _ => partial_frame
        end
      else if b0 =? 0x68 then
        match data with
        | _ :: l1 :: l2 :: b3 :: rest =>
            if negb (l1 =? l2) || negb (b3 =? 0x68) || (l1 <? 3) then error_in_frame
            else if (length rest <? Z.to_nat l1 + 2)%nat then partial_frame
            else
              let body := take (Z.to_nat l1) rest in
              match drop (Z.to_nat l1) rest with
              | cs :: e :: _ =>
                  if (cs =? to_uchar (sum_bytes body)) && (e =? 0x16)
                  then full_frame (Z.to_nat l1 + 6) l1 4
                  else error_in_frame
              | _ => partial_frame
              end
        | _ => partial_frame
        end
      else error_in_frame
  end.

End MBusRawTTY.

(* ------------------------------------------------------------------ *)
(** ** wmbus_simulator.cc *)

Module Simulator.

(** [isspace] and [isdigit] in the C locale. *)
Definition is_space (c : ascii) : bool :=
  let n := Z.of_nat (nat_of_ascii c) in
  (n =? 32) || ((9 <=? n) && (n <=? 13)).

Definition is_digit (c : ascii) : bool :=
  let n := Z.of_nat (nat_of_ascii c) in
  (48 <=? n) && (n <=? 57).

Fixpoint skip_spaces (l : list ascii) : list ascii :=
  match l with
  | c :: rest => if is_space c then skip_spaces rest else l
  | [] => []
  end.

Fixpoint digits_value (l : list ascii) (acc : Z) : Z :=
  match l with
  | c :: rest =>
      if is_digit c
      then digits_value rest (10 * acc + (Z.of_nat (nat_of_ascii c) - 48))
      else acc
  | [] => acc
  end.

(** [atoi]: blanks, an optional sign, then the digits up to the first
    other character. *)
Definition atoi (l : list ascii) : Z :=
  match skip_spaces l with
  | "-"%char :: rest => - digits_value rest 0
  | "+"%char :: rest => digits_value rest 0
  | rest => digits_value rest 0
  end.

(** The scan of a line from index [i]: [|] is skipped, [+] ends the scan
    with [found_time = i] and [rel_time] read from what follows, any other
    character is appended to [hex]. *)
Fixpoint scan_line (chars : list ascii) (i : Z) (hex : string)
  : string * Z * Z :=
  match chars with
  | [] => (hex, 0, 0)
  | c :: rest =>
      if Ascii.eqb c "|"%char then scan_line rest (i + 1) hex
      else if Ascii.eqb c "+"%char then (hex, i, atoi rest)
      else scan_line rest (i + 1) (hex ++ String c EmptyString)%string
  end.

(** [l.substr(0,9) == "telegram="] *)
Definition is_telegram_line (l : string) : bool :=
  String.eqb (substring 0 9 l) "telegram="%string.

(** One [usleep(1000*1000)]: the seconds that went by, and what
    [manager_->isRunning()] answers afterwards. *)
Record Sleep : Type := mkSleep {
  elapsed : Z;
  running_after : bool
}.

(** The clock ([time(NULL)]) and the sleeps to come.  Time goes by in
    [usleep] only. *)
Record World : Type := mkWorld {
  now : Z;
  sleeps : list Sleep
}.

Inductive SimEvent : Type :=
| HandleTelegram (at_time : Z) (payload : list uchar)
| ManagerStop (at_time : Z).

(** The inner [for (;;)] loop. *)
Fixpoint wait_loop (sl : list Sleep) (curr : Z) (deadline : Z) : Run World :=
  if deadline <? curr then Returns {| now := curr; sleeps := sl |}
  else
    match sl with
    | [] => Pending
    | s :: rest =>
        let curr := curr + elapsed s in
        if negb (running_after s) then Returns {| now := curr; sleeps := rest |}
        else wait_loop rest curr deadline
    end.

(** The scan of a telegram line, which starts behind [telegram=]. *)
Definition scan_of (l : string) : string * Z * Z :=
  scan_line (drop 9 (list_ascii_of_string l)) 9 EmptyString.

Section Simulate.

(** [hex2bin] is defined in util.cc: the bytes, or [None] when it
    returns false. *)
Variable hex2bin : string -> option (list uchar).

(** The body of the loop over [lines_]. *)
Definition simulate_line (start_time : Z) (l : string) (w : World)
  : Run (World * list SimEvent) :=
  if is_telegram_line l then
    let '(hex, found_time, rel_time) := scan_of l in
    w ← (if negb (found_time =? 0) then
           if now w <? start_time + rel_time
           then wait_loop (sleeps w) (now w) (start_time + rel_time)
           else Returns w
         else Returns w);
    match hex2bin hex with
    | None => Fails
    | Some payload => Returns (w, [HandleTelegram (now w) payload])
    end
  else Returns (w, []).

Fixpoint simulate_lines (start_time : Z) (lines : list string) (w : World)
  : Run (World * list SimEvent) :=
  match lines with
  | [] => Returns (w, [])
  | l :: rest =>
      '(w, ev) ← simulate_line start_time l w;
      '(w, ev') ← simulate_lines start_time rest w;
      Returns (w, ev ++ ev')
  end.

(** [simulate]: what was handed to [handleTelegram] and when, ending with
    the call of [manager_->stop()]. *)
Definition simulate (lines_ : list string) (w : World)
  : Run (World * list SimEvent) :=
  let start_time := now w in
  '(w, ev) ← simulate_lines start_time lines_ w;
  Returns (w, ev ++ [ManagerStop (now w)]).

(** The line is no telegram line, or its hex text is valid. *)
Definition line_valid (l : string) : bool :=
  if is_telegram_line l then
    match hex2bin (fst (fst (scan_of l))) with Some _ => true | None => false end
  else true.

End Simulate.

(** The number of sleeps that are enough for the wait of a line: none for
    a line without a time, [rel_time + 1] otherwise. *)
Definition line_wait (l : string) : nat :=
  if is_telegram_line l then
    let '(_, found_time, rel_time) := scan_of l in
    if found_time =? 0 then 0%nat else Z.to_nat (rel_time + 1)
  else 0%nat.

Fixpoint lines_wait (lines : list string) : nat :=
  match lines with
  | [] => 0%nat
  | l :: rest => (line_wait l + lines_wait rest)%nat
  end.

(** A text without the two characters the scan treats specially. *)
Definition plain (hex : string) : Prop :=
  Forall (fun c => c <> "|"%char /\ c <> "+"%char) (list_ascii_of_string hex).

Definition is_injection (e : SimEvent) : Prop :=
  match e with HandleTelegram _ _ => True | ManagerStop _ => False end.

(** What an event hands to [handleTelegram], and when it happens. *)
Definition event_payload (e : SimEvent) : option (list uchar) :=
  match e with HandleTelegram _ p => Some p | ManagerStop _ => None end.

Definition event_time (e : SimEvent) : Z :=
  match e with HandleTelegram at_time _ => at_time | ManagerStop at_time => at_time end.

(** The bytes of a telegram line, when it is one and its hex text is
    valid. *)
Definition line_payload (hex2bin : string -> option (list uchar)) (l : string)
  : option (list uchar) :=
  if is_telegram_line l then hex2bin (fst (fst (scan_of l))) else None.

(** The value of a hex digit. *)
Definition hex_value (c : ascii) : option Z :=
  let n := Z.of_nat (nat_of_ascii c) in
  if (48 <=? n) && (n <=? 57) then Some (n - 48)
  else if (65 <=? n) && (n <=? 70) then Some (n - 55)
  else if (97 <=? n) && (n <=? 102) then Some (n - 87)
  else None.

Fixpoint hex_pairs (l : list ascii) : option (list uchar) :=
  match l with
  | [] => Some []
  | h :: lo :: rest =>
      hv ← hex_value h;
      lv ← hex_value lo;
      bytes ← hex_pairs rest;
      Some ((16 * hv + lv) :: bytes)
  | _ => None
  end.

(** Modelled from the spec: [hex2bin] of util.cc, which is not among the
    embedded files; the spec calls the text after [telegram=] hex, so two
    hex digits make a byte, and anything else is not valid. *)
Definition spec_hex2bin (s : string) : option (list uchar) :=
  hex_pairs (list_ascii_of_string s).

End Simulator.

(* ================================================================== *)
(** * Part II: the theorems *)
(* ================================================================== *)

(** ** Bytes and doubles *)

Lemma all_uchars_complete (b : Z) : is_uchar b -> In b all_uchars.
Proof.
  intros [Hlo Hhi]. unfold all_uchars.
  apply in_map_iff. exists (Z.to_nat b). split; [lia|].
  apply in_seq. lia.
Qed.

(** On bytes, [256.0*hi + lo] computed in binary64 is the integer
    [256*hi + lo]: checked on all 65536 pairs, one high byte at a time. *)
Lemma le16_double_exact_table :
  Forall (fun hi =>
            List.map (fun lo => (256 * double_of_uchar hi + double_of_uchar lo)%float)
              all_uchars
            = List.map (fun lo => double_of_Z (256 * hi + lo)) all_uchars)
    all_uchars.
Proof.
  unfold all_uchars at 3. cbn [seq List.map].
  repeat (apply Forall_cons; split; [vm_compute; reflexivity|]).
  apply Forall_nil. exact I.
Qed.

Lemma le16_double_exact (hi lo : Z) :
  is_uchar hi -> is_uchar lo ->
  (256 * double_of_uchar hi + double_of_uchar lo)%float
  = double_of_Z (256 * hi + lo).
Proof.
  intros Hhi Hlo.
  pose proof le16_double_exact_table as Htable.
  rewrite Forall_forall in Htable.
  assert (Hin : hi ∈ all_uchars)
    by (apply list_elem_of_In, all_uchars_complete; exact Hhi).
  specialize (Htable hi Hin).
  rewrite List.map_ext_in_iff in Htable.
  apply (Htable lo). apply all_uchars_complete. exact Hlo.
Qed.

(** ** Compact5 *)

Section Compact5_facts.
Import Compact5.
Variable addMoreExplanation : Z -> string -> float -> Telegram -> Telegram.

Lemma lookup_at_index (content : list uchar) (i : nat) :
  (i < length content)%nat -> content !! i = Some (at_index content i).
Proof.
  intros Hi. unfold at_index.
  destruct (content !! i) as [b|] eqn:Hb.
  - f_equal. symmetry. apply nth_lookup_Some with (d := 0) in Hb. exact Hb.
  - apply lookup_ge_None in Hb. lia.
Qed.

Lemma at_index_uchar (content : list uchar) (i : nat) :
  Forall is_uchar content -> (i < length content)%nat ->
  is_uchar (at_index content i).
Proof.
  intros Hall Hi. rewrite Forall_forall in Hall. apply Hall.
  eapply list_elem_of_lookup_2, lookup_at_index, Hi.
Qed.

(** C1.  For a telegram whose extracted payload holds at least 9 bytes,
    [processContent] returns, and the meter it leaves has
    previous-period energy [256*content[4] + content[3]] kWh,
    current-period energy [256*content[8] + content[7]] kWh and total
    energy the (binary64) sum of the two; with bytes 3,4 = 0x64,0x00 and
    bytes 7,8 = 0xC8,0x00 the three readings are 100, 200 and 300. *)
Theorem compact5_processContent_energy (m : MeterCompact5) (t : Telegram) :
  let content := payload t in
  (9 <= length content)%nat ->
  Forall is_uchar content ->
  exists m' t',
    processContent addMoreExplanation m t = Some (m', t')
    /\ prev_energy_kwh_ m'
       = double_of_Z (256 * at_index content 4 + at_index content 3)
    /\ curr_energy_kwh_ m'
       = double_of_Z (256 * at_index content 8 + at_index content 7)
    /\ total_energy_kwh_ m' = (prev_energy_kwh_ m' + curr_energy_kwh_ m')%float
    /\ (at_index content 3 = 0x64 -> at_index content 4 = 0x00 ->
        at_index content 7 = 0xC8 -> at_index content 8 = 0x00 ->
        prev_energy_kwh_ m' = 100%float
        /\ curr_energy_kwh_ m' = 200%float
        /\ total_energy_kwh_ m' = 300%float).
Proof.
  intros content Hlen Hbytes.
  unfold processContent. fold content.
  rewrite (lookup_at_index content 3), (lookup_at_index content 4) by lia.
  simpl.
  rewrite (lookup_at_index content 7), (lookup_at_index content 8) by lia.
  simpl.
  eexists _, _. split; [reflexivity|]. simpl.
  rewrite !le16_double_exact by (apply at_index_uchar; [assumption|lia]).
  split; [reflexivity|]. split; [reflexivity|]. split; [reflexivity|].
  intros -> -> -> ->. repeat split; vm_compute; reflexivity.
Qed.

End Compact5_facts.

Lemma compact5_processContent_energy_witness :
  exists m' t',
    Compact5.processContent (fun _ _ _ t => t) Compact5.new_meter
      (Compact5.mkTelegram [0xA2; 0x11; 0x22; 0x64; 0x00; 0x33; 0x44; 0xC8; 0x00; 0x55] [] [])
    = Some (m', t')
    /\ Compact5.prev_energy_kwh_ m' = 100%float
    /\ Compact5.curr_energy_kwh_ m' = 200%float
    /\ Compact5.total_energy_kwh_ m' = 300%float.
Proof.
  destruct (compact5_processContent_energy (fun _ _ _ t => t)
              Compact5.new_meter
              (Compact5.mkTelegram
                 [0xA2; 0x11; 0x22; 0x64; 0x00; 0x33; 0x44; 0xC8; 0x00; 0x55] [] []))
    as (m' & t' & Hrun & _ & _ & _ & Hlit).
  - simpl. lia.
  - repeat constructor; unfold is_uchar; lia.
  - exists m', t'. split; [exact Hrun|].
    apply Hlit; reflexivity.
Defined.

(** ** Multical603 *)

Section Multical603_facts.
Import Multical603.
Context {Values Expl Tm : Type} `{HH : Helpers Values Expl Tm}.

Ltac step_cases :=
  intros;
  unfold step_info_codes, step_energy_forward, step_energy_returned,
    step_total_energy, step_total_volume, step_volume_flow,
    step_target_date, annotate, m603_temps;
  repeat match goal with
         | |- context [match findKey ?a ?b ?c ?d ?e with _ => _ end] =>
             destruct (findKey a b c d e)
         | |- context [match ?x with pair _ _ => _ end] => destruct x
         end;
  reflexivity.

Lemma step_info_codes_temps vs s :
  m603_temps (meter (step_info_codes vs s)) = m603_temps (meter s).
Proof. step_cases. Qed.

Lemma step_energy_forward_temps vs s :
  m603_temps (meter (step_energy_forward vs s)) = m603_temps (meter s).
Proof. step_cases. Qed.

Lemma step_energy_returned_temps vs s :
  m603_temps (meter (step_energy_returned vs s)) = m603_temps (meter s).
Proof. step_cases. Qed.

Lemma step_total_energy_temps vs s :
  m603_temps (meter (step_total_energy vs s)) = m603_temps (meter s).
Proof. step_cases. Qed.

Lemma step_total_volume_temps vs s :
  m603_temps (meter (step_total_volume vs s)) = m603_temps (meter s).
Proof. step_cases. Qed.

Lemma step_volume_flow_temps vs s :
  m603_temps (meter (step_volume_flow vs s)) = m603_temps (meter s).
Proof. step_cases. Qed.

Lemma step_target_date_temps tm0 vs s :
  m603_temps (meter (step_target_date tm0 vs s)) = m603_temps (meter s).
Proof. step_cases. Qed.

Lemma before_t1_temps offset0 m t :
  m603_temps (meter (before_t1 offset0 m t)) = m603_temps m.
Proof.
  unfold before_t1.
  rewrite step_volume_flow_temps, step_total_volume_temps,
    step_total_energy_temps, step_energy_returned_temps,
    step_energy_forward_temps, step_info_codes_temps.
  reflexivity.
Qed.

Lemma processContent_temps offset0 tm0 m t :
  m603_temps (fst (processContent offset0 tm0 m t))
  = m603_temps (meter (step_t2 (values t) (step_t1 (values t) (before_t1 offset0 m t)))).
Proof.
  unfold processContent. cbn [fst meter].
  rewrite step_target_date_temps. reflexivity.
Qed.

Lemma step_t1_spec vs s :
  match findKey Instantaneous FlowTemperature 0 0 vs with
  | None => step_t1 vs s = s
  | Some key =>
      let r := extractDVdouble vs key (offset s) (t1_temperature_c_ (meter s)) in
      m603_temps (meter (step_t1 vs s))
      = (snd r, fst (fst r), t2_temperature_c_ (meter s), has_t2_temperature_ (meter s))
  end.
Proof.
  unfold step_t1.
  destruct (findKey Instantaneous FlowTemperature 0 0 vs) as [key|]; [|reflexivity].
  cbv zeta. destruct (extractDVdouble vs key _ _) as [[ok off] v]. reflexivity.
Qed.

Lemma step_t2_spec vs s :
  match findKey Instantaneous ReturnTemperature 0 0 vs with
  | None => step_t2 vs s = s
  | Some key =>
      let r := extractDVdouble vs key (offset s) (t2_temperature_c_ (meter s)) in
      m603_temps (meter (step_t2 vs s))
      = (t1_temperature_c_ (meter s), has_t1_temperature_ (meter s), snd r, fst (fst r))
  end.
Proof.
  unfold step_t2.
  destruct (findKey Instantaneous ReturnTemperature 0 0 vs) as [key|]; [|reflexivity].
  cbv zeta. destruct (extractDVdouble vs key _ _) as [[ok off] v]. reflexivity.
Qed.

(** What [processContent] leaves in the T1 members. *)
Lemma processContent_t1 offset0 tm0 m t :
  let m' := fst (processContent offset0 tm0 m t) in
  match findKey Instantaneous FlowTemperature 0 0 (values t) with
  | None =>
      t1_temperature_c_ m' = t1_temperature_c_ m
      /\ has_t1_temperature_ m' = has_t1_temperature_ m
  | Some key =>
      exists off, 
        let r := extractDVdouble (values t) key off (t1_temperature_c_ m) in
        t1_temperature_c_ m' = snd r /\ has_t1_temperature_ m' = fst (fst r)
  end.
Proof.
  intros m'.
  pose proof (processContent_temps offset0 tm0 m t) as Hpc. fold m' in Hpc.
  pose proof (before_t1_temps offset0 m t) as Hb.
  set (s0 := before_t1 offset0 m t) in *.
  pose proof (step_t1_spec (values t) s0) as H1.
  pose proof (step_t2_spec (values t) (step_t1 (values t) s0)) as H2.
  unfold m603_temps in *.
  destruct (findKey Instantaneous FlowTemperature 0 0 (values t)) as [k1|].
  - exists (offset s0). cbv zeta in *.
    assert (Ht : t1_temperature_c_ (meter s0) = t1_temperature_c_ m) by congruence.
    rewrite <- Ht.
    destruct (findKey Instantaneous ReturnTemperature 0 0 (values t)) as [k2|].
    + cbv zeta in H2. rewrite H2 in Hpc. split; congruence.
    + rewrite H2 in Hpc. split; congruence.
  - rewrite H1 in *.
    destruct (findKey Instantaneous ReturnTemperature 0 0 (values t)) as [k2|].
    + cbv zeta in H2. rewrite H2 in Hpc. split; congruence.
    + rewrite H2 in Hpc. split; congruence.
Qed.

(** And in the T2 members. *)
Lemma processContent_t2 offset0 tm0 m t :
  let m' := fst (processContent offset0 tm0 m t) in
  match findKey Instantaneous ReturnTemperature 0 0 (values t) with
  | None =>
      t2_temperature_c_ m' = t2_temperature_c_ m
      /\ has_t2_temperature_ m' = has_t2_temperature_ m
  | Some key =>
      exists off,
        let r := extractDVdouble (values t) key off (t2_temperature_c_ m) in
        t2_temperature_c_ m' = snd r /\ has_t2_temperature_ m' = fst (fst r)
  end.
Proof.
  intros m'.
  pose proof (processContent_temps offset0 tm0 m t) as Hpc. fold m' in Hpc.
  pose proof (before_t1_temps offset0 m t) as Hb.
  set (s0 := before_t1 offset0 m t) in *.
  pose proof (step_t1_spec (values t) s0) as H1.
  pose proof (step_t2_spec (values t) (step_t1 (values t) s0)) as H2.
  unfold m603_temps in *.
  destruct (findKey Instantaneous ReturnTemperature 0 0 (values t)) as [k2|].
  - exists (offset (step_t1 (values t) s0)). cbv zeta in *.
    assert (Ht : t2_temperature_c_ (meter (step_t1 (values t) s0)) = t2_temperature_c_ m).
    { destruct (findKey Instantaneous FlowTemperature 0 0 (values t)).
      - cbv zeta in H1. congruence.
      - rewrite H1. congruence. }
    rewrite <- Ht. rewrite H2 in Hpc. split; congruence.
  - rewrite H2 in Hpc.
    destruct (findKey Instantaneous FlowTemperature 0 0 (values t)).
    + cbv zeta in H1. rewrite H1 in Hpc. split; congruence.
    + rewrite H1 in Hpc. split; congruence.
Qed.

End Multical603_facts.

(** C10.  A freshly constructed Multical603 holds 127 degrees C in both
    temperature members, which [t1Temperature] and [t2Temperature] report
    converted from Celsius (127 itself when asked for Celsius, a
    conversion between equal units being the identity), and
    [hasT1Temperature], [hasT2Temperature] are false.  Processing a telegram in which [findKey] finds no
    FlowTemperature (ReturnTemperature) record leaves the T1 (T2) value
    and flag as they were.  A flag that was false is true afterwards only
    if the record was found and [extractDVdouble] returned true for it,
    storing the value it extracted. *)
Theorem multical603_temperature_defaults
    {Values Expl Tm : Type} `{HH : Multical603.Helpers Values Expl Tm} :
  let fresh := Multical603.new_meter in
  (Multical603.t1_temperature_c_ fresh = 127%float
   /\ Multical603.t2_temperature_c_ fresh = 127%float
   /\ Multical603.hasT1Temperature fresh = false
   /\ Multical603.hasT2Temperature fresh = false
   /\ (forall u, Multical603.t1Temperature fresh u
                 = if Multical603.assertQuantity u Multical603.Temperature
                   then Some (Multical603.convert 127%float Multical603.C u) else None)
   /\ (forall u, Multical603.t2Temperature fresh u
                 = if Multical603.assertQuantity u Multical603.Temperature
                   then Some (Multical603.convert 127%float Multical603.C u) else None)
   /\ ((forall v, Multical603.convert v Multical603.C Multical603.C = v) ->
       Multical603.assertQuantity Multical603.C Multical603.Temperature = true ->
       Multical603.t1Temperature fresh Multical603.C = Some 127%float
       /\ Multical603.t2Temperature fresh Multical603.C = Some 127%float))
  /\ forall (offset0 : Z) (tm0 : Tm) (m : Multical603.MeterMultical603)
            (t : Multical603.Telegram Values Expl),
      let m' := fst (Multical603.processContent offset0 tm0 m t) in
      let vs := Multical603.values t in
      (Multical603.findKey Multical603.Instantaneous Multical603.FlowTemperature 0 0 vs = None ->
         Multical603.t1_temperature_c_ m' = Multical603.t1_temperature_c_ m
         /\ Multical603.hasT1Temperature m' = Multical603.hasT1Temperature m)
      /\ (Multical603.findKey Multical603.Instantaneous Multical603.ReturnTemperature 0 0 vs = None ->
         Multical603.t2_temperature_c_ m' = Multical603.t2_temperature_c_ m
         /\ Multical603.hasT2Temperature m' = Multical603.hasT2Temperature m)
      /\ (Multical603.hasT1Temperature m = false ->
          Multical603.hasT1Temperature m' = true ->
          exists key off off',
            Multical603.findKey Multical603.Instantaneous Multical603.FlowTemperature 0 0 vs = Some key
            /\ Multical603.extractDVdouble vs key off (Multical603.t1_temperature_c_ m)
               = (true, off', Multical603.t1_temperature_c_ m'))
      /\ (Multical603.hasT2Temperature m = false ->
          Multical603.hasT2Temperature m' = true ->
          exists key off off',
            Multical603.findKey Multical603.Instantaneous Multical603.ReturnTemperature 0 0 vs = Some key
            /\ Multical603.extractDVdouble vs key off (Multical603.t2_temperature_c_ m)
               = (true, off', Multical603.t2_temperature_c_ m')).
Proof.
  intros fresh. split.
  { do 6 (split; [reflexivity|]).
    intros Hconv Hassert.
    unfold Multical603.t1Temperature, Multical603.t2Temperature.
    rewrite Hassert. cbn. rewrite Hconv. split; reflexivity. }
  intros offset0 tm0 m t m' vs.
  pose proof (processContent_t1 offset0 tm0 m t) as H1.
  pose proof (processContent_t2 offset0 tm0 m t) as H2.
  cbv zeta in H1, H2. fold m' vs in H1, H2.
  unfold Multical603.hasT1Temperature, Multical603.hasT2Temperature.
  split; [|split; [|split]].
  - intros Hnone. rewrite Hnone in H1. exact H1.
  - intros Hnone. rewrite Hnone in H2. exact H2.
  - intros Hold Hnew.
    destruct (Multical603.findKey _ Multical603.FlowTemperature 0 0 vs) as [key|].
    + destruct H1 as (off & Hv & Hf).
      destruct (Multical603.extractDVdouble vs key off _) as [[ok off'] v] eqn:He.
      simpl in Hv, Hf. exists key, off, off'. split; [reflexivity|].
      rewrite He. congruence.
    + destruct H1 as [_ Hf]. congruence.
  - intros Hold Hnew.
    destruct (Multical603.findKey _ Multical603.ReturnTemperature 0 0 vs) as [key|].
    + destruct H2 as (off & Hv & Hf).
      destruct (Multical603.extractDVdouble vs key off _) as [[ok off'] v] eqn:He.
      simpl in Hv, Hf. exists key, off, off'. split; [reflexivity|].
      rewrite He. congruence.
    + destruct H2 as [_ Hf]. congruence.
Qed.

(** The theorem at the two telegrams of [DVRecords]: without temperature
    records a fresh meter keeps 127 and false, with them both flags are
    set by a successful extraction. *)
Lemma multical603_temperature_defaults_witness :
  let m0 := Multical603.new_meter in
  let m1 := fst (Multical603.processContent 0 EmptyString m0
                   DVRecords.telegram_without_temperatures) in
  let m2 := fst (Multical603.processContent 0 EmptyString m0
                   DVRecords.telegram_with_temperatures) in
  (Multical603.t1Temperature m0 Multical603.C = Some 127%float
   /\ Multical603.t2Temperature m0 Multical603.C = Some 127%float)
  /\ (Multical603.t1_temperature_c_ m1 = 127%float
      /\ Multical603.hasT1Temperature m1 = false)
  /\ (Multical603.t2_temperature_c_ m1 = 127%float
      /\ Multical603.hasT2Temperature m1 = false)
  /\ (exists key off off',
        Multical603.findKey Multical603.Instantaneous Multical603.FlowTemperature 0 0
          (Multical603.values DVRecords.telegram_with_temperatures) = Some key
        /\ Multical603.extractDVdouble
             (Multical603.values DVRecords.telegram_with_temperatures) key off 127%float
           = (true, off', Multical603.t1_temperature_c_ m2)).
Proof.
  intros m0 m1 m2.
  destruct (@multical603_temperature_defaults _ _ _ DVRecords.helpers)
    as [(_ & _ & _ & _ & _ & _ & Hcelsius) Hrun].
  split; [apply Hcelsius; reflexivity|].
  destruct (Hrun 0 EmptyString m0 DVRecords.telegram_without_temperatures)
    as (Ht1 & Ht2 & _ & _).
  destruct (Hrun 0 EmptyString m0 DVRecords.telegram_with_temperatures)
    as (_ & _ & Hh1 & _).
  split; [exact (Ht1 eq_refl)|].
  split; [exact (Ht2 eq_refl)|].
  apply Hh1; reflexivity.
Defined.

(** ** M-Bus raw tty: the read buffer *)

Section ProcessSerialData_facts.
Import MBusRawTTY.
Variable checkMBusFrame : list uchar -> FrameCheck.

(** The payload [processSerialData] builds for a full frame: the length
    byte re-inserted in front of [payload_len] bytes from
    [payload_offset], or nothing when [payload_len] is not positive. *)
Lemma full_frame_round (rounds : nat) (buf : list uchar) :
  let c := checkMBusFrame buf in
  status c = FullFrame ->
  (frame_length c <= length buf)%nat ->
  (0 < payload_len c ->
   0 <= payload_offset c
   /\ payload_offset c + payload_len c <= Z.of_nat (length buf)) ->
  eat_frames checkMBusFrame (S rounds) buf
  = (r ← eat_frames checkMBusFrame rounds (drop (frame_length c) buf);
     Returns
       {| read_buffer_ := read_buffer_ r;
          handled :=
            (if 0 <? payload_len c
             then to_uchar (payload_len c)
                  :: take (Z.to_nat (payload_len c))
                       (drop (Z.to_nat (payload_offset c)) buf)
             else []) :: handled r;
          verbose_log := verbose_log r |}).
Proof.
  intros c Hst Hlen Hpay. cbn [eat_frames]. fold c. rewrite Hst.
  unfold erase_front, vec_range.
  destruct (0 <? payload_len c) eqn:Hp.
  - apply Z.ltb_lt in Hp. destruct (Hpay Hp) as [Ho Hr].
    replace (0 <=? payload_offset c) with true by (symmetry; apply Z.leb_le; lia).
    replace (0 <=? payload_len c) with true by (symmetry; apply Z.leb_le; lia).
    replace (payload_offset c + payload_len c <=? Z.of_nat (length buf))
      with true by (symmetry; apply Z.leb_le; lia).
    replace (frame_length c <=? length buf)%nat
      with true by (symmetry; apply Nat.leb_le; lia).
    reflexivity.
  - replace (frame_length c <=? length buf)%nat
      with true by (symmetry; apply Nat.leb_le; lia).
    reflexivity.
Qed.

(** With a well-behaved recogniser the loop ends: every full frame eats
    at least one byte. *)
Lemma eat_frames_returns (rounds : nat) (buf : list uchar) :
  (forall b, well_behaved checkMBusFrame b) ->
  (length buf < rounds)%nat ->
  exists r, eat_frames checkMBusFrame rounds buf = Returns r.
Proof.
  intros Hwb. revert buf.
  induction rounds as [|rounds IH]; intros buf Hlt; [lia|].
  destruct (status (checkMBusFrame buf)) eqn:Hst.
  - cbn [eat_frames]. rewrite Hst. eauto.
  - destruct (Hwb buf Hst) as [[Hpos Hle] Hpay].
    rewrite (full_frame_round rounds buf Hst Hle Hpay).
    destruct (IH (drop (frame_length (checkMBusFrame buf)) buf)) as [r Hr].
    { rewrite length_drop. lia. }
    rewrite Hr. cbn. eauto.
  - cbn [eat_frames]. rewrite Hst. eauto.
Qed.

(** C2.  Whatever the read buffer holds and whatever bytes arrive,
    [processSerialData] acts on the status of the accumulated buffer: a
    partial frame leaves the buffer as accumulated and hands nothing over;
    an error clears the whole buffer, with the protocol-error message; for
    a full frame (lying inside the buffer) exactly [frame_length] bytes
    leave the front, its payload is the first one handed to
    [handleTelegram], and the loop goes on with the bytes behind the frame,
    which stay in the buffer when they are the beginning of a next
    frame.  With a recogniser whose full frames are not empty and lie in
    the buffer, [processSerialData] returns. *)
Theorem processSerialData_by_status
    (rounds : nat) (data buf : list uchar) :
  let all := buf ++ data in
  let c := checkMBusFrame all in
  let payload :=
    if 0 <? payload_len c
    then to_uchar (payload_len c)
         :: take (Z.to_nat (payload_len c)) (drop (Z.to_nat (payload_offset c)) all)
    else [] in
  let rest := drop (frame_length c) all in
  (status c = PartialFrame ->
   processSerialData checkMBusFrame (S rounds) data buf
   = Returns {| read_buffer_ := all; handled := []; verbose_log := [] |})
  /\ (status c = ErrorInFrame ->
      processSerialData checkMBusFrame (S rounds) data buf
      = Returns {| read_buffer_ := [];
                   handled := [];
                   verbose_log :=
                     ["(mbus) protocol error in message received!"%string] |})
  /\ (status c = FullFrame ->
      (frame_length c <= length all)%nat ->
      (0 < payload_len c ->
       0 <= payload_offset c
       /\ payload_offset c + payload_len c <= Z.of_nat (length all)) ->
      (length rest = length all - frame_length c)%nat
      /\ all = take (frame_length c) all ++ rest
      /\ processSerialData checkMBusFrame (S rounds) data buf
         = (r ← eat_frames checkMBusFrame rounds rest;
            Returns {| read_buffer_ := read_buffer_ r;
                       handled := payload :: handled r;
                       verbose_log := verbose_log r |})
      /\ (status (checkMBusFrame rest) = PartialFrame ->
          processSerialData checkMBusFrame (S (S rounds)) data buf
          = Returns {| read_buffer_ := rest;
                       handled := [payload];
                       verbose_log := [] |}))
  /\ ((forall b, well_behaved checkMBusFrame b) ->
      exists r,
        processSerialData checkMBusFrame (S (length all)) data buf = Returns r).
Proof.
  intros all c payload rest. unfold processSerialData. fold all.
  split; [|split; [|split]];
    [| | |intros Hwb; apply eat_frames_returns; [exact Hwb|lia]].
  - intros Hst. cbn [eat_frames]. fold c. rewrite Hst. reflexivity.
  - intros Hst. cbn [eat_frames]. fold c. rewrite Hst. reflexivity.
  - intros Hst Hlen Hpay.
    split; [apply length_drop|].
    split; [symmetry; apply take_drop|].
    split.
    + apply (full_frame_round rounds all Hst Hlen Hpay).
    + intros Hnext.
      rewrite (full_frame_round (S rounds) all Hst Hlen Hpay).
      fold c rest payload. cbn [eat_frames]. rewrite Hnext. reflexivity.
Qed.

End ProcessSerialData_facts.

(** The recogniser modelled from the spec is well behaved. *)
Lemma spec_checkMBusFrame_well_behaved (buf : list uchar) :
  MBusRawTTY.well_behaved MBusRawTTY.spec_checkMBusFrame buf.
Proof.
  unfold MBusRawTTY.well_behaved, MBusRawTTY.spec_checkMBusFrame.
  destruct buf as [|b0 buf]; [discriminate|].
  destruct (b0 =? 0xE5); [cbn; intros _; split; [lia|lia]|].
  destruct (b0 =? 0x10).
  { destruct buf as [|c [|a [|cs [|e rest]]]]; try discriminate.
    destruct ((cs =? to_uchar (c + a)) && (e =? 0x16)); [|discriminate].
    cbn. intros _. split; lia. }
  destruct (b0 =? 0x68); [|discriminate].
  destruct buf as [|l1 [|l2 [|b3 rest]]]; try discriminate.
  destruct (negb (l1 =? l2) || negb (b3 =? 0x68) || (l1 <? 3)) eqn:Hhdr;
    [discriminate|].
  destruct (length rest <? Z.to_nat l1 + 2)%nat eqn:Hshort; [discriminate|].
  destruct (drop (Z.to_nat l1) rest) as [|cs [|e tl]]; try discriminate.
  destruct ((cs =? to_uchar (MBusRawTTY.sum_bytes (take (Z.to_nat l1) rest)))
            && (e =? 0x16)); [|discriminate].
  apply Nat.ltb_ge in Hshort.
  apply orb_false_iff in Hhdr. destruct Hhdr as [_ Hl1].
  apply Z.ltb_ge in Hl1.
  cbn. intros _. split; lia.
Qed.

(** The three cases on buffers of the recogniser modelled from the spec:
    the beginning of a long frame stays, a stray byte empties the buffer,
    and a completed long frame is handed over while the two bytes of the
    next one stay. *)
Lemma processSerialData_by_status_witness :
  MBusRawTTY.processSerialData MBusRawTTY.spec_checkMBusFrame 1
    [3] [0x68; 3; 3; 0x68; 1; 2]
  = Returns (MBusRawTTY.mkProcessed [0x68; 3; 3; 0x68; 1; 2; 3] [] [])
  /\ MBusRawTTY.processSerialData MBusRawTTY.spec_checkMBusFrame 1
       [0x11] [0x01; 0x02]
     = Returns (MBusRawTTY.mkProcessed [] []
                  ["(mbus) protocol error in message received!"%string])
  /\ MBusRawTTY.processSerialData MBusRawTTY.spec_checkMBusFrame 2
       [3; 6; 0x16; 0x68; 3] [0x68; 3; 3; 0x68; 1; 2]
     = Returns (MBusRawTTY.mkProcessed [0x68; 3] [[3; 1; 2; 3]] [])
  /\ exists r,
       MBusRawTTY.processSerialData MBusRawTTY.spec_checkMBusFrame 12
         [3; 6; 0x16; 0x68; 3] [0x68; 3; 3; 0x68; 1; 2]
       = Returns r.
Proof.
  split; [|split; [|split]].
  - apply (processSerialData_by_status MBusRawTTY.spec_checkMBusFrame 0
             [3] [0x68; 3; 3; 0x68; 1; 2]).
    reflexivity.
  - apply (processSerialData_by_status MBusRawTTY.spec_checkMBusFrame 0
             [0x11] [0x01; 0x02]).
    reflexivity.
  - apply (processSerialData_by_status MBusRawTTY.spec_checkMBusFrame 0
             [3; 6; 0x16; 0x68; 3] [0x68; 3; 3; 0x68; 1; 2]).
    + reflexivity.
    + simpl. lia.
    + intros _. simpl. lia.
    + reflexivity.
  - apply (processSerialData_by_status MBusRawTTY.spec_checkMBusFrame 0
             [3; 6; 0x16; 0x68; 3] [0x68; 3; 3; 0x68; 1; 2]).
    apply spec_checkMBusFrame_well_behaved.
Defined.

(** ** Sending *)

Section Send_facts.
Import Serial MBusRawTTY.
Context {Callback : Type}.

(** The loop of [send] keeps [wire] equal to the first [written] bytes. *)
Lemma send_loop_wire (data : list uchar) (answers : list WriteResult) :
  forall (written : nat) (wire : list uchar) (ok : bool) (w : list uchar),
    wire = take written data ->
    (written <= length data)%nat ->
    send_loop answers data written wire = Returns (ok, w) ->
    exists n, (n <= length data)%nat /\ w = take n data
              /\ (ok = true -> n = length data).
Proof.
  induction answers as [|a answers IH]; intros written wire ok w Hw Hle Hrun;
    [discriminate|].
  destruct a as [k| |]; cbn [send_loop] in Hrun.
  - set (nw := Nat.min k (length data - written)) in *.
    assert (Hwire : wire ++ take nw (drop written data) = take (written + nw) data).
    { subst wire. apply take_take_drop. }
    destruct (written + nw =? length data)%nat eqn:Hdone.
    + apply Nat.eqb_eq in Hdone. injection Hrun as <- <-.
      exists (written + nw)%nat. rewrite Hwire. split; [lia|]. split; [reflexivity|].
      intros _. exact Hdone.
    + apply (IH (written + nw)%nat _ ok w Hwire); [lia|exact Hrun].
  - apply (IH written wire ok w Hw Hle Hrun).
  - injection Hrun as <- <-. exists written. split; [exact Hle|].
    split; [exact Hw|discriminate].
Qed.

(** Without a hard error, and with answers that take all the bytes, the
    loop ends and everything is out. *)
Lemma send_loop_total (data : list uchar) (answers : list WriteResult) :
  forall (written : nat) (wire : list uchar),
    wire = take written data ->
    (written < length data)%nat ->
    Forall (fun a => a <> WriteError) answers ->
    (length data - written <= accepted answers)%nat ->
    send_loop answers data written wire = Returns (true, data).
Proof.
  induction answers as [|a answers IH]; intros written wire Hw Hlt Hok Hacc.
  - simpl in Hacc. lia.
  - apply Forall_cons in Hok as [Ha Hok].
    destruct a as [k| |]; cbn [send_loop accepted] in *.
    + set (nw := Nat.min k (length data - written)) in *.
      assert (Hwire : wire ++ take nw (drop written data) = take (written + nw) data).
      { subst wire. apply take_take_drop. }
      destruct (written + nw =? length data)%nat eqn:Hdone.
      * apply Nat.eqb_eq in Hdone. rewrite Hwire, Hdone, firstn_all.
        reflexivity.
      * apply Nat.eqb_neq in Hdone.
        apply IH; [exact Hwire|lia|exact Hok|lia].
    + apply IH; assumption.
    + congruence.
Qed.

(** The checksum loop appends the content and adds it up modulo 256. *)
Lemma copy_and_sum_spec (content : list uchar) :
  forall (msg : list uchar) (crc : uchar),
    crc = crc mod 256 ->
    copy_and_sum content msg crc
    = (msg ++ content, (crc + sum_bytes content) mod 256).
Proof.
  induction content as [|c content IH]; intros msg crc Hcrc; cbn [copy_and_sum sum_bytes fold_right].
  - rewrite app_nil_r, Z.add_0_r, <- Hcrc. reflexivity.
  - rewrite IH.
    + rewrite <- app_assoc. cbn [app]. f_equal.
      unfold to_uchar. fold (sum_bytes content).
      rewrite Zplus_mod_idemp_l. f_equal. lia.
    + unfold to_uchar. rewrite Z.mod_mod by lia. reflexivity.
Qed.

(** The message [sendTelegram] builds for a long frame. *)
Lemma sendTelegram_long_message (answers : list WriteResult)
    (serial : SerialDeviceImp Callback) (content : list uchar) :
  readonly serial = false ->
  (length content <= 250)%nat ->
  sendTelegram answers serial LONG_FRAME content
  = send answers serial
      ([0x68; Z.of_nat (length content); Z.of_nat (length content); 0x68]
       ++ content ++ [sum_bytes content mod 256; 0x16]).
Proof.
  intros Hrw Hlen. unfold sendTelegram. rewrite Hrw.
  replace (250 <? length content)%nat with false
    by (symmetry; apply Nat.ltb_ge; lia).
  rewrite copy_and_sum_spec by reflexivity.
  unfold to_uchar. rewrite (Z.mod_small (Z.of_nat (length content))) by lia.
  rewrite Z.add_0_l. rewrite <- !app_assoc. cbn [app].
  destruct (send answers serial _) as [[[|] wire]| |]; reflexivity.
Qed.

End Send_facts.

(** C5, as amended.  On a serial device that is not read-only: for a
    content of at most 250 bytes sent as a long frame, [sendTelegram] hands
    exactly the bytes [0x68 L L 0x68 content CS 0x16] to the device's
    [send], with both [L] the size of the content and [CS] the sum of the
    content bytes modulo 256, and returns what [send] returns, so that on a
    tty a true result means exactly these bytes went out; for a content of
    more than 250 bytes it returns false and nothing goes out. *)
Theorem sendTelegram_long_frame_writable {Callback : Type}
    (answers : list Serial.WriteResult)
    (serial : Serial.SerialDeviceImp Callback) (content : list uchar) :
  Serial.readonly serial = false ->
  let L := Z.of_nat (length content) in
  let CS := MBusRawTTY.sum_bytes content mod 256 in
  let frame := [0x68; L; L; 0x68] ++ content ++ [CS; 0x16] in
  ((length content <= 250)%nat ->
   MBusRawTTY.sendTelegram answers serial MBusRawTTY.LONG_FRAME content
   = Serial.send answers serial frame
   /\ (Serial.kind serial = Serial.KTTY ->
       forall wire,
         MBusRawTTY.sendTelegram answers serial MBusRawTTY.LONG_FRAME content
         = Returns (true, wire) ->
         wire = frame))
  /\ ((250 < length content)%nat ->
      MBusRawTTY.sendTelegram answers serial MBusRawTTY.LONG_FRAME content
      = Returns (false, [])).
Proof.
  intros Hrw L CS frame. split.
  - intros Hlen.
    pose proof (sendTelegram_long_message answers serial content Hrw Hlen) as Hmsg.
    fold L CS frame in Hmsg. split; [exact Hmsg|].
    intros Htty wire Hsent. rewrite Hmsg in Hsent.
    unfold Serial.send in Hsent. rewrite Htty in Hsent.
    change (Serial.send_loop answers frame 0 [] = Returns (true, wire)) in Hsent.
    destruct (send_loop_wire frame answers 0 [] true wire eq_refl
                ltac:(lia) Hsent) as (n & _ & Hw & Hall).
    rewrite Hw, (Hall eq_refl). apply firstn_all.
  - intros Hlen. unfold MBusRawTTY.sendTelegram. rewrite Hrw.
    replace (250 <? length content)%nat with true
      by (symmetry; apply Nat.ltb_lt; lia).
    reflexivity.
Qed.

(** A tty opened on descriptor 5 whose [write] takes the frame in two
    pieces, with an interruption in between. *)
Lemma sendTelegram_long_frame_writable_witness :
  let tty := Serial.set_fd 5 (Serial.new_device (Callback := nat) Serial.KTTY "/dev/ttyUSB0") in
  MBusRawTTY.sendTelegram
    [Serial.Wrote 4; Serial.WriteEINTR; Serial.Wrote 100]
    tty MBusRawTTY.LONG_FRAME [0x53; 0xFE; 0xFF]
  = Returns (true, [0x68; 3; 3; 0x68; 0x53; 0xFE; 0xFF; 0x50; 0x16])
  /\ MBusRawTTY.sendTelegram [] tty MBusRawTTY.LONG_FRAME (repeat 0 251)
     = Returns (false, []).
Proof.
  intros tty.
  destruct (sendTelegram_long_frame_writable
              [Serial.Wrote 4; Serial.WriteEINTR; Serial.Wrote 100]
              tty [0x53; 0xFE; 0xFF] eq_refl) as [Hshort _].
  destruct (sendTelegram_long_frame_writable [] tty (repeat 0 251) eq_refl)
    as [_ Hlong].
  split.
  - destruct Hshort as [Hmsg _]; [simpl; lia|]. rewrite Hmsg. reflexivity.
  - apply Hlong. rewrite repeat_length. lia.
Defined.

(** C5 as stated fails on a read-only device: a file source is sent a
    content of 251 bytes and [sendTelegram] returns true, not false; it is
    sent a content of one byte and nothing goes out. *)
Lemma sendTelegram_read_only_counterexample :
  let file :=
    Serial.set_is_file
      (Serial.set_fd 3 (Serial.new_device (Callback := nat) Serial.KFile "telegrams.bin")) in
  (250 < length (repeat 0 251))%nat
  /\ MBusRawTTY.sendTelegram [] file MBusRawTTY.LONG_FRAME (repeat 0 251)
     = Returns (true, [])
  /\ MBusRawTTY.sendTelegram [] file MBusRawTTY.LONG_FRAME (repeat 0 251)
     <> Returns (false, [])
  /\ MBusRawTTY.sendTelegram [Serial.Wrote 100] file MBusRawTTY.LONG_FRAME [0x53]
     <> Returns (true, [0x68; 1; 1; 0x68; 0x53; 0x53; 0x16]).
Proof.
  intros file. split; [rewrite repeat_length; lia|].
  split; [reflexivity|]. split; discriminate.
Qed.

(** C6.  The read-only kinds of source (a file, which includes the
    [stdin] pseudo-path, and the simulator) answer [send] with true and
    put nothing on the wire; [sendTelegram] returns true at once, without
    sending, when its serial device is read-only; and on a tty [send]
    retries a [write] interrupted by [EINTR], yields true only when all
    bytes are out, and does so whenever no [write] fails otherwise and the
    answers take all the bytes. *)
Theorem read_only_sources_send {Callback : Type} :
  (forall (answers : list Serial.WriteResult)
          (d : Serial.SerialDeviceImp Callback) (data : list uchar),
      Serial.kind d = Serial.KFile \/ Serial.kind d = Serial.KSimulator ->
      Serial.send answers d data = Returns (true, []))
  /\ (forall (answers : list Serial.WriteResult)
             (d : Serial.SerialDeviceImp Callback)
             (starts_with : MBusRawTTY.ContentStartsWith) (content : list uchar),
         Serial.readonly d = true ->
         MBusRawTTY.sendTelegram answers d starts_with content = Returns (true, []))
  /\ (forall (d : Serial.SerialDeviceImp Callback) (data : list uchar),
         Serial.kind d = Serial.KTTY -> data <> [] ->
         (forall answers,
             Serial.send (Serial.WriteEINTR :: answers) d data
             = Serial.send answers d data)
         /\ (forall answers wire,
                Serial.send answers d data = Returns (true, wire) -> wire = data)
         /\ (forall answers,
                Forall (fun a => a <> Serial.WriteError) answers ->
                (length data <= Serial.accepted answers)%nat ->
                Serial.send answers d data = Returns (true, data))).
Proof.
  split; [|split].
  - intros answers d data [Hk|Hk]; unfold Serial.send; rewrite Hk; reflexivity.
  - intros answers d sw content Hro. unfold MBusRawTTY.sendTelegram.
    rewrite Hro. reflexivity.
  - intros d data Hk Hne. unfold Serial.send. rewrite Hk.
    destruct data as [|b data]; [congruence|].
    split; [|split].
    + intros answers. reflexivity.
    + intros answers wire Hrun.
      destruct (send_loop_wire (b :: data) answers 0 [] true wire eq_refl
                  ltac:(lia) Hrun) as (n & _ & Hw & Hall).
      rewrite Hw, (Hall eq_refl). apply firstn_all.
    + intros answers Hok Hacc.
      apply send_loop_total; [reflexivity|simpl; lia|exact Hok|lia].
Qed.

(** A file, the [stdin] pseudo-path and the simulator; [sendTelegram] on
    the file once opened; and a tty whose first [write] is interrupted and
    whose next two take two bytes and the rest. *)
Lemma read_only_sources_send_witness :
  let file := Serial.new_device (Callback := nat) Serial.KFile "telegrams.bin" in
  let stdin := Serial.set_is_stdin (Serial.set_fd 0 (Serial.new_device (Callback := nat) Serial.KFile "stdin")) in
  let sim := Serial.new_device (Callback := nat) Serial.KSimulator "" in
  let tty := Serial.set_fd 5 (Serial.new_device (Callback := nat) Serial.KTTY "/dev/ttyUSB0") in
  Serial.send [Serial.Wrote 3] file [1; 2; 3] = Returns (true, [])
  /\ Serial.send [Serial.Wrote 3] stdin [1; 2; 3] = Returns (true, [])
  /\ Serial.send [Serial.Wrote 3] sim [1; 2; 3] = Returns (true, [])
  /\ MBusRawTTY.sendTelegram [Serial.Wrote 9] stdin MBusRawTTY.LONG_FRAME [1; 2; 3]
     = Returns (true, [])
  /\ Serial.send [Serial.WriteEINTR; Serial.Wrote 2; Serial.Wrote 7] tty [1; 2; 3]
     = Returns (true, [1; 2; 3]).
Proof.
  intros file stdin sim tty.
  destruct (@read_only_sources_send nat) as (Hsend & Htele & Htty).
  split; [apply Hsend; left; reflexivity|].
  split; [apply Hsend; left; reflexivity|].
  split; [apply Hsend; right; reflexivity|].
  split; [apply Htele; reflexivity|].
  destruct (Htty tty [1; 2; 3] eq_refl ltac:(discriminate)) as (_ & _ & Hall).
  apply Hall.
  - repeat constructor; discriminate.
  - simpl. lia.
Defined.

(** A command is outside the kinds C6 lists: once opened it reports
    [readonly()] as well (its [open] calls [setIsStdin]), yet its [send]
    is the writing loop, which fails when the [write] does. *)
Lemma command_readonly_yet_writes :
  let cmd := Serial.Examples.command_watched in
  Serial.readonly cmd = true
  /\ Serial.send [Serial.WriteError] cmd [1; 2; 3] = Returns (false, [])
  /\ Serial.send [Serial.Wrote 3] cmd [1; 2; 3] = Returns (true, [1; 2; 3]).
Proof. intros cmd. repeat split. Qed.

(** ** Timers *)

Section Timer_facts.
Import Serial.
Context {Callback : Type}.

(** What the marking loop computes, for any [to_be_called] it starts
    from. *)
Lemma mark_timers_spec (curr : Z) (timers : list (Timer Callback)) :
  forall acc,
    mark_timers curr timers acc
    = (List.map (fun t => if isTime t curr then set_last_call curr t else t) timers,
       acc ++ List.map (set_last_call curr)
                (List.filter (fun t => isTime t curr) timers)).
Proof.
  induction timers as [|t timers IH]; intros acc; cbn [mark_timers List.map List.filter].
  - rewrite app_nil_r. reflexivity.
  - destruct (isTime t curr) eqn:Ht.
    + rewrite IH. cbn [List.map]. rewrite <- app_assoc. reflexivity.
    + rewrite IH. reflexivity.
Qed.

Lemma callback_set_last_call (curr : Z) (l : list (Timer Callback)) :
  List.map callback (List.map (set_last_call curr) l) = List.map callback l.
Proof. rewrite List.map_map. reflexivity. Qed.

End Timer_facts.

(** C4.  A run of [executeTimerCallbacks] at time [curr] runs the
    callbacks of exactly the timers with [last_call + seconds <= curr],
    each once and in the order of the timer list; these timers get
    [last_call = curr]; every other timer is not run and keeps its
    [last_call]; nothing else in the manager changes.  A round of the
    timer loop that slept its second and is not past [exit_after_seconds_]
    is such a run. *)
Theorem executeTimerCallbacks_fires_due {Callback : Type}
    (curr : Z) (m : Serial.Manager Callback) :
  let due := fun t : Serial.Timer Callback =>
               Serial.last_call t + Serial.seconds t <=? curr in
  let m' := fst (Serial.executeTimerCallbacks curr m) in
  let called := snd (Serial.executeTimerCallbacks curr m) in
  called = List.map Serial.callback (List.filter due (Serial.timers_ m))
  /\ length (Serial.timers_ m') = length (Serial.timers_ m)
  /\ (forall (i : nat) (t : Serial.Timer Callback),
         Serial.timers_ m !! i = Some t ->
         (Serial.isTime t curr = true <-> Serial.last_call t + Serial.seconds t <= curr)
         /\ (Serial.last_call t + Serial.seconds t <= curr ->
             exists t', Serial.timers_ m' !! i = Some t'
                        /\ Serial.last_call t' = curr
                        /\ Serial.id t' = Serial.id t
                        /\ Serial.seconds t' = Serial.seconds t
                        /\ Serial.callback t' = Serial.callback t
                        /\ Serial.name t' = Serial.name t)
         /\ (curr < Serial.last_call t + Serial.seconds t ->
             Serial.timers_ m' !! i = Some t))
  /\ Serial.running_ m' = Serial.running_ m
  /\ Serial.serial_devices_ m' = Serial.serial_devices_ m
  /\ (forall now : Z,
         (0 <? Serial.exit_after_seconds_ m)
         && (Serial.exit_after_seconds_ m <? now - Serial.start_time_ m) = false ->
         Serial.timerLoop_round false now curr m = (m', called, true)).
Proof.
  intros due m' called.
  assert (Hround : forall now : Z,
    (0 <? Serial.exit_after_seconds_ m)
    && (Serial.exit_after_seconds_ m <? now - Serial.start_time_ m) = false ->
    Serial.timerLoop_round false now curr m = (m', called, true)).
  { intros now Hexit. unfold Serial.timerLoop_round. rewrite Hexit.
    subst m' called. destruct (Serial.executeTimerCallbacks curr m). reflexivity. }
  subst m' called. unfold Serial.executeTimerCallbacks in *.
  rewrite mark_timers_spec in *. cbn [fst snd app Serial.timers_ Serial.set_timers
    Serial.running_ Serial.serial_devices_] in *.
  rewrite callback_set_last_call in *.
  split; [reflexivity|].
  split; [apply List.length_map|].
  split; [|split; [reflexivity|split; [reflexivity|exact Hround]]].
  intros i t Hi.
  assert (Hdue : Serial.isTime t curr = true
                 <-> Serial.last_call t + Serial.seconds t <= curr).
  { unfold Serial.isTime. apply Z.leb_le. }
  split; [exact Hdue|].
  pose proof (list_lookup_fmap
                (fun t => if Serial.isTime t curr
                          then Serial.set_last_call curr t else t)
                (Serial.timers_ m) i) as Hmap.
  rewrite Hi in Hmap. cbn in Hmap.
  change (@fmap list _ _ _ ?f ?l) with (List.map f l) in Hmap.
  split.
  - intros Hle. apply Hdue in Hle. rewrite Hle in Hmap.
    exists (Serial.set_last_call curr t). split; [exact Hmap|].
    repeat split; reflexivity.
  - intros Hlt.
    assert (Hn : Serial.isTime t curr = false).
    { unfold Serial.isTime. apply Z.leb_gt. lia. }
    rewrite Hn in Hmap. exact Hmap.
Qed.

(** Two timers at time 100: the first, last called at 40 with a period of
    60 seconds, is due; the second, last called at 41, is not. *)
Lemma executeTimerCallbacks_fires_due_witness :
  let t1 := Serial.mkTimer nat 0 60 40 7%nat "poll" in
  let t2 := Serial.mkTimer nat 1 60 41 8%nat "probe" in
  let m := Serial.set_timers [t1; t2] (Serial.new_manager nat 0 0) in
  snd (Serial.executeTimerCallbacks 100 m) = [7%nat]
  /\ (exists t', Serial.timers_ (fst (Serial.executeTimerCallbacks 100 m)) !! 0%nat = Some t'
                 /\ Serial.last_call t' = 100)
  /\ Serial.timers_ (fst (Serial.executeTimerCallbacks 100 m)) !! 1%nat = Some t2
  /\ Serial.timerLoop_round false 100 100 m
     = (fst (Serial.executeTimerCallbacks 100 m), [7%nat], true).
Proof.
  intros t1 t2 m.
  destruct (executeTimerCallbacks_fires_due 100 m)
    as (Hcalled & _ & Hper & _ & _ & Hround).
  split; [exact Hcalled|].
  destruct (Hper 0%nat t1 eq_refl) as (_ & Hdue & _).
  destruct (Hper 1%nat t2 eq_refl) as (_ & _ & Hnot).
  split; [|split].
  - destruct Hdue as (t' & Ht' & Hlast & _); [simpl; lia|].
    exists t'. split; assumption.
  - apply Hnot. simpl. lia.
  - rewrite (Hround 100 eq_refl), Hcalled. reflexivity.
Defined.

(** ** The event loop *)

Section EventLoop_facts.
Import Serial.
Context {Callback : Type}.
Variable on_data_effect :
  Callback -> SerialDeviceImp Callback -> SerialDeviceImp Callback.

(** The flag computed by the first loop. *)
Lemma scan_devices_all_working (os : OS) (l : list (SerialDeviceImp Callback)) :
  forall readfds aw,
    snd (scan_devices os l readfds aw)
    = aw && forallb (fun sd => negb (not_working os sd)) l.
Proof.
  induction l as [|sd l IH]; intros readfds aw; cbn [scan_devices forallb].
  - rewrite andb_true_r. reflexivity.
  - rewrite IH. unfold not_working.
    destruct (opened sd && negb (working os sd)), aw; reflexivity.
Qed.

(** The descriptor set computed by the first loop. *)
Lemma scan_devices_readfds (os : OS) (l : list (SerialDeviceImp Callback)) :
  forall (readfds : gset Z) aw (x : Z),
    x ∈ fst (scan_devices os l readfds aw)
    <-> x ∈ readfds
        \/ exists i sd, l !! i = Some sd /\ listened_to os sd = true /\ fd sd = x.
Proof.
  induction l as [|sd l IH]; intros readfds aw x; cbn [scan_devices].
  - split; [tauto|]. intros [H|(i & sd & Hi & _)]; [exact H|].
    rewrite lookup_nil in Hi. discriminate.
  - rewrite IH. unfold listened_to.
    destruct (opened sd && working os sd && negb (skippingCallbacks sd)) eqn:Ha;
      [destruct (negb (resetting sd) && (0 <=? fd sd)) eqn:Hb|].
    + rewrite elem_of_union, elem_of_singleton. split.
      * intros [[Hx|Hx]|(i & sd' & Hi & Hl & Hf)].
        -- right. exists 0%nat, sd. cbn. rewrite Ha, Hb. auto.
        -- left. exact Hx.
        -- right. exists (S i), sd'. auto.
      * intros [Hx|(i & sd' & Hi & Hl & Hf)]; [tauto|].
        destruct i as [|i]; cbn in Hi.
        -- injection Hi as <-. left. left. congruence.
        -- right. exists i, sd'. auto.
    + split.
      * intros [Hx|(i & sd' & Hi & Hl & Hf)]; [tauto|].
        right. exists (S i), sd'. auto.
      * intros [Hx|(i & sd' & Hi & Hl & Hf)]; [tauto|].
        destruct i as [|i]; cbn in Hi.
        -- injection Hi as <-. rewrite Ha, Hb in Hl. discriminate.
        -- right. exists i, sd'. auto.
    + split.
      * intros [Hx|(i & sd' & Hi & Hl & Hf)]; [tauto|].
        right. exists (S i), sd'. auto.
      * intros [Hx|(i & sd' & Hi & Hl & Hf)]; [tauto|].
        destruct i as [|i]; cbn in Hi.
        -- injection Hi as <-. rewrite Ha in Hl. discriminate.
        -- right. exists i, sd'. auto.
Qed.

(** A position picked by one of the filling loops holds a source that
    passes the test. *)
Lemma select_indices_elem (test : SerialDeviceImp Callback -> bool)
    (l : list (SerialDeviceImp Callback)) :
  forall (k i : nat),
    i ∈ select_indices test l k ->
    exists sd, (k <= i)%nat /\ l !! (i - k)%nat = Some sd /\ test sd = true.
Proof.
  induction l as [|sd l IH]; intros k i Hi; cbn [select_indices] in Hi.
  - apply elem_of_nil in Hi. contradiction.
  - destruct (test sd) eqn:Ht.
    + apply elem_of_cons in Hi as [->|Hi].
      * exists sd. rewrite Nat.sub_diag. auto.
      * destruct (IH (S k) i Hi) as (sd' & Hle & Hl & Htest).
        exists sd'. split; [lia|]. split; [|exact Htest].
        replace (i - k)%nat with (S (i - S k)) by lia. exact Hl.
    + destruct (IH (S k) i Hi) as (sd' & Hle & Hl & Htest).
      exists sd'. split; [lia|]. split; [|exact Htest].
      replace (i - k)%nat with (S (i - S k)) by lia. exact Hl.
Qed.

(** The delivery loop runs callbacks of sources of [to_be_notified]
    only, and leaves the length of the list alone. *)
Lemma deliver_events (to_be_notified : list nat) :
  forall (devs : list (SerialDeviceImp Callback)) (i : nat) (cb : Callback),
    OnData i cb ∈ snd (deliver on_data_effect to_be_notified devs) ->
    i ∈ to_be_notified.
Proof.
  induction to_be_notified as [|j rest IH]; intros devs i cb Hin;
    cbn [deliver] in Hin.
  - apply elem_of_nil in Hin. contradiction.
  - destruct (devs !! j) as [sd|]; [destruct (on_data_ sd) as [cb'|]|].
    + destruct (deliver on_data_effect rest _) as [devs' ev] eqn:Hd.
      cbn [snd] in Hin. apply elem_of_cons in Hin as [Heq|Hin].
      * injection Heq as -> _. apply elem_of_cons. auto.
      * apply elem_of_cons. right.
        apply (IH (<[j := on_data_effect cb' sd]> devs) i cb).
        rewrite Hd. exact Hin.
    + apply elem_of_cons. right. apply (IH devs i cb Hin).
    + apply elem_of_cons. right. apply (IH devs i cb Hin).
Qed.

(** The sweep records closings only. *)
Lemma close_all_events (os : OS) (non_working : list nat) :
  forall (devs : list (SerialDeviceImp Callback)) (i : nat) (cb : Callback),
    OnData i cb ∉ snd (close_all os non_working devs).
Proof.
  induction non_working as [|j rest IH]; intros devs i cb Hin;
    cbn [close_all] in Hin.
  - apply elem_of_nil in Hin. contradiction.
  - destruct (devs !! j) as [sd|].
    + destruct (close os sd) as [sd' ev].
      destruct (close_all os rest _) as [devs' evs] eqn:Hc.
      cbn [snd] in Hin. apply elem_of_cons in Hin as [Heq|Hin]; [discriminate|].
      apply (IH (<[j := sd']> devs) i cb). rewrite Hc. exact Hin.
    + apply (IH devs i cb Hin).
Qed.

(** The callbacks a round runs are those of sources found triggered. *)
Lemma eventLoop_round_on_data (os : OS) (sel : SelectAnswer)
    (m : Manager Callback) (i : nat) (cb : Callback) :
  OnData i cb ∈ snd (fst (eventLoop_round on_data_effect os sel m)) ->
  i ∈ select_indices
        (triggered os (fst (scan_devices os (serial_devices_ m) ∅ true)
                       ∩ readable sel))
        (serial_devices_ m) 0.
Proof.
  unfold eventLoop_round.
  destruct (scan_devices os (serial_devices_ m) ∅ true) as [readfds aw].
  cbn [fst].
  destruct (negb aw && expect_devices_to_work_ m);
    [intros H; apply elem_of_nil in H; contradiction|].
  destruct (negb (running_ m));
    [intros H; apply elem_of_nil in H; contradiction|].
  destruct (0 <? activity sel).
  - destruct (deliver on_data_effect _ (serial_devices_ m)) as [devs ev1] eqn:Hd.
    destruct (close_all os _ devs) as [devs' ev2] eqn:Hc.
    match goal with
    | |- context [if ?b then _ else _] => destruct b
    end; cbn [fst snd]; intros Hin;
      apply elem_of_app in Hin as [Hin|Hin].
    all: try (eapply deliver_events; rewrite Hd; exact Hin).
    all: exfalso; eapply close_all_events; rewrite Hc; exact Hin.
  - destruct (close_all os _ (serial_devices_ m)) as [devs' ev2] eqn:Hc.
    match goal with
    | |- context [if ?b then _ else _] => destruct b
    end; cbn [fst snd app]; intros Hin.
    all: exfalso; eapply close_all_events; rewrite Hc; exact Hin.
Qed.

(** A manager that is not running leaves the loop at once. *)
Lemma eventLoop_not_running (rounds : list (OS * SelectAnswer))
    (m : Manager Callback) :
  running_ m = false ->
  eventLoop on_data_effect rounds m = Returns (m, []).
Proof.
  intros Hstop. destruct rounds; cbn [eventLoop]; rewrite Hstop; reflexivity.
Qed.

(** The condition of the specification, in its order, is the condition
    of the first loop. *)
Lemma listened_to_condition (os : OS) (sd : SerialDeviceImp Callback) :
  listened_to os sd
  = opened sd && working os sd && negb (resetting sd) && (0 <=? fd sd)
    && negb (skippingCallbacks sd).
Proof.
  unfold listened_to.
  destruct (opened sd), (working os sd), (resetting sd), (0 <=? fd sd),
    (skippingCallbacks sd); reflexivity.
Qed.

End EventLoop_facts.


(** C3.  With [expect_devices_to_work_] latched, a round of the event loop
    entered while every source in the list is opened and not working
    (also when no source is left) ends the loop with [running_] false.
    Without the latch, a round, whatever the sources do, leaves [running_]
    true and goes on, [removeNonWorkingSerialDevices] does not stop the
    manager, and the loop does not end by itself. *)
Theorem emergency_stop_when_latched {Callback : Type}
    (on_data_effect :
       Callback -> Serial.SerialDeviceImp Callback -> Serial.SerialDeviceImp Callback)
    (os : Serial.OS) (sel : Serial.SelectAnswer)
    (rest : list (Serial.OS * Serial.SelectAnswer))
    (m : Serial.Manager Callback) :
  Serial.running_ m = true ->
  (Serial.expect_devices_to_work_ m = true ->
   Forall (fun sd => Serial.opened sd = true /\ Serial.working os sd = false)
     (Serial.serial_devices_ m) ->
   exists m' ev,
     Serial.eventLoop on_data_effect ((os, sel) :: rest) m = Returns (m', ev)
     /\ Serial.running_ m' = false)
  /\ (Serial.expect_devices_to_work_ m = false ->
      (let r := Serial.eventLoop_round on_data_effect os sel m in
       Serial.running_ (fst (fst r)) = true
       /\ Serial.expect_devices_to_work_ (fst (fst r)) = false
       /\ snd r = true)
      /\ Serial.running_ (Serial.removeNonWorkingSerialDevices os m) = true
      /\ forall rounds, Serial.eventLoop on_data_effect rounds m = Pending).
Proof.
  intros Hrun. split.
  - intros Hexp Hall.
    cbn [Serial.eventLoop]. rewrite Hrun. cbn [negb].
    unfold Serial.eventLoop_round.
    destruct (Serial.scan_devices os (Serial.serial_devices_ m) ∅ true)
      as [readfds aw] eqn:Hscan.
    pose proof (scan_devices_all_working os (Serial.serial_devices_ m) ∅ true)
      as Haw.
    rewrite Hscan in Haw. cbn [snd andb] in Haw.
    rewrite Hexp, Hrun.
    destruct (Serial.serial_devices_ m) as [|sd devs] eqn:Hdevs.
    + cbn in Haw. subst aw. cbn [negb andb].
      cbn [Serial.select_indices Serial.deliver Serial.close_all].
      assert (Hm :
        Serial.removeNonWorkingSerialDevices os (Serial.set_serial_devices [] m)
        = Serial.set_running false (Serial.set_serial_devices [] m)).
      { unfold Serial.removeNonWorkingSerialDevices, Serial.stop. cbn.
        rewrite Hexp, Hrun. reflexivity. }
      destruct (0 <? Serial.activity sel);
        cbn [Serial.select_indices Serial.deliver Serial.close_all length
             Nat.ltb Nat.leb andb];
        rewrite Hm; cbn [app];
        rewrite eventLoop_not_running by reflexivity;
        eexists _, _; split; reflexivity.
    + apply Forall_cons in Hall as [[Ho Hw] _].
      cbn in Haw. unfold Serial.not_working in Haw. rewrite Ho, Hw in Haw.
      cbn in Haw. subst aw. cbn [negb andb].
      unfold Serial.stop. rewrite Hrun.
      eexists _, _. split; reflexivity.
  - intros Hexp.
    assert (Hround : forall m0 : Serial.Manager Callback,
      Serial.running_ m0 = true ->
      Serial.expect_devices_to_work_ m0 = false ->
      forall os0 sel0,
        let r := Serial.eventLoop_round on_data_effect os0 sel0 m0 in
        Serial.running_ (fst (fst r)) = true
        /\ Serial.expect_devices_to_work_ (fst (fst r)) = false
        /\ snd r = true).
    { intros m0 Hr0 He0 os0 sel0. unfold Serial.eventLoop_round.
      destruct (Serial.scan_devices os0 (Serial.serial_devices_ m0) ∅ true)
        as [readfds aw].
      rewrite He0, Hr0, andb_false_r. cbn [negb].
      destruct (if 0 <? Serial.activity sel0 then _ else _) as [devs ev1].
      destruct (Serial.close_all os0 _ devs) as [devs' ev2].
      unfold Serial.removeNonWorkingSerialDevices. cbn.
      rewrite He0, !andb_false_r. cbn. rewrite He0, !andb_false_r. cbn.
      auto. }
    split; [apply Hround; assumption|].
    split.
    { unfold Serial.removeNonWorkingSerialDevices. cbn.
      rewrite Hexp, andb_false_r. exact Hrun. }
    intros rounds. revert m Hrun Hexp.
    induction rounds as [|[os0 sel0] rounds IH]; intros m Hrun Hexp;
      cbn [Serial.eventLoop]; rewrite Hrun; cbn [negb]; [reflexivity|].
    destruct (Hround m Hrun Hexp os0 sel0) as (Hr & He & Hc).
    destruct (Serial.eventLoop_round on_data_effect os0 sel0 m)
      as [[m' ev] continue].
    cbn [fst snd] in Hr, He, Hc. subst continue.
    rewrite (IH m' Hr He). reflexivity.
Qed.


(** With the latch set and a closed file as the only source, the loop
    ends with [running_] false; without the latch the same round leaves
    the manager running. *)
Lemma emergency_stop_when_latched_witness :
  let os := Serial.Examples.os_all_present in
  let sel := Serial.Examples.select_both in
  (exists m' ev,
      Serial.eventLoop (fun _ d => d) [(os, sel)]
        (Serial.Examples.manager_of true [Serial.Examples.file_closed])
      = Returns (m', ev)
      /\ Serial.running_ m' = false)
  /\ Serial.running_
       (fst (fst (Serial.eventLoop_round (fun _ d => d) os sel
                    (Serial.Examples.manager_of false [Serial.Examples.file_closed]))))
     = true.
Proof.
  intros os sel. split.
  - destruct (emergency_stop_when_latched (fun _ d => d) os sel []
                (Serial.Examples.manager_of true [Serial.Examples.file_closed])
                eq_refl) as [Hstop _].
    apply Hstop; [reflexivity|].
    repeat constructor.
  - destruct (emergency_stop_when_latched (fun _ d => d) os sel []
                (Serial.Examples.manager_of false [Serial.Examples.file_closed])
                eq_refl) as [_ Hgo].
    destruct (Hgo eq_refl) as [(Hrun & _) _]. exact Hrun.
Defined.

(** The first test of the round is stronger than C3 asks for: with the
    latch set, one opened source that is not working is enough to stop. *)
Lemma emergency_stop_any_not_working {Callback : Type}
    (on_data_effect :
       Callback -> Serial.SerialDeviceImp Callback -> Serial.SerialDeviceImp Callback)
    (os : Serial.OS) (sel : Serial.SelectAnswer) (m : Serial.Manager Callback)
    (sd : Serial.SerialDeviceImp Callback) :
  Serial.running_ m = true ->
  Serial.expect_devices_to_work_ m = true ->
  sd ∈ Serial.serial_devices_ m ->
  Serial.not_working os sd = true ->
  Serial.eventLoop_round on_data_effect os sel m
  = (Serial.set_running false m, [], false).
Proof.
  intros Hrun Hexp Hin Hnw. unfold Serial.eventLoop_round.
  destruct (Serial.scan_devices os (Serial.serial_devices_ m) ∅ true)
    as [readfds aw] eqn:Hscan.
  pose proof (scan_devices_all_working os (Serial.serial_devices_ m) ∅ true)
    as Haw.
  rewrite Hscan in Haw. cbn [snd andb] in Haw.
  assert (aw = false) as ->.
  { rewrite Haw. apply not_true_is_false. intros Hall.
    rewrite forallb_forall in Hall.
    apply list_elem_of_In in Hin. specialize (Hall sd Hin).
    rewrite Hnw in Hall. discriminate. }
  rewrite Hexp. cbn [negb andb]. unfold Serial.stop. rewrite Hrun. reflexivity.
Qed.

(** ** The onDisappear callback *)

Section Disappear_facts.
Import Serial.
Context {Callback : Type}.

Lemma disappear_calls_app (ev1 ev2 : list (Event Callback)) :
  disappear_calls (ev1 ++ ev2)
  = (disappear_calls ev1 + disappear_calls ev2)%nat.
Proof.
  induction ev1 as [|e ev1 IH]; [reflexivity|].
  destruct e; cbn [app disappear_calls]; rewrite IH; reflexivity.
Qed.

Lemma fire_on_disappear_spec (d : SerialDeviceImp Callback) :
  match on_disappear_ d, resetting_ d with
  | Some cb, false =>
      fire_on_disappear d = (set_on_disappear None d, [CallOnDisappear cb])
  | _, _ => fire_on_disappear d = (d, [])
  end.
Proof.
  unfold fire_on_disappear.
  destruct (on_disappear_ d), (resetting_ d); reflexivity.
Qed.

(** Running the callback uses the registration up. *)
Lemma fire_on_disappear_budget (d : SerialDeviceImp Callback) :
  (disappear_calls (snd (fire_on_disappear d))
   + registered (fst (fire_on_disappear d)) = registered d)%nat.
Proof.
  unfold fire_on_disappear, registered.
  destruct (on_disappear_ d) eqn:Hcb; [destruct (resetting_ d)|];
    cbn; rewrite ?Hcb; reflexivity.
Qed.

Lemma close_budget (os : OS) (d : SerialDeviceImp Callback) :
  (disappear_calls (snd (close os d)) + registered (fst (close os d))
   = registered d)%nat.
Proof.
  unfold close.
  destruct (kind d).
  - unfold close_tty. destruct (fd_ d =? -1); [reflexivity|].
    pose proof (fire_on_disappear_budget (set_fd (-1) d)) as Hb.
    destruct (fire_on_disappear (set_fd (-1) d)) as [d' ev].
    cbn [fst snd] in *. rewrite !disappear_calls_app. cbn [disappear_calls].
    unfold registered in *. cbn in Hb. lia.
  - unfold close_command.
    destruct ((pid_ d =? 0) && (fd_ d =? -1)); [reflexivity|].
    destruct (negb (pid_ d =? 0) && stillRunning os (pid_ d)).
    + pose proof (fire_on_disappear_budget (set_pid 0 d)) as Hb.
      destruct (fire_on_disappear (set_pid 0 d)) as [d' ev].
      cbn [fst snd] in *. rewrite !disappear_calls_app. cbn [disappear_calls].
      unfold registered in *. cbn in Hb |- *. lia.
    + pose proof (fire_on_disappear_budget d) as Hb.
      destruct (fire_on_disappear d) as [d' ev].
      cbn [fst snd] in *. rewrite !disappear_calls_app. cbn [disappear_calls].
      unfold registered in *. cbn in Hb |- *. lia.
  - unfold close_file. destruct (fd_ d =? -1); reflexivity.
  - reflexivity.
Qed.

Lemma open_budget (a : OpenAnswer) (strict : bool) (d : SerialDeviceImp Callback)
    (r : AccessCheck) (d' : SerialDeviceImp Callback) (ev : list (Event Callback)) :
  open a strict d = Returns (r, d', ev) ->
  disappear_calls ev = 0%nat /\ registered d' = registered d.
Proof.
  unfold open. intros Hopen.
  repeat match type of Hopen with
         | context [match ?x with _ => _ end] => destruct x
         end;
    try discriminate; injection Hopen as <- <- <-; split; reflexivity.
Qed.

Lemma apply_op_budget (os : OS) (op : Op Callback) (d d' : SerialDeviceImp Callback)
    (ev : list (Event Callback)) :
  apply_op os op d = Some (d', ev) ->
  (disappear_calls ev + registered d' = registered d)%nat.
Proof.
  destruct op; cbn [apply_op]; intros Hop.
  - injection Hop as Hc.
    pose proof (close_budget os d) as Hb.
    rewrite Hc in Hb. exact Hb.
  - destruct (open a fail_if_not_ok d) as [[[r d0] ev0]| |] eqn:Hopen;
      try discriminate.
    injection Hop as <- <-.
    destruct (open_budget _ _ _ _ _ _ Hopen) as [-> ->]. reflexivity.
  - injection Hop as <- <-. reflexivity.
  - injection Hop as <- <-. reflexivity.
  - injection Hop as <- <-. reflexivity.
  - injection Hop as <- <-. reflexivity.
  - injection Hop as <- <-. reflexivity.
Qed.

(** Over any sequence of operations, the callbacks run and the
    registration left add up to no more than the registration at the
    start. *)
Lemma run_ops_budget (ops : list (OS * Op Callback)) :
  forall d : SerialDeviceImp Callback,
    (disappear_calls (snd (run_ops ops d)) + registered (fst (run_ops ops d))
     <= registered d)%nat.
Proof.
  induction ops as [|[os op] ops IH]; intros d; cbn [run_ops].
  - cbn. lia.
  - destruct (apply_op os op d) as [[d' ev]|] eqn:Hop.
    + pose proof (apply_op_budget os op d d' ev Hop) as Hb.
      specialize (IH d').
      destruct (run_ops ops d') as [d'' ev']. cbn [fst snd] in *.
      rewrite disappear_calls_app. lia.
    + cbn. lia.
Qed.

(** On a tty or a command that is open and not resetting, [close] runs
    the registered callback once and clears it. *)
Lemma close_fires (os : OS) (d : SerialDeviceImp Callback) (cb : Callback) :
  kind d = KTTY \/ kind d = KCommand ->
  on_disappear_ d = Some cb ->
  resetting_ d = false ->
  fd_ d <> -1 ->
  List.filter (fun e => match e with CallOnDisappear _ => true | _ => false end)
    (snd (close os d)) = [CallOnDisappear cb]
  /\ on_disappear_ (fst (close os d)) = None.
Proof.
  intros Hk Hcb Hres Hfd.
  assert (Hne : (fd_ d =? -1) = false) by (apply Z.eqb_neq; exact Hfd).
  unfold close. destruct Hk as [Hk|Hk]; rewrite Hk.
  - unfold close_tty. rewrite Hne.
    pose proof (fire_on_disappear_spec (set_fd (-1) d)) as Hf. cbn in Hf.
    rewrite Hcb, Hres in Hf. rewrite Hf. split; reflexivity.
  - unfold close_command. rewrite Hne, andb_false_r.
    destruct (negb (pid_ d =? 0) && stillRunning os (pid_ d)).
    + pose proof (fire_on_disappear_spec (set_pid 0 d)) as Hf. cbn in Hf.
      rewrite Hcb, Hres in Hf. rewrite Hf. split; reflexivity.
    + pose proof (fire_on_disappear_spec d) as Hf.
      rewrite Hcb, Hres in Hf. rewrite Hf. split; reflexivity.
Qed.

End Disappear_facts.

(** C9, as amended.  Whatever the kind of source and whatever is done to
    it (close, open, reset, muting, in any order), a registered
    [onDisappear] callback is run at most once.  On a tty or a command
    that is not resetting and whose descriptor is not closed already,
    [close] runs the callback, once, and clears it, and nothing done to
    the source afterwards runs it again.  A [close] during a reset does
    not run it and leaves it registered, and a [close] of a tty whose
    descriptor is closed already does nothing. *)
Theorem on_disappear_at_most_once {Callback : Type} :
  (forall (ops : list (Serial.OS * Serial.Op Callback))
          (d : Serial.SerialDeviceImp Callback),
      (Serial.disappear_calls (snd (Serial.run_ops ops d)) <= 1)%nat)
  /\ (forall (os : Serial.OS) (d : Serial.SerialDeviceImp Callback) (cb : Callback)
             (ops : list (Serial.OS * Serial.Op Callback)),
         Serial.kind d = Serial.KTTY \/ Serial.kind d = Serial.KCommand ->
         Serial.on_disappear_ d = Some cb ->
         Serial.resetting_ d = false ->
         Serial.fd_ d <> -1 ->
         let d' := fst (Serial.close os d) in
         List.filter
           (fun e => match e with Serial.CallOnDisappear _ => true | _ => false end)
           (snd (Serial.close os d)) = [Serial.CallOnDisappear cb]
         /\ Serial.disappear_calls (snd (Serial.close os d)) = 1%nat
         /\ Serial.on_disappear_ d' = None
         /\ Serial.disappear_calls (snd (Serial.run_ops ops d')) = 0%nat)
  /\ (forall (os : Serial.OS) (d : Serial.SerialDeviceImp Callback),
         Serial.resetting_ d = true ->
         Serial.disappear_calls (snd (Serial.close os d)) = 0%nat
         /\ Serial.on_disappear_ (fst (Serial.close os d)) = Serial.on_disappear_ d)
  /\ (forall (os : Serial.OS) (d : Serial.SerialDeviceImp Callback),
         Serial.kind d = Serial.KTTY -> Serial.fd_ d = -1 ->
         Serial.close os d = (d, [])).
Proof.
  split; [|split; [|split]].
  - intros ops d. pose proof (run_ops_budget ops d) as Hb.
    unfold Serial.registered in Hb at 2.
    destruct (Serial.on_disappear_ d); lia.
  - intros os d cb ops Hk Hcb Hres Hfd d'.
    destruct (close_fires os d cb Hk Hcb Hres Hfd) as [Hev Hclear].
    pose proof (close_budget os d) as Hb.
    pose proof (run_ops_budget ops d') as Hafter.
    subst d'. unfold Serial.registered in Hb, Hafter.
    rewrite Hclear in Hb, Hafter. rewrite Hcb in Hb.
    repeat split; [exact Hev|lia|exact Hclear|lia].
  - intros os d Hres.
    assert (Hfire : Serial.fire_on_disappear d = (d, [])
                    /\ forall v, Serial.fire_on_disappear (Serial.set_fd v d)
                                 = (Serial.set_fd v d, [])
                    /\ Serial.fire_on_disappear (Serial.set_pid v d)
                       = (Serial.set_pid v d, [])).
    { unfold Serial.fire_on_disappear. cbn. rewrite Hres.
      destruct (Serial.on_disappear_ d); auto. }
    destruct Hfire as [Hf0 Hf].
    unfold Serial.close, Serial.close_tty, Serial.close_command, Serial.close_file.
    destruct (Serial.kind d).
    + destruct (Serial.fd_ d =? -1); [split; reflexivity|].
      rewrite (proj1 (Hf (-1))). split; reflexivity.
    + destruct ((Serial.pid_ d =? 0) && (Serial.fd_ d =? -1)); [split; reflexivity|].
      destruct (negb (Serial.pid_ d =? 0) && Serial.stillRunning os (Serial.pid_ d)).
      * rewrite (proj2 (Hf 0)). split; reflexivity.
      * rewrite Hf0. split; reflexivity.
    + destruct (Serial.fd_ d =? -1); split; reflexivity.
    + split; reflexivity.
  - intros os d Hk Hfd. unfold Serial.close, Serial.close_tty.
    rewrite Hk, Hfd. reflexivity.
Qed.

(** A tty and a command, each closed while open and not resetting, then
    closed again, reset, closed, and reopened and closed once more: the
    callback runs in the first [close] and in none of the later
    operations. *)
Lemma on_disappear_at_most_once_witness :
  let os := Serial.Examples.os_all_present in
  let later :=
    [(os, Serial.OpClose); (os, Serial.OpResetInitiated); (os, Serial.OpClose);
     (os, Serial.OpResetCompleted);
     (os, Serial.OpOpen (Serial.mkOpen true 8 true 78) false);
     (os, Serial.OpClose)] in
  (Serial.disappear_calls (snd (Serial.close os Serial.Examples.tty_watched)) = 1%nat
   /\ Serial.disappear_calls
        (snd (Serial.run_ops later (fst (Serial.close os Serial.Examples.tty_watched))))
      = 0%nat)
  /\ (Serial.disappear_calls (snd (Serial.close os Serial.Examples.command_watched)) = 1%nat
      /\ Serial.disappear_calls
           (snd (Serial.run_ops later
                   (fst (Serial.close os Serial.Examples.command_watched))))
         = 0%nat).
Proof.
  intros os later.
  destruct (@on_disappear_at_most_once nat) as (_ & Hfire & _).
  split.
  - destruct (Hfire os Serial.Examples.tty_watched 9%nat later)
      as (_ & Hone & _ & Hnone);
      [left; reflexivity|reflexivity|reflexivity|discriminate|].
    split; assumption.
  - destruct (Hfire os Serial.Examples.command_watched 9%nat later)
      as (_ & Hone & _ & Hnone);
      [right; reflexivity|reflexivity|reflexivity|discriminate|].
    split; assumption.
Defined.

(** C9 as stated fails for a file source: it is open on descriptor 3, not
    resetting, its [onDisappear] callback is registered, and its first
    [close] does not run the callback, which stays registered and is never
    run. *)
Lemma on_disappear_file_counterexample :
  let os := Serial.Examples.os_all_present in
  let d := Serial.Examples.file_open in
  Serial.on_disappear_ d = Some 9%nat
  /\ Serial.resetting_ d = false
  /\ Serial.fd_ d = 3
  /\ Serial.close os d
     = (Serial.set_fd (-1) d, [Serial.OsClose 3; Serial.TickleEventLoop])
  /\ Serial.disappear_calls (snd (Serial.close os d)) <> 1%nat
  /\ Serial.on_disappear_ (fst (Serial.close os d)) = Some 9%nat.
Proof.
  intros os d. repeat split; try reflexivity. cbn. discriminate.
Qed.

(** ** The simulator *)

Section Simulator_facts.
Import Simulator.

Lemma wait_loop_unfold (sl : list Sleep) (curr deadline : Z) :
  wait_loop sl curr deadline
  = if deadline <? curr then Returns {| now := curr; sleeps := sl |}
    else match sl with
         | [] => Pending
         | s :: rest =>
             if negb (running_after s)
             then Returns {| now := curr + elapsed s; sleeps := rest |}
             else wait_loop rest (curr + elapsed s) deadline
         end.
Proof. destruct sl; reflexivity. Qed.

(** While the manager is running, the wait ends behind the deadline
    only. *)
Lemma wait_loop_deadline (sl : list Sleep) :
  forall (curr deadline : Z) (w : World),
    Forall (fun s => running_after s = true) sl ->
    wait_loop sl curr deadline = Returns w ->
    deadline < now w /\ Forall (fun s => running_after s = true) (sleeps w).
Proof.
  induction sl as [|s rest IH]; intros curr deadline w Hrun Hw;
    rewrite wait_loop_unfold in Hw;
    destruct (deadline <? curr) eqn:Hd.
  - injection Hw as <-. apply Z.ltb_lt in Hd. auto.
  - discriminate.
  - injection Hw as <-. apply Z.ltb_lt in Hd. auto.
  - apply Forall_cons in Hrun as [Hs Hrest]. rewrite Hs in Hw. cbn [negb] in Hw.
    apply (IH _ _ _ Hrest Hw).
Qed.

(** When every sleep lets at least a second go by, [deadline - curr + 1]
    sleeps are enough for the wait to end, and time does not go back. *)
Lemma wait_loop_returns (sl : list Sleep) :
  forall (curr deadline : Z),
    Forall (fun s => 1 <= elapsed s) sl ->
    (Z.to_nat (deadline - curr + 1) <= length sl)%nat ->
    exists (w : World) (k : nat),
      wait_loop sl curr deadline = Returns w
      /\ curr <= now w
      /\ (k <= Z.to_nat (deadline - curr + 1))%nat
      /\ sleeps w = drop k sl.
Proof.
  induction sl as [|s rest IH]; intros curr deadline Hel Hlen;
    rewrite wait_loop_unfold;
    destruct (deadline <? curr) eqn:Hd.
  - eexists _, 0%nat. split; [reflexivity|]. cbn. split; [lia|]. split; [lia|reflexivity].
  - apply Z.ltb_ge in Hd. cbn in Hlen. lia.
  - eexists _, 0%nat. split; [reflexivity|]. cbn. split; [lia|]. split; [lia|reflexivity].
  - apply Z.ltb_ge in Hd. apply Forall_cons in Hel as [Hs Hrest].
    destruct (running_after s); cbn [negb].
    + destruct (IH (curr + elapsed s) deadline Hrest) as (w & k & Hw & Hnow & Hk & Hsl).
      { cbn [length] in Hlen. lia. }
      exists w, (S k). split; [exact Hw|]. split; [lia|]. split; [lia|exact Hsl].
    + eexists _, 1%nat. split; [reflexivity|]. cbn. split; [lia|].
      split; [lia|]. rewrite drop_0. reflexivity.
Qed.

Lemma list_ascii_of_string_app (s1 s2 : string) :
  list_ascii_of_string (s1 ++ s2)%string
  = list_ascii_of_string s1 ++ list_ascii_of_string s2.
Proof.
  induction s1 as [|c s1 IH]; [reflexivity|].
  change (String c s1 ++ s2)%string with (String c (s1 ++ s2)%string).
  cbn [list_ascii_of_string app]. rewrite IH. reflexivity.
Qed.

Lemma string_append_empty_r (s : string) : (s ++ "")%string = s.
Proof.
  induction s as [|c s IH]; [reflexivity|].
  change (String c s ++ "")%string with (String c (s ++ "")%string).
  rewrite IH. reflexivity.
Qed.

Lemma string_append_assoc (s1 s2 s3 : string) :
  ((s1 ++ s2) ++ s3)%string = (s1 ++ (s2 ++ s3))%string.
Proof.
  induction s1 as [|c s1 IH]; [reflexivity|].
  change ((String c s1 ++ s2) ++ s3)%string
    with (String c ((s1 ++ s2) ++ s3)%string).
  rewrite IH. reflexivity.
Qed.

Lemma is_telegram_line_prefix (s : string) :
  is_telegram_line ("telegram=" ++ s)%string = true
  /\ drop 9 (list_ascii_of_string ("telegram=" ++ s)%string)
     = list_ascii_of_string s.
Proof.
  split; [|reflexivity].
  destruct s; reflexivity.
Qed.

(** The scan of a plain text copies it. *)
Lemma scan_line_plain (chars : list ascii) :
  forall (i : Z) (acc : string),
    Forall (fun c => c <> "|"%char /\ c <> "+"%char) chars ->
    scan_line chars i acc = ((acc ++ string_of_list_ascii chars)%string, 0, 0).
Proof.
  induction chars as [|c chars IH]; intros i acc Hplain; cbn [scan_line string_of_list_ascii].
  - rewrite string_append_empty_r. reflexivity.
  - apply Forall_cons in Hplain as [[Hbar Hplus] Hrest].
    apply Ascii.eqb_neq in Hbar, Hplus. rewrite Hbar, Hplus.
    rewrite IH by exact Hrest. f_equal. f_equal.
    rewrite string_append_assoc. reflexivity.
Qed.

(** The scan of a plain text followed by [|+] and more copies the text
    and reads the time behind the [+]. *)
Lemma scan_line_timed (chars rest : list ascii) :
  forall (i : Z) (acc : string),
    Forall (fun c => c <> "|"%char /\ c <> "+"%char) chars ->
    scan_line (chars ++ "|"%char :: "+"%char :: rest) i acc
    = ((acc ++ string_of_list_ascii chars)%string,
       i + Z.of_nat (length chars) + 1, atoi rest).
Proof.
  induction chars as [|c chars IH]; intros i acc Hplain;
    cbn [scan_line string_of_list_ascii app length].
  - rewrite string_append_empty_r. cbn. f_equal. f_equal. lia.
  - apply Forall_cons in Hplain as [[Hbar Hplus] Hrest].
    apply Ascii.eqb_neq in Hbar, Hplus. rewrite Hbar, Hplus.
    rewrite IH by exact Hrest. rewrite string_append_assoc.
    change (String c "" ++ string_of_list_ascii chars)%string
      with (String c (string_of_list_ascii chars)).
    replace (i + 1 + Z.of_nat (length chars) + 1)
      with (i + Z.of_nat (S (length chars)) + 1) by lia.
    reflexivity.
Qed.

Lemma scan_of_plain (hex : string) :
  plain hex -> scan_of ("telegram=" ++ hex)%string = (hex, 0, 0).
Proof.
  intros Hplain. unfold scan_of.
  rewrite (proj2 (is_telegram_line_prefix hex)).
  rewrite scan_line_plain by exact Hplain.
  rewrite string_of_list_ascii_of_string. reflexivity.
Qed.

Lemma scan_of_timed (hex secs : string) :
  plain hex ->
  exists found_time,
    found_time <> 0
    /\ scan_of ("telegram=" ++ hex ++ "|+" ++ secs)%string
       = (hex, found_time, atoi (list_ascii_of_string secs)).
Proof.
  intros Hplain. unfold scan_of.
  rewrite (proj2 (is_telegram_line_prefix _)).
  rewrite list_ascii_of_string_app.
  change (list_ascii_of_string ("|+" ++ secs)%string)
    with ("|"%char :: "+"%char :: list_ascii_of_string secs).
  rewrite scan_line_timed by exact Hplain.
  rewrite string_of_list_ascii_of_string.
  eexists. split; [|reflexivity]. lia.
Qed.

End Simulator_facts.

Section Simulate_facts.
Import Simulator.
Variable hex2bin : string -> option (list uchar).

Lemma simulate_line_ignored (start_time : Z) (l : string) (w : World) :
  is_telegram_line l = false ->
  simulate_line hex2bin start_time l w = Returns (w, []).
Proof. intros Hl. unfold simulate_line. rewrite Hl. reflexivity. Qed.

Lemma simulate_line_untimed (start_time : Z) (hex : string)
    (payload : list uchar) (w : World) :
  plain hex ->
  hex2bin hex = Some payload ->
  simulate_line hex2bin start_time ("telegram=" ++ hex)%string w
  = Returns (w, [HandleTelegram (now w) payload]).
Proof.
  intros Hplain Hhex. unfold simulate_line.
  rewrite (proj1 (is_telegram_line_prefix hex)), (scan_of_plain hex Hplain).
  cbn. rewrite Hhex. reflexivity.
Qed.

Lemma simulate_line_timed (start_time : Z) (hex secs : string)
    (payload : list uchar) (w w' : World) (ev : list SimEvent) :
  plain hex ->
  hex2bin hex = Some payload ->
  Forall (fun s => running_after s = true) (sleeps w) ->
  simulate_line hex2bin start_time
    ("telegram=" ++ hex ++ "|+" ++ secs)%string w = Returns (w', ev) ->
  ev = [HandleTelegram (now w') payload]
  /\ start_time + atoi (list_ascii_of_string secs) <= now w'.
Proof.
  intros Hplain Hhex Hrun Hsim. unfold simulate_line in Hsim.
  rewrite (proj1 (is_telegram_line_prefix _)) in Hsim.
  destruct (scan_of_timed hex secs Hplain) as (ft & Hft & Hscan).
  rewrite Hscan in Hsim.
  apply Z.eqb_neq in Hft. rewrite Hft in Hsim. cbn [negb] in Hsim.
  set (rel := atoi (list_ascii_of_string secs)) in *.
  destruct (now w <? start_time + rel) eqn:Hearly.
  - destruct (wait_loop (sleeps w) (now w) (start_time + rel)) as [w1| |] eqn:Hwait;
      try discriminate.
    cbn in Hsim. rewrite Hhex in Hsim. injection Hsim as <- <-.
    apply wait_loop_deadline in Hwait as [Hlate _]; [|exact Hrun].
    split; [reflexivity|lia].
  - cbn in Hsim. rewrite Hhex in Hsim. injection Hsim as <- <-.
    apply Z.ltb_ge in Hearly. split; [reflexivity|lia].
Qed.

(** A line hands over telegrams only. *)
Lemma simulate_line_injections (start_time : Z) (l : string)
    (w w' : World) (ev : list SimEvent) :
  simulate_line hex2bin start_time l w = Returns (w', ev) ->
  Forall is_injection ev.
Proof.
  unfold simulate_line. destruct (is_telegram_line l).
  - destruct (scan_of l) as [[hex ft] rel].
    destruct (if negb (ft =? 0) then _ else _) as [w1| |]; try discriminate.
    cbn. destruct (hex2bin hex); [|discriminate].
    intros Hr. injection Hr as <- <-. repeat constructor.
  - intros Hr. injection Hr as <- <-. constructor.
Qed.

Lemma simulate_lines_injections (start_time : Z) (lines : list string) :
  forall (w w' : World) (ev : list SimEvent),
    simulate_lines hex2bin start_time lines w = Returns (w', ev) ->
    Forall is_injection ev.
Proof.
  induction lines as [|l lines IH]; intros w w' ev Hr; cbn [simulate_lines] in Hr.
  - injection Hr as <- <-. constructor.
  - destruct (simulate_line hex2bin start_time l w) as [[w1 ev1]| |] eqn:Hl;
      try discriminate.
    cbn in Hr.
    destruct (simulate_lines hex2bin start_time lines w1) as [[w2 ev2]| |] eqn:Hls;
      try discriminate.
    cbn in Hr. injection Hr as <- <-.
    apply Forall_app. split.
    + eapply simulate_line_injections, Hl.
    + eapply IH, Hls.
Qed.

(** A valid line is dealt with once its wait is covered. *)
Lemma simulate_line_returns (start_time : Z) (l : string) (w : World) :
  line_valid hex2bin l = true ->
  start_time <= now w ->
  Forall (fun s => 1 <= elapsed s) (sleeps w) ->
  (line_wait l <= length (sleeps w))%nat ->
  exists (w' : World) (ev : list SimEvent),
    simulate_line hex2bin start_time l w = Returns (w', ev)
    /\ now w <= now w'
    /\ Forall (fun s => 1 <= elapsed s) (sleeps w')
    /\ (length (sleeps w) - line_wait l <= length (sleeps w'))%nat.
Proof.
  unfold line_valid, line_wait, simulate_line.
  destruct (is_telegram_line l).
  2:{ intros _ _ Hel _. exists w, []. split; [reflexivity|].
      split; [lia|]. split; [exact Hel|lia]. }
  destruct (scan_of l) as [[hex ft] rel]. cbn [fst].
  destruct (hex2bin hex) as [payload|] eqn:Hhex; [|discriminate].
  intros _ Hstart Hel Hlen.
  destruct (ft =? 0); cbn [negb].
  - cbn. exists w, [HandleTelegram (now w) payload].
    split; [reflexivity|]. split; [lia|]. split; [exact Hel|lia].
  - destruct (now w <? start_time + rel) eqn:Hearly.
    + destruct (wait_loop_returns (sleeps w) (now w) (start_time + rel) Hel)
        as (w1 & k & Hwait & Hnow & Hk & Hsl); [lia|].
      rewrite Hwait. cbn.
      exists w1, [HandleTelegram (now w1) payload].
      split; [reflexivity|]. split; [exact Hnow|].
      rewrite Hsl. split; [apply Forall_drop; exact Hel|].
      rewrite length_drop. lia.
    + cbn. exists w, [HandleTelegram (now w) payload].
      split; [reflexivity|]. split; [lia|]. split; [exact Hel|lia].
Qed.

Lemma simulate_lines_returns (start_time : Z) (lines : list string) :
  forall w : World,
    forallb (line_valid hex2bin) lines = true ->
    start_time <= now w ->
    Forall (fun s => 1 <= elapsed s) (sleeps w) ->
    (lines_wait lines <= length (sleeps w))%nat ->
    exists (w' : World) (ev : list SimEvent),
      simulate_lines hex2bin start_time lines w = Returns (w', ev).
Proof.
  induction lines as [|l lines IH]; intros w Hvalid Hstart Hel Hlen;
    cbn [simulate_lines lines_wait forallb] in *.
  - eauto.
  - apply andb_true_iff in Hvalid as [Hl Hls].
    destruct (simulate_line_returns start_time l w Hl Hstart Hel)
      as (w1 & ev1 & Hrun & Hnow & Hel1 & Hlen1); [lia|].
    rewrite Hrun. cbn.
    destruct (IH w1 Hls) as (w2 & ev2 & Hrest); [lia|exact Hel1|lia|].
    rewrite Hrest. cbn. eauto.
Qed.

End Simulate_facts.




(* ================================================================== *)
(** * Part III: further properties of the code *)
(* ================================================================== *)

(** ** Sources: sending, closing, opening, receiving *)

Section Source_facts.
Import Serial.
Context {Callback : Type}.

(** The loop of [send], entered with bytes still to write: a failure
    leaves some of them unwritten. *)
Lemma send_loop_strict (data : list uchar) (answers : list WriteResult) :
  forall (written : nat) (wire : list uchar) (ok : bool) (w : list uchar),
    wire = take written data ->
    (written < length data)%nat ->
    send_loop answers data written wire = Returns (ok, w) ->
    exists n, (n <= length data)%nat /\ w = take n data
              /\ (ok = true -> n = length data)
              /\ (ok = false -> (n < length data)%nat).
Proof.
  induction answers as [|a answers IH]; intros written wire ok w Hw Hlt Hrun;
    [discriminate|].
  destruct a as [k| |]; cbn [send_loop] in Hrun.
  - set (nw := Nat.min k (length data - written)) in *.
    assert (Hwire : wire ++ take nw (drop written data) = take (written + nw) data).
    { subst wire. apply take_take_drop. }
    destruct (written + nw =? length data)%nat eqn:Hdone.
    + apply Nat.eqb_eq in Hdone. injection Hrun as <- <-.
      exists (written + nw)%nat. rewrite Hwire.
      split; [lia|]. split; [reflexivity|]. split; [intros _; exact Hdone|discriminate].
    + apply Nat.eqb_neq in Hdone.
      apply (IH (written + nw)%nat _ ok w Hwire); [lia|exact Hrun].
  - apply (IH written wire ok w Hw Hlt Hrun).
  - injection Hrun as <- <-. exists written. split; [lia|].
    split; [exact Hw|]. split; [discriminate|intros _; exact Hlt].
Qed.

(** Closing sets the descriptor of every real source to -1. *)
Lemma close_fd (os : OS) (d : SerialDeviceImp Callback) :
  kind d <> KSimulator -> fd_ (fst (close os d)) = -1.
Proof.
  destruct d as [k od odis f ea isf iss nc res dev pid dat].
  cbn [kind]. intros Hk. unfold close. destruct k; [| | |congruence]; cbn [kind].
  - unfold close_tty. cbn [fd_]. destruct (f =? -1) eqn:Hfd.
    + apply Z.eqb_eq in Hfd. exact Hfd.
    + unfold fire_on_disappear. cbn.
      destruct odis; [destruct res|]; reflexivity.
  - unfold close_command. cbn [fd_ pid_].
    destruct ((pid =? 0) && (f =? -1)) eqn:Hc.
    + apply andb_true_iff in Hc as [_ Hfd]. apply Z.eqb_eq in Hfd. exact Hfd.
    + destruct (negb (pid =? 0) && stillRunning os pid);
        unfold fire_on_disappear; cbn;
        destruct odis; try destruct res; reflexivity.
  - unfold close_file. cbn [fd_]. destruct (f =? -1) eqn:Hfd.
    + apply Z.eqb_eq in Hfd. exact Hfd.
    + reflexivity.
Qed.

(** Closing changes neither the class of a source nor its reset flag. *)
Lemma close_kind_resetting (os : OS) (d : SerialDeviceImp Callback) :
  kind (fst (close os d)) = kind d
  /\ resetting_ (fst (close os d)) = resetting_ d.
Proof.
  destruct d as [k od odis f ea isf iss nc res dev pid dat].
  unfold close. destruct k; cbn [kind].
  - unfold close_tty. cbn [fd_]. destruct (f =? -1); [auto|].
    unfold fire_on_disappear. cbn.
    destruct odis; [destruct res|]; cbn; auto.
  - unfold close_command. cbn [fd_ pid_].
    destruct ((pid =? 0) && (f =? -1)); [auto|].
    destruct (negb (pid =? 0) && stillRunning os pid);
      unfold fire_on_disappear; cbn;
      destruct odis; try destruct res; cbn; auto.
  - unfold close_file. cbn [fd_]. destruct (f =? -1); cbn; auto.
  - auto.
Qed.

(** A source whose descriptor is -1 and that is not resetting is opened
    and not working, whatever its class. *)
Lemma closed_not_working (os : OS) (d : SerialDeviceImp Callback) :
  fd_ d = -1 -> resetting_ d = false -> not_working os d = true.
Proof.
  intros Hfd Hres. unfold not_working, opened, working.
  rewrite Hfd, Hres. destruct (kind d); reflexivity.
Qed.

(** The sweep of the manager keeps the sources that are not opened or
    that work, in their order. *)
Lemma erase_non_working_filter (os : OS) (l : list (SerialDeviceImp Callback)) :
  erase_non_working os l = List.filter (fun sd => negb (not_working os sd)) l.
Proof.
  induction l as [|sd l IH]; [reflexivity|].
  cbn [erase_non_working List.filter]. unfold not_working at 1.
  destruct (opened sd && negb (working os sd)); cbn [negb]; rewrite IH; reflexivity.
Qed.

End Source_facts.

(** X1.  [send] on a tty or a command: whatever [write] answers, the bytes
    that have gone out when [send] returns are a beginning of the data, and
    [send] returns true exactly when all of the data has gone out.  On a
    file or a simulator [send] returns true and nothing goes out. *)
Theorem send_wire_is_prefix {Callback : Type}
    (answers : list Serial.WriteResult) (d : Serial.SerialDeviceImp Callback)
    (data : list uchar) (ok : bool) (wire : list uchar) :
  Serial.send answers d data = Returns (ok, wire) ->
  wire `prefix_of` data
  /\ (Serial.kind d = Serial.KTTY \/ Serial.kind d = Serial.KCommand ->
      (ok = true <-> wire = data))
  /\ (Serial.kind d = Serial.KFile \/ Serial.kind d = Serial.KSimulator ->
      ok = true /\ wire = []).
Proof.
  intros Hsend. unfold Serial.send in Hsend.
  assert (Hloop : forall b rest, data = b :: rest ->
            Serial.send_loop answers data 0 [] = Returns (ok, wire) ->
            wire `prefix_of` data /\ (ok = true <-> wire = data)).
  { intros b rest Hdata Hrun.
    destruct (send_loop_strict data answers 0%nat [] ok wire) as (n & Hn & Hw & Ht & Hf).
    - reflexivity.
    - rewrite Hdata. cbn. lia.
    - exact Hrun.
    - split; [rewrite Hw; apply prefix_take|].
      split.
      + intros Hok. rewrite Hw, (Ht Hok). apply firstn_all.
      + intros Heq. destruct ok; [reflexivity|].
        specialize (Hf eq_refl).
        assert (Hlen : length wire = n) by (rewrite Hw, length_take; lia).
        rewrite Heq in Hlen. lia. }
  destruct (Serial.kind d) eqn:Hk.
  - destruct data as [|b rest]; [discriminate|].
    destruct (Hloop b rest eq_refl Hsend) as [Hp Hiff].
    split; [exact Hp|]. split; [intros _; exact Hiff|].
    intros [H|H]; discriminate.
  - destruct data as [|b rest]; [discriminate|].
    destruct (Hloop b rest eq_refl Hsend) as [Hp Hiff].
    split; [exact Hp|]. split; [intros _; exact Hiff|].
    intros [H|H]; discriminate.
  - injection Hsend as <- <-. split; [apply prefix_nil|].
    split; [intros [H|H]; discriminate|auto].
  - injection Hsend as <- <-. split; [apply prefix_nil|].
    split; [intros [H|H]; discriminate|auto].
Qed.

(** A tty takes two bytes of three and then fails: [send] returns false
    and the two bytes are out. *)
Lemma send_wire_is_prefix_witness :
  [1; 2] `prefix_of` [1; 2; 3]
  /\ (Serial.kind Serial.Examples.tty_usb0 = Serial.KTTY
      \/ Serial.kind Serial.Examples.tty_usb0 = Serial.KCommand ->
      (false = true <-> [1; 2] = [1; 2; 3]))
  /\ (Serial.kind Serial.Examples.tty_usb0 = Serial.KFile
      \/ Serial.kind Serial.Examples.tty_usb0 = Serial.KSimulator ->
      false = true /\ [1; 2] = @nil Z).
Proof.
  apply (send_wire_is_prefix
           [Serial.Wrote 2; Serial.WriteEINTR; Serial.WriteError]
           Serial.Examples.tty_usb0 [1; 2; 3] false [1; 2]).
  reflexivity.
Defined.

(** A closed source ([isClosed]: descriptor -1, not resetting) counts
    as opened and not working whatever its class and whatever the
    operating system answers: no data is pending on it, the event loop
    does not listen to it and does not close it again, and the sweep of
    [removeNonWorkingSerialDevices] drops it. *)
Lemma closed_source_is_swept {Callback : Type} (os : Serial.OS)
    (d : Serial.SerialDeviceImp Callback) :
  Serial.isClosed d = true ->
  Serial.opened d = true
  /\ Serial.working os d = false
  /\ Serial.checkIfDataIsPending os d = false
  /\ Serial.listened_to os d = false
  /\ Serial.to_be_closed os d = false
  /\ forall before after,
       Serial.erase_non_working os (before ++ d :: after)
       = Serial.erase_non_working os before ++ Serial.erase_non_working os after.
Proof.
  unfold Serial.isClosed. intros Hc.
  apply andb_true_iff in Hc as [Hfd Hres].
  apply Z.eqb_eq in Hfd. apply negb_true_iff in Hres.
  assert (Hop : Serial.opened d = true).
  { unfold Serial.opened. rewrite Hfd, Hres. reflexivity. }
  assert (Hw : Serial.working os d = false).
  { unfold Serial.working. rewrite Hfd, Hres. destruct (Serial.kind d); reflexivity. }
  split; [exact Hop|]. split; [exact Hw|].
  split; [unfold Serial.checkIfDataIsPending; rewrite Hop, Hw; reflexivity|].
  split; [unfold Serial.listened_to; rewrite Hop, Hw; reflexivity|].
  split.
  - unfold Serial.to_be_closed, Serial.isClosed.
    rewrite Hop, Hw, Hfd, Hres. reflexivity.
  - intros before after. rewrite !erase_non_working_filter.
    rewrite List.filter_app. cbn [List.filter].
    unfold Serial.not_working at 2. rewrite Hop, Hw. reflexivity.
Qed.

Lemma closed_source_is_swept_witness :
  Serial.opened Serial.Examples.file_closed = true
  /\ Serial.working Serial.Examples.os_all_present Serial.Examples.file_closed = false.
Proof.
  destruct (closed_source_is_swept Serial.Examples.os_all_present
              Serial.Examples.file_closed eq_refl) as (Ho & Hw & _).
  split; [exact Ho|exact Hw].
Defined.

(** X2.  Closing a source a second time: the source stays as the first
    [close] left it and no [onDisappear] callback is run; for a tty, a
    file and a simulator the second [close] does nothing at all, and so it
    does for a command unless its process was found dead by the first
    [close], in which case the descriptor -1 is closed once more. *)
Theorem close_twice {Callback : Type} (os : Serial.OS)
    (d : Serial.SerialDeviceImp Callback) :
  let d1 := fst (Serial.close os d) in
  fst (Serial.close os d1) = d1
  /\ Serial.disappear_calls (snd (Serial.close os d1)) = 0%nat
  /\ (Serial.kind d <> Serial.KCommand \/ Serial.pid_ d1 = 0 ->
      snd (Serial.close os d1) = [])
  /\ (Serial.kind d = Serial.KCommand -> Serial.pid_ d1 <> 0 ->
      snd (Serial.close os d1)
      = [Serial.OsClose (-1); Serial.TickleEventLoop]).
Proof.
  intros d1. subst d1. unfold Serial.close.
  destruct d as [k od odis f ea isf iss nc res dev pid dat].
  destruct k; cbn [Serial.kind].
  - (* tty *)
    unfold Serial.close_tty. cbn [Serial.fd_].
    destruct (f =? -1) eqn:Hf.
    + cbn [fst Serial.kind Serial.fd_]. rewrite Hf. cbn.
      repeat split; try reflexivity. intros H; discriminate.
    + unfold Serial.fire_on_disappear; cbn.
      destruct odis; [destruct res|]; cbn;
        repeat split; try reflexivity; intros H; discriminate.
  - (* command *)
    unfold Serial.close_command. cbn [Serial.fd_ Serial.pid_].
    destruct ((pid =? 0) && (f =? -1)) eqn:Hc.
    + cbn [fst Serial.kind Serial.fd_ Serial.pid_]. rewrite Hc.
      apply andb_true_iff in Hc as [Hp _]. apply Z.eqb_eq in Hp.
      cbn. repeat split; try reflexivity. intros _ Hne. contradiction.
    + destruct (negb (pid =? 0) && Serial.stillRunning os pid) eqn:Hrun.
      * unfold Serial.fire_on_disappear; cbn.
        destruct odis; [destruct res|]; cbn;
          repeat split; try reflexivity; intros; contradiction.
      * assert (Hp : (pid =? 0) = true \/ (pid =? 0) = false /\ Serial.stillRunning os pid = false).
        { destruct (pid =? 0); [auto|]. right. split; [reflexivity|].
          cbn in Hrun. exact Hrun. }
        unfold Serial.fire_on_disappear; cbn.
        destruct Hp as [Hp|[Hp Hdead]].
        -- destruct odis; [destruct res|]; cbn; rewrite Hp; cbn;
             apply Z.eqb_eq in Hp; subst pid;
             repeat split; try reflexivity; intros; contradiction.
        -- destruct odis; [destruct res|]; cbn; rewrite Hp, ?Hdead; cbn;
             rewrite ?Hdead; cbn;
             apply Z.eqb_neq in Hp;
             (split; [reflexivity|]); (split; [reflexivity|]);
             (split; [intros [Hk|Hz]; [congruence|contradiction]|]);
             intros _ _; reflexivity.
  - (* file *)
    unfold Serial.close_file. cbn [Serial.fd_].
    destruct (f =? -1) eqn:Hf.
    + cbn [fst Serial.kind Serial.fd_]. rewrite Hf. cbn.
      repeat split; try reflexivity. intros H; discriminate.
    + cbn. repeat split; try reflexivity. intros H; discriminate.
  - cbn. repeat split; try reflexivity. intros H; discriminate.
Qed.

Section Receive_facts.
Import Serial.
Context {Callback : Type}.

(** The loop of [receive] gathers what the answers deliver, up to the
    first answer that ends it. *)
Lemma receive_loop_reads_on (eof : bool) (d : SerialDeviceImp Callback)
    (pre : list ReadResult) :
  forall (rest : list ReadResult) (data : list uchar),
    fd_ d <> -1 ->
    forallb reads_on pre = true ->
    receive_loop (pre ++ rest) eof d data
    = receive_loop rest eof d (data ++ List.flat_map bytes_of pre).
Proof.
  induction pre as [|a pre IH]; intros rest data Hfd Hpre.
  - cbn. rewrite app_nil_r. reflexivity.
  - cbn [forallb] in Hpre. apply andb_true_iff in Hpre as [Ha Hpre].
    destruct a; try discriminate; cbn [app receive_loop List.flat_map bytes_of].
    + rewrite IH by assumption. rewrite <- app_assoc. reflexivity.
    + replace (fd_ d =? -1) with false by (symmetry; apply Z.eqb_neq; exact Hfd).
      cbn [negb]. rewrite IH by assumption. reflexivity.
Qed.

End Receive_facts.

(** X3.  When [open] returns [AccessOK], a real source is not closed: its
    descriptor is not -1, and for a command it is at least 0.  A file and a
    command are then read-only, so that [sendTelegram] on them returns
    true and sends nothing.  The simulator is left as it was. *)
Theorem open_ok_source {Callback : Type} (a : Serial.OpenAnswer) (strict : bool)
    (d d' : Serial.SerialDeviceImp Callback) (ev : list (Serial.Event Callback)) :
  Serial.open a strict d = Returns (Serial.AccessOK, d', ev) ->
  Serial.kind d' = Serial.kind d
  /\ (Serial.kind d <> Serial.KSimulator ->
      Serial.fd_ d' <> -1 /\ Serial.isClosed d' = false)
  /\ (Serial.kind d = Serial.KTTY -> Serial.opened d' = true)
  /\ (Serial.kind d = Serial.KCommand -> 0 <= Serial.fd_ d')
  /\ (Serial.kind d = Serial.KFile \/ Serial.kind d = Serial.KCommand ->
      Serial.readonly d' = true
      /\ forall answers starts_with content,
           MBusRawTTY.sendTelegram answers d' starts_with content
           = Returns (true, []))
  /\ (Serial.kind d = Serial.KSimulator -> d' = d).
Proof.
  destruct d as [k od odis f ea isf iss nc res dev pid dat].
  unfold Serial.open. cbn [Serial.kind Serial.device_].
  intros Hopen.
  assert (Hclosed : forall x : Serial.SerialDeviceImp Callback,
            Serial.fd_ x <> -1 -> Serial.isClosed x = false).
  { intros x Hx. unfold Serial.isClosed.
    replace (Serial.fd_ x =? -1) with false by (symmetry; apply Z.eqb_neq; exact Hx).
    reflexivity. }
  assert (Hsend : forall x : Serial.SerialDeviceImp Callback,
            Serial.readonly x = true ->
            forall answers starts_with content,
              MBusRawTTY.sendTelegram answers x starts_with content
              = Returns (true, [])).
  { intros x Hx answers sw content. unfold MBusRawTTY.sendTelegram.
    rewrite Hx. reflexivity. }
  destruct k.
  - (* tty *)
    destruct (String.eqb dev ""); [discriminate|].
    destruct (negb (Serial.path_exists a)); [discriminate|].
    cbn [Serial.fd_ Serial.set_fd] in Hopen.
    assert (Hfd : Serial.new_fd a <> -1 /\ Serial.new_fd a <> -2
                  /\ d' = Serial.set_fd (Serial.new_fd a)
                            (Serial.mkDevice Callback Serial.KTTY od odis f ea isf iss nc res dev pid dat)).
    { destruct (Serial.new_fd a <? 0) eqn:Hneg.
      - destruct strict.
        + destruct ((Serial.new_fd a =? -1) || (Serial.new_fd a =? -2)) eqn:Hor;
            [discriminate|].
          apply orb_false_iff in Hor as [H1 H2].
          apply Z.eqb_neq in H1, H2. injection Hopen as <- _. auto.
        + destruct (Serial.new_fd a =? -1) eqn:H1; [discriminate|].
          destruct (Serial.new_fd a =? -2) eqn:H2; [discriminate|].
          apply Z.eqb_neq in H1, H2. injection Hopen as <- _. auto.
      - apply Z.ltb_ge in Hneg. injection Hopen as <- _.
        split; [lia|]. split; [lia|reflexivity]. }
    destruct Hfd as (H1 & H2 & ->). cbn [Serial.kind Serial.fd_ Serial.set_fd].
    split; [reflexivity|].
    split; [intros _; split; [exact H1|first [apply Hclosed; exact H1 | unfold Serial.isClosed; cbn; apply Z.eqb_neq in H1; rewrite H1; reflexivity]]|].
    split.
    { intros _. unfold Serial.opened. cbn.
      replace (Serial.new_fd a =? -2) with false by (symmetry; apply Z.eqb_neq; exact H2).
      apply orb_true_r. }
    split; [intros H; discriminate|].
    split; [intros [H|H]; discriminate|intros H; discriminate].
  - (* command *)
    cbn [Serial.fd_ Serial.set_fd Serial.set_pid Serial.set_expecting_ascii] in Hopen.
    destruct (Serial.new_fd a <? 0) eqn:Hneg; [discriminate|].
    destruct (negb (Serial.shell_ok a)); [discriminate|].
    apply Z.ltb_ge in Hneg. injection Hopen as <- _.
    cbn.
    split; [reflexivity|].
    split; [intros _; split; [lia|first [reflexivity | apply Hclosed; cbn; lia]]|].
    split; [intros H; discriminate|].
    split; [intros _; exact Hneg|].
    split; [|intros H; discriminate].
    intros _. split; [reflexivity|]. first [intros; reflexivity | apply Hsend; reflexivity].
  - (* file *)
    destruct (String.eqb dev "stdin").
    + injection Hopen as <- _. cbn.
      split; [reflexivity|].
      split; [intros _; split; [lia|first [reflexivity | apply Hclosed; cbn; lia]]|].
      split; [intros H; discriminate|].
      split; [intros H; discriminate|].
      split; [|intros H; discriminate].
      intros _. split; [reflexivity|]. first [intros; reflexivity | apply Hsend; reflexivity].
    + destruct (negb (Serial.path_exists a)); [discriminate|].
      cbn [Serial.fd_ Serial.set_fd] in Hopen.
      destruct (Serial.new_fd a =? -1) eqn:H1; [destruct strict; discriminate|].
      apply Z.eqb_neq in H1. injection Hopen as <- _.
      cbn.
      split; [reflexivity|].
      split; [intros _; split; [exact H1|first [apply Hclosed; exact H1 | unfold Serial.isClosed; cbn; apply Z.eqb_neq in H1; rewrite H1; reflexivity]]|].
      split; [intros H; discriminate|].
      split; [intros H; discriminate|].
      split; [|intros H; discriminate].
      intros _. split; [unfold Serial.readonly; cbn; apply orb_true_r|].
      intros answers sw content. unfold MBusRawTTY.sendTelegram, Serial.readonly.
      cbn. rewrite orb_true_r. reflexivity.
  - injection Hopen as <- _.
    split; [reflexivity|].
    split; [intros H; contradiction|].
    split; [intros H; discriminate|].
    split; [intros H; discriminate|].
    split; [intros [H|H]; discriminate|reflexivity].
Qed.

(** A file opened on descriptor 3. *)
Lemma open_ok_source_witness :
  exists d',
    Serial.open (Serial.mkOpen true 3 true 0) true
      (Serial.new_device (Callback := nat) Serial.KFile "telegrams.bin")
    = Returns (Serial.AccessOK, d', [Serial.TickleEventLoop])
    /\ Serial.fd_ d' <> -1
    /\ MBusRawTTY.sendTelegram [Serial.Wrote 9] d' MBusRawTTY.LONG_FRAME [1; 2; 3]
       = Returns (true, []).
Proof.
  eexists. split; [reflexivity|].
  destruct (open_ok_source (Serial.mkOpen true 3 true 0) true
              (Serial.new_device (Callback := nat) Serial.KFile "telegrams.bin")
              _ _ eq_refl) as (_ & Hfd & _ & _ & Hro & _).
  split.
  - apply Hfd. discriminate.
  - apply Hro. left. reflexivity.
Defined.

(** X4.  [receive] on a real source whose descriptor is not -1: the bytes
    delivered are those of the reads before the first answer that is
    neither data nor [EINTR], in order (a read delivers at most 1024 of
    them).  On [EAGAIN] or another error the source is left alone; on
    [EBADF] it is closed; on a read of 0 bytes it is closed when it is a
    file, or when it is marked as stdin and [getchar] finds the end. *)
Theorem receive_collects_and_closes {Callback : Type} (os : Serial.OS)
    (eof : bool) (d : Serial.SerialDeviceImp Callback)
    (pre rest : list Serial.ReadResult) :
  Serial.kind d <> Serial.KSimulator ->
  Serial.fd_ d <> -1 ->
  forallb Serial.reads_on pre = true ->
  let data := List.flat_map Serial.bytes_of pre in
  let closed := Returns (fst (Serial.close os d), data, snd (Serial.close os d)) in
  let kept := Returns (d, data, []) in
  Serial.receive (pre ++ Serial.ReadEAGAIN :: rest) eof os d = kept
  /\ Serial.receive (pre ++ Serial.ReadError :: rest) eof os d = kept
  /\ Serial.receive (pre ++ Serial.ReadEBADF :: rest) eof os d = closed
  /\ Serial.receive (pre ++ Serial.ReadNothing :: rest) eof os d
     = (if Serial.is_file_ d || (Serial.is_stdin_ d && eof) then closed else kept)
  /\ Serial.receive pre eof os d = Pending.
Proof.
  intros Hk Hfd Hpre data closed kept. subst data closed kept.
  unfold Serial.receive.
  assert (Hloop : forall rest0,
            Serial.receive_loop (pre ++ rest0) eof d []
            = Serial.receive_loop rest0 eof d (List.flat_map Serial.bytes_of pre)).
  { intros rest0. rewrite receive_loop_reads_on by assumption. reflexivity. }
  assert (Hpend : Serial.receive_loop pre eof d [] = Pending).
  { pose proof (Hloop []) as H. rewrite app_nil_r in H. rewrite H. reflexivity. }
  destruct (Serial.kind d) eqn:Hkind; try congruence.
  all: rewrite !Hloop, Hpend; cbn [Serial.receive_loop mbind run_bind].
  all: destruct (Serial.close os d) as [d1 ev1]; cbn [fst snd].
  all: destruct (Serial.is_file_ d), (Serial.is_stdin_ d), eof; cbn; auto.
Qed.

Lemma receive_collects_and_closes_witness :
  Serial.receive
    ([Serial.ReadBytes 1 [2]; Serial.ReadEINTR; Serial.ReadBytes 3 []]
     ++ [Serial.ReadEAGAIN])
    false Serial.Examples.os_all_present Serial.Examples.tty_usb0
  = Returns (Serial.Examples.tty_usb0, [1; 2; 3], []).
Proof.
  destruct (receive_collects_and_closes Serial.Examples.os_all_present false
              Serial.Examples.tty_usb0
              [Serial.ReadBytes 1 [2]; Serial.ReadEINTR; Serial.ReadBytes 3 []] [])
    as [H _].
  - discriminate.
  - discriminate.
  - reflexivity.
  - exact H.
Defined.

Section Unplug_facts.
Import Serial.
Context {Callback : Type}.

(** A descriptor gone bad makes [receive] close the source. *)
Lemma receive_ebadf (os : OS) (eof : bool) (d : SerialDeviceImp Callback)
    (pre rest : list ReadResult) :
  kind d <> KSimulator ->
  fd_ d <> -1 ->
  forallb reads_on pre = true ->
  receive (pre ++ ReadEBADF :: rest) eof os d
  = Returns (fst (close os d), List.flat_map bytes_of pre, snd (close os d)).
Proof.
  intros Hk Hfd Hpre. unfold receive.
  rewrite receive_loop_reads_on by assumption.
  destruct (kind d); try congruence; cbn [receive_loop mbind run_bind app];
    destruct (close os d); reflexivity.
Qed.

End Unplug_facts.

(** X5.  Hot unplug of a tty or a command: when a [read] answers [EBADF]
    on a source that is open, not resetting and has an [onDisappear]
    callback, [receive] still delivers the bytes read before, runs that
    callback exactly once and clears it, and leaves the source closed, so
    that it counts as opened and not working from then on. *)
Theorem receive_ebadf_runs_on_disappear {Callback : Type} (os : Serial.OS)
    (eof : bool) (d : Serial.SerialDeviceImp Callback) (cb : Callback)
    (pre rest : list Serial.ReadResult) :
  Serial.kind d = Serial.KTTY \/ Serial.kind d = Serial.KCommand ->
  Serial.on_disappear_ d = Some cb ->
  Serial.resetting_ d = false ->
  Serial.fd_ d <> -1 ->
  forallb Serial.reads_on pre = true ->
  exists d' ev,
    Serial.receive (pre ++ Serial.ReadEBADF :: rest) eof os d
    = Returns (d', List.flat_map Serial.bytes_of pre, ev)
    /\ List.filter
         (fun e => match e with Serial.CallOnDisappear _ => true | _ => false end) ev
       = [Serial.CallOnDisappear cb]
    /\ Serial.on_disappear_ d' = None
    /\ Serial.isClosed d' = true
    /\ forall os', Serial.not_working os' d' = true.
Proof.
  intros Hk Hcb Hres Hfd Hpre.
  assert (Hreal : Serial.kind d <> Serial.KSimulator).
  { destruct Hk as [Hk|Hk]; rewrite Hk; discriminate. }
  exists (fst (Serial.close os d)), (snd (Serial.close os d)).
  split; [apply receive_ebadf; assumption|].
  destruct (close_fires os d cb Hk Hcb Hres Hfd) as [Hcalls Hnone].
  split; [exact Hcalls|]. split; [exact Hnone|].
  pose proof (close_fd os d Hreal) as Hfd'.
  destruct (close_kind_resetting os d) as [_ Hres'].
  rewrite Hres in Hres'.
  split.
  - unfold Serial.isClosed. rewrite Hfd', Hres'. reflexivity.
  - intros os'. apply closed_not_working; assumption.
Qed.

Lemma receive_ebadf_runs_on_disappear_witness :
  exists d' ev,
    Serial.receive ([Serial.ReadBytes 7 []] ++ [Serial.ReadEBADF]) false
      Serial.Examples.os_all_present Serial.Examples.tty_watched
    = Returns (d', [7], ev)
    /\ List.filter
         (fun e => match e with Serial.CallOnDisappear _ => true | _ => false end) ev
       = [Serial.CallOnDisappear 9%nat]
    /\ Serial.isClosed d' = true.
Proof.
  destruct (receive_ebadf_runs_on_disappear Serial.Examples.os_all_present false
              Serial.Examples.tty_watched 9%nat [Serial.ReadBytes 7 []] [])
    as (d' & ev & Hrun & Hcalls & _ & Hclosed & _).
  - left. reflexivity.
  - reflexivity.
  - reflexivity.
  - discriminate.
  - reflexivity.
  - exists d', ev. split; [exact Hrun|]. split; [exact Hcalls|exact Hclosed].
Defined.

(** The simulator's buffer: [fill] stores the bytes and runs the
    [on_data_] callback, the next [receive] hands out exactly those bytes
    and empties the buffer, and a further [receive] gets nothing.  Without
    an [on_data_] callback [fill] ends the program.  A real source ignores
    [fill]. *)
Lemma simulator_fill_receive {Callback : Type} (os : Serial.OS)
    (answers : list Serial.ReadResult) (eof : bool)
    (d : Serial.SerialDeviceImp Callback) (data : list uchar) :
  (Serial.kind d = Serial.KSimulator ->
   match Serial.on_data_ d with
   | None => Serial.fill data d = Fails
   | Some cb =>
       exists d1,
         Serial.fill data d = Returns (d1, Some cb)
         /\ Serial.receive answers eof os d1
            = Returns (Serial.set_data [] d1, data, [])
         /\ Serial.receive answers eof os (Serial.set_data [] d1)
            = Returns (Serial.set_data [] d1, [], [])
   end)
  /\ (Serial.kind d <> Serial.KSimulator ->
      Serial.fill data d = Returns (d, None)).
Proof.
  split.
  - intros Hk. unfold Serial.fill. rewrite Hk.
    destruct (Serial.on_data_ d) as [cb|]; [|reflexivity].
    exists (Serial.set_data data d). split; [reflexivity|].
    unfold Serial.receive. cbn [Serial.kind Serial.set_data]. rewrite Hk.
    split; reflexivity.
  - intros Hk. unfold Serial.fill. destruct (Serial.kind d); congruence.
Qed.

(** ** The manager's list of sources *)

Section Manager_facts.
Import Serial.
Context {Callback : Type}.

Lemma stop_stop (m : Manager Callback) : stop (stop m) = stop m.
Proof. unfold stop. destruct m as [[] e s x l t]; reflexivity. Qed.

Lemma filter_filter_same {A : Type} (f : A -> bool) (l : list A) :
  List.filter f (List.filter f l) = List.filter f l.
Proof.
  induction l as [|a l IH]; [reflexivity|].
  cbn [List.filter]. destruct (f a) eqn:Hf; [|exact IH].
  cbn [List.filter]. rewrite Hf, IH. reflexivity.
Qed.

(** The loop of [removeNonWorking(device)], for any value
    [found_and_removed] starts from. *)
Lemma erase_named_spec (os : OS) (nm : string) (l : list (SerialDeviceImp Callback)) :
  forall found : bool,
    erase_named os nm l found
    = (List.filter
         (fun sd => negb (not_working os sd && String.eqb (device sd) nm)) l,
       found
       || existsb (fun sd => not_working os sd && String.eqb (device sd) nm) l).
Proof.
  induction l as [|sd l IH]; intros found; cbn [erase_named List.filter existsb].
  - rewrite orb_false_r. reflexivity.
  - change (opened sd && negb (working os sd)) with (not_working os sd).
    destruct (not_working os sd && String.eqb (device sd) nm).
    + rewrite IH. cbn [negb orb]. rewrite orb_true_r. reflexivity.
    + rewrite IH. reflexivity.
Qed.

(** The loop of [lookup], counted from any position. *)
Lemma lookup_from_spec (nm : string) (l : list (SerialDeviceImp Callback)) :
  forall k : nat,
    match lookup_from nm l k with
    | Some (i, sd) =>
        (k <= i)%nat /\ l !! (i - k)%nat = Some sd /\ device sd = nm
        /\ forall j sd', (j < i - k)%nat -> l !! j = Some sd' -> device sd' <> nm
    | None => forall sd, sd ∈ l -> device sd <> nm
    end.
Proof.
  induction l as [|sd l IH]; intros k; cbn [lookup_from].
  - intros sd Hin. apply elem_of_nil in Hin. contradiction.
  - destruct (String.eqb (device sd) nm) eqn:Heq.
    + apply String.eqb_eq in Heq. rewrite Nat.sub_diag.
      split; [lia|]. split; [reflexivity|]. split; [exact Heq|].
      intros j sd' Hj. lia.
    + apply String.eqb_neq in Heq. specialize (IH (S k)).
      destruct (lookup_from nm l (S k)) as [[i sd1]|].
      * destruct IH as (Hle & Hl & Hd & Hfirst).
        split; [lia|]. replace (i - k)%nat with (S (i - S k)) by lia.
        split; [exact Hl|]. split; [exact Hd|].
        intros j sd' Hj Hl'. destruct j as [|j]; cbn in Hl'.
        -- injection Hl' as <-. exact Heq.
        -- apply (Hfirst j sd'); [lia|exact Hl'].
      * intros sd' Hin. apply elem_of_cons in Hin as [->|Hin]; [exact Heq|].
        apply IH. exact Hin.
Qed.

Lemma lookup_from_app (nm : string) (l : list (SerialDeviceImp Callback))
    (sd : SerialDeviceImp Callback) :
  forall k : nat,
    lookup_from nm (l ++ [sd]) k
    = match lookup_from nm l k with
      | Some r => Some r
      | None => if String.eqb (device sd) nm then Some ((k + length l)%nat, sd) else None
      end.
Proof.
  induction l as [|sd1 l IH]; intros k; cbn [app lookup_from length].
  - rewrite Nat.add_0_r. reflexivity.
  - destruct (String.eqb (device sd1) nm); [reflexivity|].
    rewrite IH. replace (S k + length l)%nat with (k + S (length l))%nat by lia.
    reflexivity.
Qed.

(** The loop of [closeAllDoNotRemove] closes each source where it is. *)
Lemma close_each_spec (os : OS) (l : list (SerialDeviceImp Callback)) :
  forall i : nat,
    fst (close_each os l i) = List.map (fun sd => fst (close os sd)) l
    /\ snd (close_each os l i)
       = imap (fun j sd => Closed (i + j) (snd (close os sd))) l.
Proof.
  induction l as [|sd l IH]; intros i; cbn [close_each]; [split; reflexivity|].
  destruct (close os sd) as [sd' ev] eqn:Hc.
  destruct (IH (S i)) as [Hd He].
  destruct (close_each os l (S i)) as [rest' evs].
  cbn [fst snd] in *. cbn [List.map imap].
  rewrite Hc. cbn [fst snd]. rewrite Hd, He. split; [reflexivity|].
  rewrite Nat.add_0_r. f_equal.
  apply imap_ext. intros j x _. cbn. f_equal. lia.
Qed.

Lemma removeNonWorkingSerialDevices_devices (os : OS) (m : Manager Callback) :
  serial_devices_ (removeNonWorkingSerialDevices os m)
  = erase_non_working os (serial_devices_ m).
Proof.
  unfold removeNonWorkingSerialDevices, stop.
  destruct m as [run expect start exit_after devs timers]. cbn.
  destruct ((length (erase_non_working os devs) =? 0)%nat && expect);
    [destruct run|]; reflexivity.
Qed.

Lemma removeNonWorkingSerialDevices_stopped (os : OS) (m : Manager Callback) :
  running_ m = false -> running_ (removeNonWorkingSerialDevices os m) = false.
Proof.
  unfold removeNonWorkingSerialDevices, stop.
  destruct m as [run expect start exit_after devs timers]. cbn. intros ->.
  destruct ((length (erase_non_working os devs) =? 0)%nat && expect); reflexivity.
Qed.

End Manager_facts.

(** X6.  [removeNonWorkingSerialDevices] keeps exactly the sources that
    are not opened or that work, in their order; it stops the manager
    when nothing is left and devices are expected to work, and only then;
    it leaves the timers alone; and sweeping again, with the same answers
    of the operating system, changes nothing. *)
Theorem removeNonWorkingSerialDevices_sweep {Callback : Type} (os : Serial.OS)
    (m : Serial.Manager Callback) :
  let kept :=
    List.filter (fun sd => negb (Serial.not_working os sd)) (Serial.serial_devices_ m) in
  let m' := Serial.removeNonWorkingSerialDevices os m in
  Serial.serial_devices_ m' = kept
  /\ (forall sd, sd ∈ Serial.serial_devices_ m' ->
        sd ∈ Serial.serial_devices_ m /\ Serial.not_working os sd = false)
  /\ Serial.running_ m'
     = Serial.running_ m
       && negb ((length kept =? 0)%nat && Serial.expect_devices_to_work_ m)
  /\ Serial.timers_ m' = Serial.timers_ m
  /\ Serial.removeNonWorkingSerialDevices os m' = m'.
Proof.
  intros kept m'. subst kept m'.
  unfold Serial.removeNonWorkingSerialDevices.
  rewrite erase_non_working_filter.
  set (kept := List.filter _ (Serial.serial_devices_ m)).
  destruct m as [run expect start exit_after devs timers].
  cbn [Serial.serial_devices_ Serial.set_serial_devices
       Serial.expect_devices_to_work_ Serial.running_ Serial.timers_
       Serial.start_time_ Serial.exit_after_seconds_] in *.
  assert (Hin : forall sd, sd ∈ kept -> sd ∈ devs /\ Serial.not_working os sd = false).
  { intros sd Hsd. apply list_elem_of_In in Hsd. subst kept.
    apply List.filter_In in Hsd as [Hsd Hw].
    apply list_elem_of_In in Hsd. apply negb_true_iff in Hw. auto. }
  assert (Hkept : List.filter (fun sd => negb (Serial.not_working os sd)) kept = kept).
  { subst kept. apply filter_filter_same. }
  destruct ((length kept =? 0)%nat && expect) eqn:Hstop.
  - unfold Serial.stop. cbn [Serial.running_].
    destruct run; cbn;
      (split; [reflexivity|]); (split; [exact Hin|]); (split; [reflexivity|]);
      (split; [reflexivity|]);
      rewrite !erase_non_working_filter, Hkept, Hstop; reflexivity.
  - cbn. split; [reflexivity|]. split; [exact Hin|].
    split; [rewrite andb_true_r; reflexivity|]. split; [reflexivity|].
    rewrite !erase_non_working_filter, Hkept, Hstop. reflexivity.
Qed.

(** X7.  [removeNonWorking(device)] removes exactly the sources that are
    opened, not working and called [device], keeps the others in their
    order, and returns whether it removed one.  Unlike the general sweep it
    never stops the manager, and when it returns false the manager is as
    it was. *)
Theorem removeNonWorking_by_name {Callback : Type} (os : Serial.OS)
    (nm : string) (m : Serial.Manager Callback) :
  let gone := fun sd =>
    Serial.not_working os sd && String.eqb (Serial.device sd) nm in
  let r := Serial.removeNonWorking os nm m in
  Serial.serial_devices_ (fst r)
  = List.filter (fun sd => negb (gone sd)) (Serial.serial_devices_ m)
  /\ snd r = existsb gone (Serial.serial_devices_ m)
  /\ Serial.running_ (fst r) = Serial.running_ m
  /\ Serial.timers_ (fst r) = Serial.timers_ m
  /\ (snd r = false -> fst r = m).
Proof.
  intros gone r. subst gone r. unfold Serial.removeNonWorking.
  rewrite erase_named_spec. cbn [orb fst snd].
  destruct m as [run expect start exit_after devs timers].
  cbn [Serial.serial_devices_ Serial.set_serial_devices Serial.running_
       Serial.timers_].
  split; [reflexivity|]. split; [reflexivity|]. split; [reflexivity|].
  split; [reflexivity|].
  intros Hnone. unfold Serial.set_serial_devices. cbn. f_equal.
  induction devs as [|sd devs IH]; [reflexivity|].
  cbn [existsb List.filter] in *.
  apply orb_false_iff in Hnone as [Hsd Hrest].
  rewrite Hsd. cbn [negb]. rewrite (IH Hrest). reflexivity.
Qed.

(** X8.  [lookup(device)] returns the first source of the list whose
    [device()] is the name asked for, and nothing exactly when no source
    has that name. *)
Theorem lookup_finds_first {Callback : Type} (nm : string)
    (m : Serial.Manager Callback) :
  match Serial.lookup nm m with
  | Some (i, sd) =>
      Serial.serial_devices_ m !! i = Some sd
      /\ Serial.device sd = nm
      /\ forall j sd', (j < i)%nat -> Serial.serial_devices_ m !! j = Some sd' ->
           Serial.device sd' <> nm
  | None =>
      forall sd, sd ∈ Serial.serial_devices_ m -> Serial.device sd <> nm
  end.
Proof.
  unfold Serial.lookup.
  pose proof (lookup_from_spec nm (Serial.serial_devices_ m) 0) as H.
  destruct (Serial.lookup_from nm (Serial.serial_devices_ m) 0) as [[i sd]|];
    [|exact H].
  rewrite Nat.sub_0_r in H. destruct H as (_ & Hl & Hd & Hfirst).
  split; [exact Hl|]. split; [exact Hd|exact Hfirst].
Qed.

(** X9.  A source added with [addSerialDeviceForManagement] is found by
    [lookup] under its own name, at the end of the list, unless an older
    source has the same name, which is then found instead; [lookup] of any
    other name answers as before. *)
Theorem lookup_after_add {Callback : Type} (sd : Serial.SerialDeviceImp Callback)
    (m : Serial.Manager Callback) :
  Serial.lookup (Serial.device sd) (Serial.addSerialDeviceForManagement sd m)
  = match Serial.lookup (Serial.device sd) m with
    | Some r => Some r
    | None => Some (length (Serial.serial_devices_ m), sd)
    end
  /\ forall nm, nm <> Serial.device sd ->
       Serial.lookup nm (Serial.addSerialDeviceForManagement sd m)
       = Serial.lookup nm m.
Proof.
  unfold Serial.lookup, Serial.addSerialDeviceForManagement.
  cbn [Serial.serial_devices_ Serial.set_serial_devices].
  split.
  - rewrite lookup_from_app, String.eqb_refl. reflexivity.
  - intros nm Hnm. rewrite lookup_from_app.
    replace (String.eqb (Serial.device sd) nm) with false
      by (symmetry; apply String.eqb_neq; congruence).
    destruct (Serial.lookup_from nm (Serial.serial_devices_ m) 0); reflexivity.
Qed.

(** X10.  The destructor of the manager ([stop], [closeAllDoNotRemove],
    [removeNonWorkingSerialDevices]): the manager is stopped, every source
    is closed once, in the order of the list, and the sources left in the
    list afterwards are only those that are resetting and simulators that
    were never marked as opened. *)
Theorem destroy_leaves_resetting_or_simulators {Callback : Type}
    (os os' : Serial.OS) (m : Serial.Manager Callback) :
  let r := Serial.destroy os os' m in
  Serial.running_ (fst r) = false
  /\ snd r
     = imap (fun i sd => Serial.Closed i (snd (Serial.close os sd)))
         (Serial.serial_devices_ m)
  /\ forall sd, sd ∈ Serial.serial_devices_ (fst r) ->
       Serial.resetting_ sd = true
       \/ (Serial.kind sd = Serial.KSimulator /\ Serial.fd_ sd = -2).
Proof.
  intros r. subst r. unfold Serial.destroy, Serial.closeAllDoNotRemove.
  assert (Hrun : Serial.running_ (Serial.stop m) = false).
  { unfold Serial.stop. destruct (Serial.running_ m) eqn:H; [reflexivity|exact H]. }
  assert (Hdevs : Serial.serial_devices_ (Serial.stop m) = Serial.serial_devices_ m).
  { unfold Serial.stop. destruct (Serial.running_ m); reflexivity. }
  set (m0 := Serial.stop m) in *.
  destruct (close_each_spec os (Serial.serial_devices_ m0) 0) as [Hd He].
  assert (Hswept : forall l : list (Serial.SerialDeviceImp Callback),
            forall sd, sd ∈ Serial.erase_non_working os'
                              (List.map (fun sd => fst (Serial.close os sd)) l) ->
              Serial.resetting_ sd = true
              \/ (Serial.kind sd = Serial.KSimulator /\ Serial.fd_ sd = -2)).
  { intros l sd Hin. rewrite erase_non_working_filter in Hin.
    apply list_elem_of_In, List.filter_In in Hin as [Hin Hw].
    apply negb_true_iff in Hw.
    apply List.in_map_iff in Hin as (sd0 & <- & _).
    destruct (close_kind_resetting os sd0) as [Hk Hres].
    destruct (Serial.resetting_ (fst (Serial.close os sd0))) eqn:Hr; [left; reflexivity|].
    right. destruct (Serial.kind sd0) eqn:Hkind.
    1-3: rewrite closed_not_working in Hw;
      [discriminate|apply close_fd; congruence|exact Hr].
    split; [exact Hk|].
    unfold Serial.not_working, Serial.opened, Serial.working in Hw.
    rewrite Hk, Hr in Hw. cbn in Hw.
    rewrite andb_true_r in Hw. apply negb_false_iff, Z.eqb_eq in Hw. exact Hw. }
  destruct (length (Serial.serial_devices_ m0) =? 0)%nat eqn:Hlen.
  - apply Nat.eqb_eq in Hlen.
    assert (Hnil : Serial.serial_devices_ m0 = []).
    { destruct (Serial.serial_devices_ m0); [reflexivity|discriminate]. }
    cbn [fst snd].
    split; [apply removeNonWorkingSerialDevices_stopped; exact Hrun|].
    split; [rewrite <- Hdevs, Hnil; reflexivity|].
    intros sd Hin. rewrite removeNonWorkingSerialDevices_devices, Hnil in Hin.
    apply elem_of_nil in Hin. contradiction.
  - destruct (Serial.close_each os (Serial.serial_devices_ m0) 0) as [devs ev].
    cbn [fst snd] in *. subst devs ev. rewrite Hdevs.
    split; [apply removeNonWorkingSerialDevices_stopped; exact Hrun|].
    split; [reflexivity|].
    intros sd Hin. rewrite removeNonWorkingSerialDevices_devices in Hin.
    apply (Hswept (Serial.serial_devices_ m)). exact Hin.
Qed.

(** ** Timers *)

Section Regular_callback_facts.
Import Serial.
Context {Callback : Type}.

(** Erasing an id that no timer of a first part has goes on to the
    rest. *)
Lemma erase_timer_app (i : Z) (a b : list (Timer Callback)) :
  (forall t, t ∈ a -> id t <> i) ->
  erase_timer i (a ++ b) = a ++ erase_timer i b.
Proof.
  induction a as [|t a IH]; intros Hno; [reflexivity|].
  cbn [app erase_timer].
  replace (id t =? i) with false.
  - rewrite IH; [reflexivity|]. intros t' Hin. apply Hno. apply elem_of_cons. auto.
  - symmetry. apply Z.eqb_neq. apply Hno. apply elem_of_cons. auto.
Qed.

Lemma erase_timer_absent (i : Z) (l : list (Timer Callback)) :
  (forall t, t ∈ l -> id t <> i) -> erase_timer i l = l.
Proof.
  intros Hno. rewrite <- (app_nil_r l) at 1.
  rewrite erase_timer_app by exact Hno. cbn. apply app_nil_r.
Qed.

Lemma set_timers_same (m : Manager Callback) : set_timers (timers_ m) m = m.
Proof. destruct m; reflexivity. Qed.

(** The loop of [calculateTimeToNearestTimerCallback], from any [r]. *)
Lemma nearest_timer_spec (now : Z) (timers : list (Timer Callback)) :
  forall r : Z,
    let n := nearest_timer now timers r in
    n <= r
    /\ (forall t, t ∈ timers -> n <= last_call t + seconds t - now)
    /\ (n = r \/ exists t, t ∈ timers /\ n = last_call t + seconds t - now).
Proof.
  induction timers as [|t timers IH]; intros r; cbn [nearest_timer].
  - split; [lia|]. split; [|left; reflexivity].
    intros t Hin. apply elem_of_nil in Hin. contradiction.
  - cbv zeta.
    set (remaining := last_call t + seconds t - now).
    destruct (IH (if remaining <? r then remaining else r)) as (Hle & Hall & Hex).
    cbv zeta in Hle, Hall, Hex.
    set (n := nearest_timer now timers _) in *.
    destruct (remaining <? r) eqn:Hlt;
      [apply Z.ltb_lt in Hlt|apply Z.ltb_ge in Hlt].
    + split; [lia|]. split.
      * intros t' Hin. apply elem_of_cons in Hin as [->|Hin]; [exact Hle|].
        apply Hall. exact Hin.
      * right. destruct Hex as [Hn|(t' & Hin & Hn)].
        -- exists t. split; [apply elem_of_cons; auto|exact Hn].
        -- exists t'. split; [apply elem_of_cons; auto|exact Hn].
    + split; [lia|]. split.
      * intros t' Hin. apply elem_of_cons in Hin as [->|Hin].
        -- fold remaining. lia.
        -- apply Hall. exact Hin.
      * destruct Hex as [Hn|(t' & Hin & Hn)]; [left; exact Hn|].
        right. exists t'. split; [apply elem_of_cons; auto|exact Hn].
Qed.

End Regular_callback_facts.

(** X11.  [startRegularCallback] and [stopRegularCallback]: in a manager
    whose timers have their positions as ids (as they have while no timer
    has been stopped), the id handed out is the number of timers, the ids
    are positions afterwards as well, and stopping that id again gives the
    manager back as it was.  Stopping an id that no timer has changes
    nothing. *)
Theorem start_then_stop_regular_callback {Callback : Type} (now : Z)
    (nm : string) (secs : Z) (cb : Callback) (m : Serial.Manager Callback) :
  Serial.ids_are_positions (Serial.timers_ m) ->
  let m1 := fst (Serial.startRegularCallback now nm secs cb m) in
  let i := snd (Serial.startRegularCallback now nm secs cb m) in
  i = Z.of_nat (length (Serial.timers_ m))
  /\ Serial.ids_are_positions (Serial.timers_ m1)
  /\ Serial.stopRegularCallback i m1 = m
  /\ forall j, (forall t, t ∈ Serial.timers_ m -> Serial.id t <> j) ->
       Serial.stopRegularCallback j m = m.
Proof.
  intros Hids m1 i. subst m1 i.
  unfold Serial.startRegularCallback, Serial.stopRegularCallback.
  cbn [fst snd Serial.id Serial.timers_ Serial.set_timers].
  set (t := Serial.mkTimer Callback _ secs now cb nm).
  assert (Hold : forall t', t' ∈ Serial.timers_ m ->
            Serial.id t' <> Z.of_nat (length (Serial.timers_ m))).
  { intros t' Hin. apply list_elem_of_lookup_1 in Hin as [p Hp].
    rewrite (Hids p t' Hp). apply lookup_lt_Some in Hp. lia. }
  split; [reflexivity|]. split.
  - intros p t' Hp. apply lookup_app_Some in Hp as [Hp|[Hlen Hp]].
    + apply Hids. exact Hp.
    + destruct (p - length (Serial.timers_ m))%nat as [|q] eqn:Hq; [|discriminate].
      injection Hp as <-. cbn. lia.
  - split.
    + rewrite erase_timer_app by exact Hold.
      cbn [Serial.erase_timer]. subst t. cbn [Serial.id]. rewrite Z.eqb_refl.
      rewrite app_nil_r. destruct m; reflexivity.
    + intros j Hno. rewrite erase_timer_absent by exact Hno.
      apply set_timers_same.
Qed.

Lemma start_then_stop_regular_callback_witness :
  Serial.stopRegularCallback 0
    (fst (Serial.startRegularCallback 100 "poll" 60 7%nat (Serial.new_manager nat 100 0)))
  = Serial.new_manager nat 100 0.
Proof.
  destruct (start_then_stop_regular_callback 100 "poll" 60 7%nat
              (Serial.new_manager nat 100 0)) as (_ & _ & H & _).
  - intros p t Hp. discriminate.
  - exact H.
Defined.

(** X12.  Ids of timers are reused: after a timer other than the last one
    has been stopped, the next [startRegularCallback] hands out the id of
    the last timer still running, and [stopRegularCallback] with that id
    then removes the older timer and leaves the new one in place. *)
Theorem stop_then_start_reuses_id {Callback : Type} (now : Z) (nm : string)
    (secs : Z) (cb : Callback) (m : Serial.Manager Callback)
    (before after : list (Serial.Timer Callback))
    (stopped last : Serial.Timer Callback) :
  Serial.ids_are_positions (Serial.timers_ m) ->
  Serial.timers_ m = before ++ stopped :: after ++ [last] ->
  let m1 := Serial.stopRegularCallback (Serial.id stopped) m in
  let m2 := fst (Serial.startRegularCallback now nm secs cb m1) in
  let i := snd (Serial.startRegularCallback now nm secs cb m1) in
  let new := Serial.mkTimer Callback i secs now cb nm in
  Serial.timers_ m1 = before ++ after ++ [last]
  /\ i = Serial.id last
  /\ Serial.timers_ m2 = before ++ after ++ [last; new]
  /\ Serial.timers_ (Serial.stopRegularCallback i m2) = before ++ after ++ [new].
Proof.
  intros Hids Htimers m1 m2 i new. subst m1 m2 i new.
  unfold Serial.startRegularCallback, Serial.stopRegularCallback.
  cbn [fst snd Serial.id Serial.timers_ Serial.set_timers].
  rewrite Htimers.
  assert (Hid : forall p t, (before ++ stopped :: after ++ [last]) !! p = Some t ->
            Serial.id t = Z.of_nat p).
  { intros p t Hp. apply Hids. rewrite Htimers. exact Hp. }
  assert (Hstopped : Serial.id stopped = Z.of_nat (length before)).
  { apply Hid. rewrite lookup_app_r by lia. rewrite Nat.sub_diag. reflexivity. }
  assert (Hlast : Serial.id last = Z.of_nat (length before + S (length after))).
  { apply Hid. rewrite lookup_app_r by lia.
    replace (length before + S (length after) - length before)%nat
      with (S (length after)) by lia.
    change ((after ++ [last]) !! length after = Some last).
    rewrite lookup_app_r by lia. rewrite Nat.sub_diag. reflexivity. }
  assert (Hbefore : forall t, t ∈ before ->
            Serial.id t <> Serial.id stopped /\ Serial.id t <> Serial.id last).
  { intros t Hin. apply list_elem_of_lookup_1 in Hin as [p Hp].
    pose proof (lookup_lt_Some _ _ _ Hp) as Hlt.
    rewrite (Hid p t) by (rewrite lookup_app_l by exact Hlt; exact Hp).
    rewrite Hstopped, Hlast. lia. }
  assert (Hafter : forall t, t ∈ after -> Serial.id t <> Serial.id last).
  { intros t Hin. apply list_elem_of_lookup_1 in Hin as [p Hp].
    pose proof (lookup_lt_Some _ _ _ Hp) as Hlt.
    rewrite (Hid (length before + S p)%nat t).
    - rewrite Hlast. lia.
    - rewrite lookup_app_r by lia.
      replace (length before + S p - length before)%nat with (S p) by lia.
      change ((after ++ [last]) !! p = Some t).
      rewrite lookup_app_l by exact Hlt. exact Hp. }
  assert (Herase : Serial.erase_timer (Serial.id stopped)
                     (before ++ stopped :: after ++ [last])
                   = before ++ after ++ [last]).
  { rewrite erase_timer_app by (intros t Hin; apply (Hbefore t Hin)).
    cbn [Serial.erase_timer]. rewrite Z.eqb_refl. reflexivity. }
  rewrite Herase.
  assert (Hlen : Z.of_nat (length (before ++ after ++ [last])) = Serial.id last).
  { rewrite Hlast, !length_app. cbn [length]. lia. }
  rewrite Hlen.
  split; [reflexivity|]. split; [reflexivity|].
  split; [rewrite <- !app_assoc; reflexivity|].
  rewrite <- !app_assoc.
  rewrite erase_timer_app by (intros t Hin; apply (Hbefore t Hin)).
  rewrite erase_timer_app by exact Hafter.
  cbn [app Serial.erase_timer]. rewrite Z.eqb_refl. reflexivity.
Qed.

Lemma stop_then_start_reuses_id_witness :
  let t0 := Serial.mkTimer nat 0 10 0 1%nat "a" in
  let t1 := Serial.mkTimer nat 1 20 0 2%nat "b" in
  let m := Serial.set_timers [t0; t1] (Serial.new_manager nat 0 0) in
  let m1 := Serial.stopRegularCallback 0 m in
  snd (Serial.startRegularCallback 5 "c" 30 3%nat m1) = 1
  /\ Serial.timers_
       (Serial.stopRegularCallback 1
          (fst (Serial.startRegularCallback 5 "c" 30 3%nat m1)))
     = [Serial.mkTimer nat 1 30 5 3%nat "c"].
Proof.
  intros t0 t1 m m1.
  destruct (stop_then_start_reuses_id 5 "c" 30 3%nat m [] [] t0 t1)
    as (_ & Hi & _ & Hstop).
  - intros p t Hp. destruct p as [|[|p]]; cbn in Hp; try discriminate;
      injection Hp as <-; reflexivity.
  - reflexivity.
  - split; [exact Hi|exact Hstop].
Defined.

(** X13.  [calculateTimeToNearestTimerCallback] returns the least of the
    times left until the timers are due, capped at [2^30] seconds, which is
    also what it returns without timers; the result is at most 0 exactly
    when some timer is due ([isTime]). *)
Theorem nearest_timer_callback {Callback : Type} (now : Z)
    (m : Serial.Manager Callback) :
  let r := Serial.calculateTimeToNearestTimerCallback now m in
  r <= 2 ^ 30
  /\ (forall t, t ∈ Serial.timers_ m ->
        r <= Serial.last_call t + Serial.seconds t - now)
  /\ (r = 2 ^ 30
      \/ exists t, t ∈ Serial.timers_ m
                   /\ r = Serial.last_call t + Serial.seconds t - now)
  /\ (r <= 0 <-> exists t, t ∈ Serial.timers_ m /\ Serial.isTime t now = true).
Proof.
  intros r. subst r. unfold Serial.calculateTimeToNearestTimerCallback.
  change (1024 * 1024 * 1024) with (2 ^ 30).
  destruct (nearest_timer_spec now (Serial.timers_ m) (2 ^ 30)) as (Hle & Hall & Hex).
  cbv zeta in Hle, Hall, Hex.
  split; [exact Hle|]. split; [exact Hall|]. split; [exact Hex|].
  split.
  - intros Hr. destruct Hex as [Hn|(t & Hin & Hn)]; [lia|].
    exists t. split; [exact Hin|]. unfold Serial.isTime. apply Z.leb_le. lia.
  - intros (t & Hin & Ht). unfold Serial.isTime in Ht. apply Z.leb_le in Ht.
    specialize (Hall t Hin). lia.
Qed.

(** X14.  Running [executeTimerCallbacks] twice at the same second: the
    second run calls only the timers that were due and whose period is not
    positive, so a timer with a positive period is called once; and the
    second run leaves the timers as the first one did. *)
Theorem executeTimerCallbacks_twice {Callback : Type} (curr : Z)
    (m : Serial.Manager Callback) :
  let m1 := fst (Serial.executeTimerCallbacks curr m) in
  snd (Serial.executeTimerCallbacks curr m1)
  = List.map Serial.callback
      (List.filter (fun t => Serial.isTime t curr && (Serial.seconds t <=? 0))
         (Serial.timers_ m))
  /\ fst (Serial.executeTimerCallbacks curr m1) = m1.
Proof.
  intros m1. subst m1. unfold Serial.executeTimerCallbacks.
  rewrite (mark_timers_spec curr (Serial.timers_ m) []).
  cbn [fst snd Serial.timers_ Serial.set_timers app].
  rewrite mark_timers_spec. cbn [fst snd app].
  rewrite callback_set_last_call.
  destruct m as [run expect start exit_after devs timers].
  cbn [Serial.timers_ Serial.set_timers Serial.running_
       Serial.expect_devices_to_work_ Serial.start_time_
       Serial.exit_after_seconds_ Serial.serial_devices_].
  split.
  - induction timers as [|t timers IH]; [reflexivity|].
    cbn [List.map List.filter].
    destruct (Serial.isTime t curr) eqn:Ht.
    + unfold Serial.isTime at 1. cbn [Serial.last_call Serial.seconds Serial.set_last_call].
      replace (curr + Serial.seconds t <=? curr) with (Serial.seconds t <=? 0)
        by (destruct (Serial.seconds t <=? 0) eqn:H1;
            [apply Z.leb_le in H1; symmetry; apply Z.leb_le; lia
            |apply Z.leb_gt in H1; symmetry; apply Z.leb_gt; lia]).
      cbn [andb]. destruct (Serial.seconds t <=? 0); cbn [List.map]; rewrite IH; reflexivity.
    + rewrite Ht. cbn [andb]. exact IH.
  - unfold Serial.set_timers. cbn. f_equal.
    rewrite List.map_map. apply List.map_ext. intros t.
    destruct (Serial.isTime t curr) eqn:Ht.
    + destruct (Serial.isTime (Serial.set_last_call curr t) curr); reflexivity.
    + rewrite Ht. reflexivity.
Qed.

Section TimerLoop_facts.
Import Serial.
Context {Callback : Type}.

(** Running the timers touches nothing but the timers. *)
Lemma executeTimerCallbacks_frame (curr : Z) (m : Manager Callback) :
  let m' := fst (executeTimerCallbacks curr m) in
  running_ m' = running_ m
  /\ start_time_ m' = start_time_ m
  /\ exit_after_seconds_ m' = exit_after_seconds_ m
  /\ serial_devices_ m' = serial_devices_ m.
Proof.
  unfold executeTimerCallbacks.
  destruct (mark_timers curr (timers_ m) []) as [timers called].
  destruct m; cbn; auto.
Qed.

End TimerLoop_facts.



(** ** Rounds of the event loop *)

Section Round_facts.
Import Serial.
Context {Callback : Type}.

(** The filling loops pick every position whose source passes the
    test. *)
Lemma select_indices_complete (test : SerialDeviceImp Callback -> bool)
    (l : list (SerialDeviceImp Callback)) :
  forall (k i : nat) (sd : SerialDeviceImp Callback),
    l !! i = Some sd -> test sd = true ->
    (k + i)%nat ∈ select_indices test l k.
Proof.
  induction l as [|sd0 l IH]; intros k i sd Hi Ht; [discriminate|].
  cbn [select_indices]. destruct i as [|i]; cbn in Hi.
  - injection Hi as ->. rewrite Ht, Nat.add_0_r. apply elem_of_cons. auto.
  - replace (k + S i)%nat with (S k + i)%nat by lia.
    destruct (test sd0); [apply elem_of_cons; right|]; eapply IH; eassumption.
Qed.

Lemma select_indices_none (test : SerialDeviceImp Callback -> bool)
    (l : list (SerialDeviceImp Callback)) :
  (forall sd, sd ∈ l -> test sd = false) ->
  forall k, select_indices test l k = [].
Proof.
  induction l as [|sd l IH]; intros Hall k; [reflexivity|].
  cbn [select_indices]. rewrite (Hall sd) by (apply elem_of_cons; auto).
  apply IH. intros sd' Hin. apply Hall. apply elem_of_cons. auto.
Qed.

(** The sweep closes each source of [non_working] as the filling loop
    found it: a source is changed by its own closing only. *)
Lemma close_all_closes (os : OS) (non_working : list nat) :
  forall (devs : list (SerialDeviceImp Callback)) (i : nat)
         (sd : SerialDeviceImp Callback),
    i ∈ non_working -> devs !! i = Some sd ->
    Closed i (snd (close os sd)) ∈ snd (close_all os non_working devs).
Proof.
  induction non_working as [|j rest IH]; intros devs i sd Hin Hi.
  - apply elem_of_nil in Hin. contradiction.
  - cbn [close_all]. destruct (Nat.eq_dec j i) as [->|Hne].
    + rewrite Hi. destruct (close os sd) as [sd' ev].
      destruct (close_all os rest _) as [devs' evs]. cbn [snd].
      apply elem_of_cons. auto.
    + apply elem_of_cons in Hin as [Heq|Hin]; [congruence|].
      destruct (devs !! j) as [sdj|] eqn:Hj.
      * destruct (close os sdj) as [sd' ev].
        specialize (IH (<[j := sd']> devs) i sd Hin).
        rewrite list_lookup_insert_ne in IH by exact Hne.
        specialize (IH Hi).
        destruct (close_all os rest _) as [devs' evs]. cbn [snd] in *.
        apply elem_of_cons. auto.
      * apply IH; assumption.
Qed.

Lemma filter_all {A : Type} (f : A -> bool) (l : list A) :
  (forall a, a ∈ l -> f a = true) -> List.filter f l = l.
Proof.
  induction l as [|a l IH]; intros Hall; [reflexivity|].
  cbn [List.filter]. rewrite (Hall a) by (apply elem_of_cons; auto).
  f_equal. apply IH. intros b Hb. apply Hall. apply elem_of_cons. auto.
Qed.

Lemma set_serial_devices_same (m : Manager Callback) :
  set_serial_devices (serial_devices_ m) m = m.
Proof. destruct m; reflexivity. Qed.

End Round_facts.

(** X16.  Hot unplug in a round of the event loop, when devices are not
    expected to work and [select] reports no activity: every source that
    is opened, not working and not yet closed is closed in that round (its
    [close] runs on the source as the round found it), no [on_data_]
    callback is run, afterwards no source that is opened and not working is
    left in the list, and the loop goes on with the manager running. *)
Theorem eventLoop_round_hot_unplug {Callback : Type}
    (on_data_effect :
       Callback -> Serial.SerialDeviceImp Callback -> Serial.SerialDeviceImp Callback)
    (os : Serial.OS) (sel : Serial.SelectAnswer) (m : Serial.Manager Callback) :
  Serial.running_ m = true ->
  Serial.expect_devices_to_work_ m = false ->
  Serial.activity sel <= 0 ->
  let r := Serial.eventLoop_round on_data_effect os sel m in
  snd r = true
  /\ Serial.running_ (fst (fst r)) = true
  /\ (forall i sd, Serial.serial_devices_ m !! i = Some sd ->
        Serial.to_be_closed os sd = true ->
        Serial.Closed i (snd (Serial.close os sd)) ∈ snd (fst r))
  /\ (forall i cb, Serial.OnData i cb ∉ snd (fst r))
  /\ (forall sd, sd ∈ Serial.serial_devices_ (fst (fst r)) ->
        Serial.not_working os sd = false).
Proof.
  intros Hrun Hexp Hact r. subst r. unfold Serial.eventLoop_round.
  destruct (Serial.scan_devices os (Serial.serial_devices_ m) ∅ true)
    as [readfds aw].
  rewrite Hexp, Hrun, andb_false_r. cbn [negb].
  replace (0 <? Serial.activity sel) with false
    by (symmetry; apply Z.ltb_ge; exact Hact).
  set (non_working :=
         Serial.select_indices (Serial.to_be_closed os) (Serial.serial_devices_ m) 0).
  pose proof (close_all_closes os non_working (Serial.serial_devices_ m)) as Hclosed.
  pose proof (close_all_events os non_working (Serial.serial_devices_ m)) as Hnodata.
  destruct (Serial.close_all os non_working (Serial.serial_devices_ m))
    as [devs ev2].
  cbn [snd] in Hclosed, Hnodata.
  assert (Hexp' : Serial.expect_devices_to_work_
                    (Serial.removeNonWorkingSerialDevices os
                       (Serial.set_serial_devices devs m)) = false).
  { unfold Serial.removeNonWorkingSerialDevices. cbn.
    rewrite Hexp, andb_false_r. cbn. exact Hexp. }
  rewrite Hexp', andb_false_r. cbn [fst snd app].
  split; [reflexivity|]. split.
  { unfold Serial.removeNonWorkingSerialDevices. cbn.
    rewrite Hexp, andb_false_r. cbn. exact Hrun. }
  split.
  { intros i sd Hi Ht. apply Hclosed; [|exact Hi].
    apply (select_indices_complete (Serial.to_be_closed os)
             (Serial.serial_devices_ m) 0 i sd Hi Ht). }
  split; [exact Hnodata|].
  intros sd Hin. rewrite removeNonWorkingSerialDevices_devices in Hin.
  rewrite erase_non_working_filter in Hin.
  apply list_elem_of_In, List.filter_In in Hin as [_ Hw].
  apply negb_true_iff in Hw. exact Hw.
Qed.

(** A watched tty whose device node has gone. *)
Lemma eventLoop_round_hot_unplug_witness :
  let os := Serial.mkOS (fun _ => false) (fun _ => Some 0) (fun _ => true) in
  let m := Serial.Examples.manager_of false [Serial.Examples.tty_watched] in
  let r := Serial.eventLoop_round (fun _ d => d) os (Serial.mkSelect 0 ∅) m in
  Serial.Closed 0 (snd (Serial.close os Serial.Examples.tty_watched)) ∈ snd (fst r)
  /\ Serial.running_ (fst (fst r)) = true.
Proof.
  intros os m r.
  destruct (eventLoop_round_hot_unplug (fun _ d => d) os (Serial.mkSelect 0 ∅) m)
    as (_ & Hrun & Hclosed & _).
  - reflexivity.
  - reflexivity.
  - cbn. lia.
  - split; [|exact Hrun].
    apply (Hclosed 0%nat Serial.Examples.tty_watched); reflexivity.
Defined.

(** A round of the event loop in which every source is either not
    opened or working, and [select] reports no activity, changes nothing
    and runs nothing, with one exception: when the list is empty and
    devices are expected to work, the round stops the manager. *)
Lemma eventLoop_round_idle {Callback : Type}
    (on_data_effect :
       Callback -> Serial.SerialDeviceImp Callback -> Serial.SerialDeviceImp Callback)
    (os : Serial.OS) (sel : Serial.SelectAnswer) (m : Serial.Manager Callback) :
  Serial.running_ m = true ->
  Serial.activity sel <= 0 ->
  (forall sd, sd ∈ Serial.serial_devices_ m -> Serial.not_working os sd = false) ->
  Serial.eventLoop_round on_data_effect os sel m
  = (match Serial.serial_devices_ m with
     | [] => if Serial.expect_devices_to_work_ m
             then Serial.set_running false m else m
     | _ => m
     end, [], true).
Proof.
  intros Hrun Hact Hall. unfold Serial.eventLoop_round.
  destruct (Serial.scan_devices os (Serial.serial_devices_ m) ∅ true)
    as [readfds aw] eqn:Hscan.
  pose proof (scan_devices_all_working os (Serial.serial_devices_ m) ∅ true) as Haw.
  rewrite Hscan in Haw. cbn [snd andb] in Haw.
  assert (aw = true) as ->.
  { rewrite Haw. apply forallb_forall. intros sd Hin.
    apply list_elem_of_In in Hin. rewrite (Hall sd Hin). reflexivity. }
  cbn [negb andb]. rewrite Hrun. cbn [negb].
  replace (0 <? Serial.activity sel) with false
    by (symmetry; apply Z.ltb_ge; exact Hact).
  rewrite select_indices_none.
  2:{ intros sd Hin. unfold Serial.to_be_closed.
      change (Serial.opened sd && negb (Serial.working os sd))
        with (Serial.not_working os sd).
      rewrite (Hall sd Hin). reflexivity. }
  cbn [Serial.close_all length Nat.ltb Nat.leb andb app].
  rewrite set_serial_devices_same.
  unfold Serial.removeNonWorkingSerialDevices.
  rewrite erase_non_working_filter.
  rewrite filter_all
    by (intros sd Hin; rewrite (Hall sd Hin); reflexivity).
  rewrite set_serial_devices_same.
  destruct (Serial.serial_devices_ m) as [|sd devs]; cbn [length Nat.eqb andb].
  - destruct (Serial.expect_devices_to_work_ m); [|reflexivity].
    unfold Serial.stop. rewrite Hrun. reflexivity.
  - reflexivity.
Qed.

Lemma eventLoop_round_idle_witness :
  let m := Serial.Examples.manager_of true [Serial.Examples.tty_usb0] in
  Serial.eventLoop_round (fun _ d => d) Serial.Examples.os_all_present
    (Serial.mkSelect 0 ∅) m
  = (m, [], true).
Proof.
  intros m.
  apply (eventLoop_round_idle (fun _ d => d) Serial.Examples.os_all_present
           (Serial.mkSelect 0 ∅) m).
  - reflexivity.
  - cbn. lia.
  - intros sd Hin. apply list_elem_of_singleton in Hin. subst sd. reflexivity.
Defined.

(** X17.  Emergency stop: when devices are expected to work and one
    source of the list is opened and not working, the event loop stops the
    manager and returns at once.  It closes no source, runs no callback
    and removes nothing from the list, however many other sources work
    and whatever [select] reports. *)
Theorem emergency_stop_closes_nothing {Callback : Type}
    (on_data_effect :
       Callback -> Serial.SerialDeviceImp Callback -> Serial.SerialDeviceImp Callback)
    (os : Serial.OS) (sel : Serial.SelectAnswer)
    (rest : list (Serial.OS * Serial.SelectAnswer))
    (m : Serial.Manager Callback) (sd : Serial.SerialDeviceImp Callback) :
  Serial.running_ m = true ->
  Serial.expect_devices_to_work_ m = true ->
  sd ∈ Serial.serial_devices_ m ->
  Serial.not_working os sd = true ->
  Serial.eventLoop on_data_effect ((os, sel) :: rest) m
  = Returns (Serial.set_running false m, [])
  /\ Serial.serial_devices_ (Serial.set_running false m) = Serial.serial_devices_ m.
Proof.
  intros Hrun Hexp Hin Hnw.
  cbn [Serial.eventLoop]. rewrite Hrun. cbn [negb].
  rewrite (emergency_stop_any_not_working on_data_effect os sel m sd Hrun Hexp Hin Hnw).
  split; reflexivity.
Qed.

(** A closed file beside a working tty that has data to read. *)
Lemma emergency_stop_closes_nothing_witness :
  let m := Serial.Examples.manager_of true
             [Serial.Examples.tty_usb0; Serial.Examples.file_closed] in
  Serial.eventLoop (fun _ d => d)
    [(Serial.Examples.os_all_present, Serial.Examples.select_both)] m
  = Returns (Serial.set_running false m, []).
Proof.
  intros m.
  destruct (emergency_stop_closes_nothing (fun _ d => d)
              Serial.Examples.os_all_present Serial.Examples.select_both [] m
              Serial.Examples.file_closed) as [H _].
  - reflexivity.
  - reflexivity.
  - apply elem_of_cons. right. apply elem_of_cons. left. reflexivity.
  - reflexivity.
  - exact H.
Defined.

Section Simulator_source_facts.
Import Serial.
Context {Callback : Type}.

(** No operation but a reset changes what makes a simulator pristine. *)
Lemma apply_op_pristine (os : OS) (op : Op Callback)
    (d d' : SerialDeviceImp Callback) (ev : list (Event Callback)) :
  op <> OpResetInitiated ->
  pristine_simulator d ->
  apply_op os op d = Some (d', ev) ->
  pristine_simulator d' /\ ev = [].
Proof.
  unfold pristine_simulator. intros Hop (Hk & Hfd & Hres).
  destruct op; cbn [apply_op]; try congruence.
  - unfold close. rewrite Hk. intros H; injection H as <- <-. auto.
  - unfold open. rewrite Hk. intros H; injection H as <- <-. auto.
  - intros H; injection H as <- <-. cbn. auto.
  - intros H; injection H as <- <-. cbn. auto.
  - intros H; injection H as <- <-. cbn. auto.
  - intros H; injection H as <- <-. cbn. auto.
Qed.

Lemma run_ops_pristine (ops : list (OS * Op Callback)) :
  forall d : SerialDeviceImp Callback,
    Forall (fun p => snd p <> OpResetInitiated) ops ->
    pristine_simulator d ->
    pristine_simulator (fst (run_ops ops d)) /\ snd (run_ops ops d) = [].
Proof.
  induction ops as [|[os op] ops IH]; intros d Hops Hd; cbn [run_ops].
  - auto.
  - apply Forall_cons in Hops as [Hop Hops]. cbn [snd] in Hop.
    destruct (apply_op os op d) as [[d' ev]|] eqn:Happ; [|auto].
    destruct (apply_op_pristine os op d d' ev Hop Hd Happ) as [Hd' ->].
    destruct (IH d' Hops Hd') as [Hp He].
    destruct (run_ops ops d') as [d'' ev']. cbn [fst snd] in *.
    subst ev'. auto.
Qed.

End Simulator_source_facts.



(** ** The M-Bus tty: framing, sending, detection *)

Section ProcessSerialData_loop.
Import MBusRawTTY.
Variable checkMBusFrame : list uchar -> FrameCheck.

(** The loop of [processSerialData], whenever it returns. *)
Lemma eat_frames_leftover (rounds : nat) :
  forall (buf : list uchar) (r : Processed),
    eat_frames checkMBusFrame rounds buf = Returns r ->
    read_buffer_ r `suffix_of` buf
    /\ ((verbose_log r = []
         /\ status (checkMBusFrame (read_buffer_ r)) = PartialFrame)
        \/ (verbose_log r = ["(mbus) protocol error in message received!"%string]
            /\ read_buffer_ r = []))
    /\ Forall length_prefixed (handled r).
Proof.
  induction rounds as [|rounds IH]; intros buf r Hrun; [discriminate|].
  cbn [eat_frames] in Hrun.
  destruct (status (checkMBusFrame buf)) eqn:Hst.
  - injection Hrun as <-. cbn. split; [reflexivity|].
    split; [left; auto|apply Forall_nil; exact I].
  - set (c := checkMBusFrame buf) in *.
    assert (Hpay : forall p,
              (if 0 <? payload_len c
               then body ← vec_range buf (payload_offset c) (payload_len c);
                    Returns (to_uchar (payload_len c) :: body)
               else Returns []) = Returns p ->
              length_prefixed p).
    { intros p Hp. destruct (0 <? payload_len c) eqn:Hlen.
      - apply Z.ltb_lt in Hlen. unfold vec_range in Hp.
        destruct ((0 <=? payload_offset c) && (0 <=? payload_len c)
                  && (payload_offset c + payload_len c <=? Z.of_nat (length buf)))
          eqn:Hin; [|discriminate].
        apply andb_true_iff in Hin as [Hin Hend].
        apply andb_true_iff in Hin as [Hoff _].
        apply Z.leb_le in Hoff, Hend.
        cbn in Hp. injection Hp as <-. right. exists (payload_len c).
        split; [exact Hlen|]. split; [reflexivity|].
        cbn [length]. rewrite length_take, length_drop. lia.
      - injection Hp as <-. left. reflexivity. }
    destruct (if 0 <? payload_len c then _ else _) as [p| |] eqn:Hp;
      try discriminate.
    cbn [mbind run_bind] in Hrun.
    unfold erase_front in Hrun.
    destruct (frame_length c <=? length buf)%nat; [|discriminate].
    cbn [mbind run_bind] in Hrun.
    destruct (eat_frames checkMBusFrame rounds (drop (frame_length c) buf))
      as [r'| |] eqn:Hrest; try discriminate.
    cbn [mbind run_bind] in Hrun. injection Hrun as <-.
    destruct (IH _ _ Hrest) as (Hsuf & Hstat & Hall).
    cbn [read_buffer_ handled verbose_log].
    split; [etrans; [exact Hsuf|apply suffix_drop]|].
    split; [exact Hstat|].
    apply Forall_cons. split; [apply Hpay; reflexivity|exact Hall].
  - injection Hrun as <-. cbn. split; [apply suffix_nil|].
    split; [right; auto|apply Forall_nil; exact I].
Qed.

(** X19.  Whenever [processSerialData] returns, what it leaves in the
    read buffer is an end of what was there with the new bytes appended;
    either no protocol error was met and the recogniser finds a partial
    frame in what is left (never a full frame), or the protocol error was
    reported and the buffer is empty; and every payload handed to
    [handleTelegram] is empty or starts with its length byte followed by
    exactly that many bytes. *)
Theorem processSerialData_leftover (rounds : nat) (data buf : list uchar)
    (r : Processed) :
  processSerialData checkMBusFrame rounds data buf = Returns r ->
  read_buffer_ r `suffix_of` (buf ++ data)
  /\ ((verbose_log r = []
       /\ status (checkMBusFrame (read_buffer_ r)) = PartialFrame)
      \/ (verbose_log r = ["(mbus) protocol error in message received!"%string]
          /\ read_buffer_ r = []))
  /\ Forall length_prefixed (handled r).
Proof. apply eat_frames_leftover. Qed.

End ProcessSerialData_loop.

(** Two long frames and the start of a third arrive together. *)
Lemma processSerialData_leftover_witness :
  exists r,
    MBusRawTTY.processSerialData MBusRawTTY.spec_checkMBusFrame 5
      [0x68; 3; 3; 0x68; 1; 2; 3; 6; 0x16; 0xE5; 0x68; 3] []
    = Returns r
    /\ MBusRawTTY.read_buffer_ r = [0x68; 3]
    /\ MBusRawTTY.handled r = [[3; 1; 2; 3]; []]
    /\ MBusRawTTY.status (MBusRawTTY.spec_checkMBusFrame (MBusRawTTY.read_buffer_ r))
       = MBusRawTTY.PartialFrame.
Proof.
  eexists. split; [reflexivity|].
  destruct (processSerialData_leftover MBusRawTTY.spec_checkMBusFrame 5
              [0x68; 3; 3; 0x68; 1; 2; 3; 6; 0x16; 0xE5; 0x68; 3] [] _ eq_refl)
    as (_ & [[_ Hst]|[Hlog _]] & _).
  - split; [reflexivity|]. split; [reflexivity|exact Hst].
  - discriminate Hlog.
Defined.

Section SendTelegram_facts.
Import Serial MBusRawTTY.
Context {Callback : Type}.

(** The message [sendTelegram] builds for a short frame. *)
Lemma sendTelegram_short_message (answers : list WriteResult)
    (serial : SerialDeviceImp Callback) (content : list uchar) :
  readonly serial = false ->
  (length content <= 250)%nat ->
  sendTelegram answers serial SHORT_FRAME content
  = send answers serial ([0x10] ++ content ++ [sum_bytes content mod 256; 0x16]).
Proof.
  intros Hrw Hlen. unfold sendTelegram. rewrite Hrw.
  replace (250 <? length content)%nat with false
    by (symmetry; apply Nat.ltb_ge; lia).
  rewrite copy_and_sum_spec by reflexivity.
  rewrite Z.add_0_l. rewrite <- !app_assoc. cbn [app].
  destruct (send answers serial _) as [[[|] wire]| |]; reflexivity.
Qed.

(** [send] ends the program on an empty message only. *)
Lemma send_not_fails (answers : list WriteResult) (serial : SerialDeviceImp Callback)
    (b : uchar) (msg : list uchar) :
  send answers serial (b :: msg) <> Fails.
Proof.
  unfold send.
  assert (Hloop : forall written wire,
            send_loop answers (b :: msg) written wire <> Fails).
  { induction answers as [|a answers IH]; intros written wire; [discriminate|].
    destruct a as [k| |]; cbn [send_loop].
    - destruct (_ =? _)%nat; [discriminate|apply IH].
    - apply IH.
    - discriminate. }
  destruct (kind serial); try discriminate; apply Hloop.
Qed.

End SendTelegram_facts.

(** X20.  A short frame: on a serial device that is not read-only, for a
    content of at most 250 bytes, [sendTelegram] hands the bytes
    [0x10 content CS 0x16] to the device's [send], with [CS] the sum of
    the content bytes modulo 256, whatever the length of the content; and
    when the [write] calls of a tty or a command meet no error and take
    that many bytes, all of them go out and [sendTelegram] returns
    true. *)
Theorem sendTelegram_short_frame {Callback : Type}
    (answers : list Serial.WriteResult)
    (serial : Serial.SerialDeviceImp Callback) (content : list uchar) :
  Serial.readonly serial = false ->
  (length content <= 250)%nat ->
  let frame := [0x10] ++ content ++ [MBusRawTTY.sum_bytes content mod 256; 0x16] in
  MBusRawTTY.sendTelegram answers serial MBusRawTTY.SHORT_FRAME content
  = Serial.send answers serial frame
  /\ (Serial.kind serial = Serial.KTTY \/ Serial.kind serial = Serial.KCommand ->
      Forall (fun a => a <> Serial.WriteError) answers ->
      (length content + 3 <= Serial.accepted answers)%nat ->
      MBusRawTTY.sendTelegram answers serial MBusRawTTY.SHORT_FRAME content
      = Returns (true, frame)).
Proof.
  intros Hrw Hlen frame.
  pose proof (sendTelegram_short_message answers serial content Hrw Hlen) as Hmsg.
  fold frame in Hmsg. split; [exact Hmsg|].
  intros Hk Hok Hacc. rewrite Hmsg. unfold Serial.send.
  assert (Hloop : Serial.send_loop answers frame 0 [] = Returns (true, frame)).
  { apply send_loop_total; [reflexivity| | exact Hok |].
    - subst frame. cbn [app length]. lia.
    - subst frame. cbn [app length]. rewrite length_app. cbn [length]. lia. }
  destruct Hk as [Hk|Hk]; rewrite Hk; exact Hloop.
Qed.

Lemma sendTelegram_short_frame_witness :
  MBusRawTTY.sendTelegram [Serial.Wrote 2; Serial.WriteEINTR; Serial.Wrote 9]
    Serial.Examples.tty_usb0 MBusRawTTY.SHORT_FRAME [0x40; 0x01]
  = Returns (true, [0x10; 0x40; 0x01; 0x41; 0x16]).
Proof.
  destruct (sendTelegram_short_frame
              [Serial.Wrote 2; Serial.WriteEINTR; Serial.Wrote 9]
              Serial.Examples.tty_usb0 [0x40; 0x01]) as [_ H].
  - reflexivity.
  - cbn. lia.
  - apply H.
    + left. reflexivity.
    + repeat (apply Forall_cons; split; [discriminate|]). apply Forall_nil. exact I.
    + cbn. lia.
Defined.

(** X21.  [sendTelegram] never trips the assertion of [send] on an empty
    message, whatever it is given.  On a device that is not read-only it
    returns false without sending a byte when the content is longer than
    250 bytes, and when the content is said to start with a C field or a
    CI field. *)
Theorem sendTelegram_refusals {Callback : Type}
    (answers : list Serial.WriteResult)
    (serial : Serial.SerialDeviceImp Callback)
    (starts_with : MBusRawTTY.ContentStartsWith) (content : list uchar) :
  MBusRawTTY.sendTelegram answers serial starts_with content <> Fails
  /\ (Serial.readonly serial = false ->
      ((250 < length content)%nat
       \/ starts_with = MBusRawTTY.C_FIELD \/ starts_with = MBusRawTTY.CI_FIELD) ->
      MBusRawTTY.sendTelegram answers serial starts_with content
      = Returns (false, [])).
Proof.
  unfold MBusRawTTY.sendTelegram. split.
  - destruct (Serial.readonly serial); [discriminate|].
    destruct (250 <? length content)%nat; [discriminate|].
    destruct starts_with; try discriminate.
    + rewrite copy_and_sum_spec by reflexivity. cbn [app].
      match goal with
      | |- context [Serial.send answers serial ?msg] =>
          remember (Serial.send answers serial msg) as sent eqn:Hsent
      end.
      assert (Hnf : sent <> Fails) by (rewrite Hsent; apply send_not_fails).
      destruct sent as [[[|] wire]| |]; cbn [mbind run_bind negb];
        try discriminate; contradiction.
    + rewrite copy_and_sum_spec by reflexivity. cbn [app].
      match goal with
      | |- context [Serial.send answers serial ?msg] =>
          remember (Serial.send answers serial msg) as sent eqn:Hsent
      end.
      assert (Hnf : sent <> Fails) by (rewrite Hsent; apply send_not_fails).
      destruct sent as [[[|] wire]| |]; cbn [mbind run_bind negb];
        try discriminate; contradiction.
  - intros Hrw Hcase. rewrite Hrw.
    destruct (250 <? length content)%nat eqn:Hlen; [reflexivity|].
    apply Nat.ltb_ge in Hlen.
    destruct Hcase as [Hbig|[->| ->]]; [lia|reflexivity|reflexivity].
Qed.



(** ** The simulator script *)

Section Scan_facts.
Import Simulator.

(** The text the scan keeps: the characters other than [|]. *)
Lemma scan_line_no_plus (chars : list ascii) :
  forall (i : Z) (acc : string),
    Forall (fun c => c <> "+"%char) chars ->
    scan_line chars i acc
    = ((acc ++ string_of_list_ascii
                 (List.filter (fun c => negb (Ascii.eqb c "|")) chars))%string,
       0, 0).
Proof.
  induction chars as [|c chars IH]; intros i acc Hplus;
    cbn [scan_line List.filter string_of_list_ascii].
  - rewrite string_append_empty_r. reflexivity.
  - apply Forall_cons in Hplus as [Hc Hrest].
    destruct (Ascii.eqb c "|") eqn:Hbar; cbn [negb].
    + apply IH. exact Hrest.
    + apply Ascii.eqb_neq in Hc. rewrite Hc.
      rewrite IH by exact Hrest. cbn [string_of_list_ascii].
      rewrite string_append_assoc. reflexivity.
Qed.

Lemma scan_line_first_plus (pre rest : list ascii) :
  forall (i : Z) (acc : string),
    Forall (fun c => c <> "+"%char) pre ->
    scan_line (pre ++ "+"%char :: rest) i acc
    = ((acc ++ string_of_list_ascii
                 (List.filter (fun c => negb (Ascii.eqb c "|")) pre))%string,
       i + Z.of_nat (length pre), atoi rest).
Proof.
  induction pre as [|c pre IH]; intros i acc Hplus;
    cbn [app scan_line List.filter string_of_list_ascii length].
  - rewrite string_append_empty_r. cbn. f_equal. f_equal. lia.
  - apply Forall_cons in Hplus as [Hc Hrest].
    replace (i + Z.of_nat (S (length pre))) with (i + 1 + Z.of_nat (length pre)) by lia.
    destruct (Ascii.eqb c "|") eqn:Hbar; cbn [negb].
    + apply IH. exact Hrest.
    + apply Ascii.eqb_neq in Hc. rewrite Hc.
      rewrite IH by exact Hrest. cbn [string_of_list_ascii].
      rewrite string_append_assoc. reflexivity.
Qed.

End Scan_facts.


Section Simulate_order.
Import Simulator.
Variable hex2bin : string -> option (list uchar).

(** Waiting does not turn the clock back when no sleep does. *)
Lemma wait_loop_monotone (sl : list Sleep) :
  forall (curr deadline : Z) (w : World),
    Forall (fun s => 0 <= elapsed s) sl ->
    wait_loop sl curr deadline = Returns w ->
    curr <= now w /\ Forall (fun s => 0 <= elapsed s) (sleeps w).
Proof.
  induction sl as [|s rest IH]; intros curr deadline w Hel Hw;
    rewrite wait_loop_unfold in Hw;
    destruct (deadline <? curr) eqn:Hd.
  - injection Hw as <-. cbn. split; [lia|exact Hel].
  - discriminate.
  - injection Hw as <-. cbn. split; [lia|exact Hel].
  - apply Forall_cons in Hel as [Hs Hrest].
    destruct (running_after s); cbn [negb] in Hw.
    + destruct (IH _ _ _ Hrest Hw) as [Hnow Hel']. split; [lia|exact Hel'].
    + injection Hw as <-. cbn. split; [lia|exact Hrest].
Qed.

(** What a line hands over when it is dealt with. *)
Lemma simulate_line_handed (start_time : Z) (l : string) (w w' : World)
    (ev : list SimEvent) :
  simulate_line hex2bin start_time l w = Returns (w', ev) ->
  line_valid hex2bin l = true
  /\ omap event_payload ev
     = match line_payload hex2bin l with Some p => [p] | None => [] end
  /\ Forall (fun e => event_time e = now w') ev
  /\ (Forall (fun s => 0 <= elapsed s) (sleeps w) ->
      now w <= now w' /\ Forall (fun s => 0 <= elapsed s) (sleeps w')).
Proof.
  unfold simulate_line, line_valid, line_payload.
  destruct (is_telegram_line l).
  2:{ intros H; injection H as <- <-. split; [reflexivity|].
      split; [reflexivity|]. split; [apply Forall_nil; exact I|].
      intros Hel. split; [lia|exact Hel]. }
  destruct (scan_of l) as [[hex ft] rel]. cbn [fst].
  intros Hrun.
  assert (Hwait : forall w1,
            (if negb (ft =? 0)
             then if now w <? start_time + rel
                  then wait_loop (sleeps w) (now w) (start_time + rel)
                  else Returns w
             else Returns w) = Returns w1 ->
            Forall (fun s => 0 <= elapsed s) (sleeps w) ->
            now w <= now w1 /\ Forall (fun s => 0 <= elapsed s) (sleeps w1)).
  { intros w1 Hw1 Hel.
    destruct (negb (ft =? 0)); [destruct (now w <? start_time + rel)|].
    - apply (wait_loop_monotone _ _ _ _ Hel Hw1).
    - injection Hw1 as <-. split; [lia|exact Hel].
    - injection Hw1 as <-. split; [lia|exact Hel]. }
  destruct (if negb (ft =? 0) then _ else _) as [w1| |]; try discriminate.
  cbn [mbind run_bind] in Hrun.
  destruct (hex2bin hex) as [payload|]; [|discriminate].
  injection Hrun as <- <-. split; [reflexivity|].
  split; [reflexivity|].
  split; [apply Forall_cons; split; [reflexivity|apply Forall_nil; exact I]|].
  apply Hwait. reflexivity.
Qed.

Lemma omap_app_payload (l1 l2 : list SimEvent) :
  omap event_payload (l1 ++ l2) = omap event_payload l1 ++ omap event_payload l2.
Proof. apply omap_app. Qed.

Lemma simulate_lines_handed (start_time : Z) (lines : list string) :
  forall (w w' : World) (ev : list SimEvent),
    simulate_lines hex2bin start_time lines w = Returns (w', ev) ->
    forallb (line_valid hex2bin) lines = true
    /\ omap event_payload ev = omap (line_payload hex2bin) lines
    /\ (Forall (fun s => 0 <= elapsed s) (sleeps w) ->
        now w <= now w'
        /\ Forall (fun s => 0 <= elapsed s) (sleeps w')
        /\ Forall (fun e => now w <= event_time e <= now w') ev
        /\ StronglySorted Z.le (List.map event_time ev)).
Proof.
  induction lines as [|l lines IH]; intros w w' ev Hrun; cbn [simulate_lines] in Hrun.
  - injection Hrun as <- <-. split; [reflexivity|]. split; [reflexivity|].
    intros Hel. split; [lia|]. split; [exact Hel|].
    split; [apply Forall_nil; exact I|constructor].
  - destruct (simulate_line hex2bin start_time l w) as [[w1 ev1]| |] eqn:Hl;
      try discriminate.
    cbn [mbind run_bind] in Hrun.
    destruct (simulate_lines hex2bin start_time lines w1) as [[w2 ev2]| |] eqn:Hls;
      try discriminate.
    cbn [mbind run_bind] in Hrun. injection Hrun as <- <-.
    destruct (simulate_line_handed _ _ _ _ _ Hl) as (Hv1 & Hp1 & Ht1 & Hm1).
    destruct (IH _ _ _ Hls) as (Hv2 & Hp2 & Hm2).
    split; [cbn [forallb]; rewrite Hv1, Hv2; reflexivity|].
    split.
    { rewrite omap_app_payload, Hp1, Hp2. cbn [omap list_omap].
      destruct (line_payload hex2bin l); reflexivity. }
    intros Hel. destruct (Hm1 Hel) as [Hn1 Hel1].
    destruct (Hm2 Hel1) as (Hn2 & Hel2 & Hb2 & Hs2).
    split; [lia|]. split; [exact Hel2|].
    assert (Hb1 : Forall (fun e => now w <= event_time e <= now w2) ev1).
    { eapply Forall_impl; [exact Ht1|]. cbn. intros e He. rewrite He. lia. }
    assert (Hb2' : Forall (fun e => now w <= event_time e <= now w2) ev2).
    { eapply Forall_impl; [exact Hb2|]. cbn. intros e He. lia. }
    split; [apply Forall_app; split; assumption|].
    rewrite List.map_app.
    clear Hb1 Hm1 Hp1 Hl. induction ev1 as [|e ev1 IHe]; [exact Hs2|].
    apply Forall_cons in Ht1 as [He Ht1]. cbn [List.map app].
    constructor; [apply IHe; exact Ht1|].
    apply List.Forall_app. split.
    + apply List.Forall_map. rewrite List.Forall_forall. intros e' He'.
      rewrite Forall_forall in Ht1. apply list_elem_of_In in He'.
      rewrite He, (Ht1 e' He'). lia.
    + apply List.Forall_map. rewrite List.Forall_forall. intros e' He'.
      rewrite Forall_forall in Hb2. apply list_elem_of_In in He'.
      specialize (Hb2 e' He'). rewrite He. lia.
Qed.

(** X24.  When [simulate] returns, it has handed to [handleTelegram] the
    bytes of the telegram lines of the script, all of them and in the order
    of the script, and then called [stop()]; every telegram line held
    valid hex.  So for a script with a telegram line that is not valid
    hex, [simulate] does not return and [stop()] is not called. *)
Theorem simulate_hands_over_in_order (lines : list string) (w w' : World)
    (ev : list SimEvent) :
  simulate hex2bin lines w = Returns (w', ev) ->
  omap event_payload ev = omap (line_payload hex2bin) lines
  /\ last ev = Some (ManagerStop (now w'))
  /\ forallb (line_valid hex2bin) lines = true.
Proof.
  unfold simulate. intros Hrun.
  destruct (simulate_lines hex2bin (now w) lines w) as [[w1 ev1]| |] eqn:Hls;
    try discriminate.
  cbn [mbind run_bind] in Hrun. injection Hrun as <- <-.
  destruct (simulate_lines_handed _ _ _ _ _ Hls) as (Hv & Hp & _).
  split; [rewrite omap_app_payload, Hp; cbn; apply app_nil_r|].
  split; [apply last_snoc|exact Hv].
Qed.

(** X25.  When no sleep turns the clock back, the telegrams of a script
    are handed over at times that do not decrease, none before the start
    of [simulate], and [stop()] is called last, at the time [simulate]
    ends. *)
Theorem simulate_times_increase (lines : list string) (w w' : World)
    (ev : list SimEvent) :
  Forall (fun s => 0 <= elapsed s) (sleeps w) ->
  simulate hex2bin lines w = Returns (w', ev) ->
  StronglySorted Z.le (List.map event_time ev)
  /\ Forall (fun e => now w <= event_time e <= now w') ev.
Proof.
  unfold simulate. intros Hel Hrun.
  destruct (simulate_lines hex2bin (now w) lines w) as [[w1 ev1]| |] eqn:Hls;
    try discriminate.
  cbn [mbind run_bind] in Hrun. injection Hrun as <- <-.
  destruct (simulate_lines_handed _ _ _ _ _ Hls) as (_ & _ & Hm).
  destruct (Hm Hel) as (Hn & _ & Hb & Hs).
  split.
  - rewrite List.map_app. cbn [List.map event_time].
    clear Hls Hm. induction ev1 as [|e ev1 IHe].
    + cbn. constructor; [constructor|constructor].
    + apply Forall_cons in Hb as [He Hb]. cbn [List.map app].
      inversion Hs as [|x l Hs' Hle]; subst.
      constructor; [apply IHe; assumption|].
      apply List.Forall_app. split; [exact Hle|].
      constructor; [lia|constructor].
  - apply Forall_app. split; [exact Hb|].
    apply Forall_cons. split; [cbn; lia|apply Forall_nil; exact I].
Qed.

End Simulate_order.

(** A script with bars inside the hex text and a comment line. *)
Lemma simulate_hands_over_in_order_witness :
  exists w' ev,
    Simulator.simulate Simulator.spec_hex2bin
      ["telegram=|AA|BB|"; "# comment"; "telegram=CC+1"]%string
      (Simulator.mkWorld 100 [Simulator.mkSleep 1 true; Simulator.mkSleep 1 true])
    = Returns (w', ev)
    /\ omap Simulator.event_payload ev = [[0xAA; 0xBB]; [0xCC]]
    /\ last ev = Some (Simulator.ManagerStop 102).
Proof.
  eexists _, _. split; [reflexivity|].
  destruct (simulate_hands_over_in_order Simulator.spec_hex2bin
              ["telegram=|AA|BB|"; "# comment"; "telegram=CC+1"]%string
              (Simulator.mkWorld 100 [Simulator.mkSleep 1 true; Simulator.mkSleep 1 true])
              _ _ eq_refl) as (Hp & Hl & _).
  split; [exact Hp|exact Hl].
Defined.

Lemma simulate_times_increase_witness :
  exists w' ev,
    Simulator.simulate Simulator.spec_hex2bin
      ["telegram=AA|+1"; "telegram=BB"; "telegram=CC|+3"]%string
      (Simulator.mkWorld 100
         [Simulator.mkSleep 1 true; Simulator.mkSleep 1 true;
          Simulator.mkSleep 2 true; Simulator.mkSleep 1 true])
    = Returns (w', ev)
    /\ List.map Simulator.event_time ev = [102; 102; 104; 104]
    /\ StronglySorted Z.le (List.map Simulator.event_time ev).
Proof.
  eexists _, _. split; [reflexivity|]. split; [reflexivity|].
  assert (Hel : Forall (fun s => 0 <= Simulator.elapsed s)
                  [Simulator.mkSleep 1 true; Simulator.mkSleep 1 true;
                   Simulator.mkSleep 2 true; Simulator.mkSleep 1 true]).
  { repeat (apply Forall_cons; split; [simpl; lia|]). apply Forall_nil. exact I. }
  destruct (simulate_times_increase Simulator.spec_hex2bin
              ["telegram=AA|+1"; "telegram=BB"; "telegram=CC|+3"]%string
              (Simulator.mkWorld 100
                 [Simulator.mkSleep 1 true; Simulator.mkSleep 1 true;
                  Simulator.mkSleep 2 true; Simulator.mkSleep 1 true])
              _ _ Hel eq_refl) as [Hs _].
  exact Hs.
Defined.

(** ** The heat meter drivers *)

Section Multical603_records.
Import Multical603.
Context {Values Expl Tm : Type} `{HH : Helpers Values Expl Tm}.

(** Each step of [processContent] assigns one member (two for a
    temperature). *)
Lemma step_info_codes_meter vs (s : St) :
  meter (step_info_codes vs s)
  = set_info_codes
      (snd (extractDVuint8 vs "04FF22" (offset s) (info_codes_ (meter s)))) (meter s).
Proof.
  unfold step_info_codes. destruct (extractDVuint8 _ _ _ _) as [[ok off] v].
  reflexivity.
Qed.

Lemma step_energy_forward_meter vs (s : St) :
  meter (step_energy_forward vs s)
  = set_energy_forward
      (snd (extractDVuint32 vs "04FF07" (offset s) (energy_forward_kwh_ (meter s))))
      (meter s).
Proof.
  unfold step_energy_forward. destruct (extractDVuint32 _ _ _ _) as [[ok off] v].
  reflexivity.
Qed.

Lemma step_energy_returned_meter vs (s : St) :
  meter (step_energy_returned vs s)
  = set_energy_returned
      (snd (extractDVuint32 vs "04FF08" (offset s) (energy_returned_kwh_ (meter s))))
      (meter s).
Proof.
  unfold step_energy_returned. destruct (extractDVuint32 _ _ _ _) as [[ok off] v].
  reflexivity.
Qed.

Lemma step_total_energy_meter vs (s : St) :
  meter (step_total_energy vs s)
  = set_total_energy
      match findKey Instantaneous EnergyWh 0 0 vs with
      | None => total_energy_kwh_ (meter s)
      | Some key =>
          snd (extractDVdouble vs key (offset s) (total_energy_kwh_ (meter s)))
      end (meter s).
Proof.
  unfold step_total_energy. destruct (findKey _ _ _ _ _) as [key|].
  - destruct (extractDVdouble _ _ _ _) as [[ok off] v]. reflexivity.
  - destruct (meter s); reflexivity.
Qed.

Lemma step_total_volume_meter vs (s : St) :
  meter (step_total_volume vs s)
  = set_total_volume
      match findKey Instantaneous Volume 0 0 vs with
      | None => total_volume_m3_ (meter s)
      | Some key =>
          snd (extractDVdouble vs key (offset s) (total_volume_m3_ (meter s)))
      end (meter s).
Proof.
  unfold step_total_volume. destruct (findKey _ _ _ _ _) as [key|].
  - destruct (extractDVdouble _ _ _ _) as [[ok off] v]. reflexivity.
  - destruct (meter s); reflexivity.
Qed.

Lemma step_volume_flow_meter vs (s : St) :
  meter (step_volume_flow vs s)
  = set_volume_flow
      match findKey Unknown VolumeFlow 0 0 vs with
      | None => volume_flow_m3h_ (meter s)
      | Some key =>
          snd (extractDVdouble vs key (offset s) (volume_flow_m3h_ (meter s)))
      end (meter s).
Proof.
  unfold step_volume_flow. destruct (findKey _ _ _ _ _) as [key|].
  - destruct (extractDVdouble _ _ _ _) as [[ok off] v]. reflexivity.
  - destruct (meter s); reflexivity.
Qed.

Lemma step_t1_meter vs (s : St) :
  exists ok v, meter (step_t1 vs s) = set_t1 ok v (meter s).
Proof.
  unfold step_t1. destruct (findKey _ _ _ _ _) as [key|].
  - destruct (extractDVdouble _ _ _ _) as [[ok off] v]. exists ok, v. reflexivity.
  - exists (has_t1_temperature_ (meter s)), (t1_temperature_c_ (meter s)).
    destruct (meter s); reflexivity.
Qed.

Lemma step_t2_meter vs (s : St) :
  exists ok v, meter (step_t2 vs s) = set_t2 ok v (meter s).
Proof.
  unfold step_t2. destruct (findKey _ _ _ _ _) as [key|].
  - destruct (extractDVdouble _ _ _ _) as [[ok off] v]. exists ok, v. reflexivity.
  - exists (has_t2_temperature_ (meter s)), (t2_temperature_c_ (meter s)).
    destruct (meter s); reflexivity.
Qed.

Lemma step_target_date_meter tm0 vs (s : St) :
  meter (step_target_date tm0 vs s)
  = set_target_date
      match findKey Unknown Date 0 0 vs with
      | None => target_date_ (meter s)
      | Some key => strdatetime (snd (extractDVdate vs key (offset s) tm0))
      end (meter s).
Proof.
  unfold step_target_date. destruct (findKey _ _ _ _ _) as [key|].
  - destruct (extractDVdate _ _ _ _) as [[ok off] v]. reflexivity.
  - destruct (meter s); reflexivity.
Qed.

(** X26.  [processContent] of the Multical 603, record by record: the
    total energy, the total volume, the volume flow and the target date
    keep their old contents when [findKey] finds no record for them, and
    otherwise hold what the extractor yields for the key found; the info
    codes and the two energy registers are overwritten with whatever
    [extractDVuint8] and [extractDVuint32] leave in them, found or not.
    The records of the telegram are not changed. *)
Theorem multical603_processContent_fields (offset0 : Z) (tm0 : Tm)
    (m : MeterMultical603) (t : Telegram Values Expl) :
  let vs := values t in
  let m' := fst (processContent offset0 tm0 m t) in
  match findKey Instantaneous EnergyWh 0 0 vs with
  | None => total_energy_kwh_ m' = total_energy_kwh_ m
  | Some key =>
      exists off,
        total_energy_kwh_ m' = snd (extractDVdouble vs key off (total_energy_kwh_ m))
  end
  /\ match findKey Instantaneous Volume 0 0 vs with
     | None => total_volume_m3_ m' = total_volume_m3_ m
     | Some key =>
         exists off,
           total_volume_m3_ m' = snd (extractDVdouble vs key off (total_volume_m3_ m))
     end
  /\ match findKey Unknown VolumeFlow 0 0 vs with
     | None => volume_flow_m3h_ m' = volume_flow_m3h_ m
     | Some key =>
         exists off,
           volume_flow_m3h_ m' = snd (extractDVdouble vs key off (volume_flow_m3h_ m))
     end
  /\ match findKey Unknown Date 0 0 vs with
     | None => target_date_ m' = target_date_ m
     | Some key =>
         exists off, target_date_ m' = strdatetime (snd (extractDVdate vs key off tm0))
     end
  /\ info_codes_ m' = snd (extractDVuint8 vs "04FF22" offset0 (info_codes_ m))
  /\ (exists off,
        energy_forward_kwh_ m'
        = snd (extractDVuint32 vs "04FF07" off (energy_forward_kwh_ m)))
  /\ (exists off,
        energy_returned_kwh_ m'
        = snd (extractDVuint32 vs "04FF08" off (energy_returned_kwh_ m)))
  /\ values (snd (processContent offset0 tm0 m t)) = vs.
Proof.
  intros vs m'. subst m'. unfold processContent. fold vs.
  cbn [fst snd values].
  set (s0 := mkSt m (explanations t) offset0).
  set (s1 := step_info_codes vs s0).
  set (s2 := step_energy_forward vs s1).
  set (s3 := step_energy_returned vs s2).
  set (s4 := step_total_energy vs s3).
  set (s5 := step_total_volume vs s4).
  set (s6 := step_volume_flow vs s5).
  set (s7 := step_t1 vs s6).
  set (s8 := step_t2 vs s7).
  rewrite step_target_date_meter.
  destruct (step_t2_meter vs s7) as (ok8 & v8 & H8). fold s8 in H8.
  destruct (step_t1_meter vs s6) as (ok7 & v7 & H7). fold s7 in H7.
  pose proof (step_volume_flow_meter vs s5) as H6. fold s6 in H6.
  pose proof (step_total_volume_meter vs s4) as H5. fold s5 in H5.
  pose proof (step_total_energy_meter vs s3) as H4. fold s4 in H4.
  pose proof (step_energy_returned_meter vs s2) as H3. fold s3 in H3.
  pose proof (step_energy_forward_meter vs s1) as H2. fold s2 in H2.
  pose proof (step_info_codes_meter vs s0) as H1. fold s1 in H1.
  change (meter s0) with m in H1. change (offset s0) with offset0 in H1.
  rewrite H8, H7, H6, H5, H4, H3, H2, H1.
  cbn [set_info_codes set_energy_forward set_energy_returned set_total_energy
       set_total_volume set_volume_flow set_t1 set_t2 set_target_date
       info_codes_ total_energy_kwh_ total_volume_m3_ volume_flow_m3h_
       t1_temperature_c_ has_t1_temperature_ t2_temperature_c_
       has_t2_temperature_ target_date_ energy_forward_kwh_
       energy_returned_kwh_].
  split; [destruct (findKey Instantaneous EnergyWh 0 0 vs); [eexists|]; reflexivity|].
  split; [destruct (findKey Instantaneous Volume 0 0 vs); [eexists|]; reflexivity|].
  split; [destruct (findKey Unknown VolumeFlow 0 0 vs); [eexists|]; reflexivity|].
  split; [destruct (findKey Unknown Date 0 0 vs); [eexists|]; reflexivity|].
  split; [reflexivity|].
  split; [eexists; reflexivity|].
  split; [eexists; reflexivity|reflexivity].
Qed.

End Multical603_records.

Section Status_facts.

(** The string [status()] builds from the set bits, for the tables of
    both Kamstrup drivers: the names joined by single spaces. *)
Lemma status603_table :
  forallb
    (fun c =>
       String.eqb
         (Multical603.status (Multical603.set_info_codes c Multical603.new_meter))
         (String.concat " "
            (Multical603.names_of_set_bits Multical603.info_code_names c)))
    all_uchars = true.
Proof. vm_compute. reflexivity. Qed.

Lemma status302_table :
  forallb
    (fun c =>
       String.eqb
         (Multical302.status (Multical302.set_info_codes c Multical302.new_meter))
         (String.concat " "
            (Multical603.names_of_set_bits Multical302.info_code_names c)))
    all_uchars = true.
Proof. vm_compute. reflexivity. Qed.

End Status_facts.

(** X27.  [status()] of the Multical 603 is the list of the names of the
    info-code bits that are set, in the order of the bits, joined by
    single spaces, with no space at the end; it is empty exactly when no
    bit is set. *)
Theorem multical603_status_names (m : Multical603.MeterMultical603) :
  is_uchar (Multical603.info_codes_ m) ->
  Multical603.status m
  = String.concat " "
      (Multical603.names_of_set_bits Multical603.info_code_names
         (Multical603.info_codes_ m))
  /\ (Multical603.status m = EmptyString <-> Multical603.info_codes_ m = 0).
Proof.
  intros Hc.
  assert (Hm : Multical603.status m
               = Multical603.status
                   (Multical603.set_info_codes (Multical603.info_codes_ m)
                      Multical603.new_meter)) by reflexivity.
  pose proof status603_table as Htab. rewrite forallb_forall in Htab.
  specialize (Htab _ (all_uchars_complete _ Hc)). apply String.eqb_eq in Htab.
  rewrite Hm, Htab. split; [reflexivity|].
  assert (Hall : forallb
            (fun c => Bool.eqb
               (String.eqb
                  (String.concat " "
                     (Multical603.names_of_set_bits Multical603.info_code_names c))
                  EmptyString)
               (c =? 0)) all_uchars = true) by (vm_compute; reflexivity).
  rewrite forallb_forall in Hall.
  specialize (Hall _ (all_uchars_complete _ Hc)). apply Bool.eqb_prop in Hall.
  rewrite <- String.eqb_eq, Hall. apply Z.eqb_eq.
Qed.

Lemma multical603_status_names_witness :
  Multical603.status (Multical603.set_info_codes 0x82 Multical603.new_meter)
  = "LOW_BATTERY_LEVEL TEMP_DIFF_WRONG_POLARITY"%string.
Proof.
  destruct (multical603_status_names
              (Multical603.set_info_codes 0x82 Multical603.new_meter)) as [H _].
  - unfold is_uchar. cbn. lia.
  - exact H.
Defined.

(** X28.  [status()] of the Multical 302 is the list of the names of the
    info-code bits that are set, joined by single spaces, with no space
    at the end, bit 64 being reported as [UNKNOWN_64]; it is empty exactly
    when no bit is set. *)
Theorem multical302_status_names (m : Multical302.MeterMultical302) :
  is_uchar (Multical302.info_codes_ m) ->
  Multical302.status m
  = String.concat " "
      (Multical603.names_of_set_bits Multical302.info_code_names
         (Multical302.info_codes_ m))
  /\ (Multical302.status m = EmptyString <-> Multical302.info_codes_ m = 0).
Proof.
  intros Hc.
  assert (Hm : Multical302.status m
               = Multical302.status
                   (Multical302.set_info_codes (Multical302.info_codes_ m)
                      Multical302.new_meter)) by reflexivity.
  pose proof status302_table as Htab. rewrite forallb_forall in Htab.
  specialize (Htab _ (all_uchars_complete _ Hc)). apply String.eqb_eq in Htab.
  rewrite Hm, Htab. split; [reflexivity|].
  assert (Hall : forallb
            (fun c => Bool.eqb
               (String.eqb
                  (String.concat " "
                     (Multical603.names_of_set_bits Multical302.info_code_names c))
                  EmptyString)
               (c =? 0)) all_uchars = true) by (vm_compute; reflexivity).
  rewrite forallb_forall in Hall.
  specialize (Hall _ (all_uchars_complete _ Hc)). apply Bool.eqb_prop in Hall.
  rewrite <- String.eqb_eq, Hall. apply Z.eqb_eq.
Qed.

Lemma multical302_status_names_witness :
  Multical302.status (Multical302.set_info_codes 0x41 Multical302.new_meter)
  = "VOLTAGE_INTERRUPTED UNKNOWN_64"%string.
Proof.
  destruct (multical302_status_names
              (Multical302.set_info_codes 0x41 Multical302.new_meter)) as [H _].
  - unfold is_uchar. cbn. lia.
  - exact H.
Defined.

Section Multical302_records.
Import Multical302.
Context {Values Expl Tm : Type} `{HH : Helpers Values Expl Tm}.

Lemma step302_info_codes_meter vs (s : St) :
  meter (step_info_codes vs s)
  = set_info_codes
      (snd (extractDVuint8 vs "01FF21" (offset s) (info_codes_ (meter s)))) (meter s).
Proof.
  unfold step_info_codes. destruct (extractDVuint8 _ _ _ _) as [[ok off] v].
  reflexivity.
Qed.

(** A guarded extraction assigns the one member it is made for. *)
Lemma step_double_meter mt vi storagenr tariff get set fmt vs (s : St) :
  (forall m, set (get m) m = m) ->
  meter (step_double mt vi storagenr tariff get set fmt vs s)
  = set match findKey mt vi storagenr tariff vs with
        | None => get (meter s)
        | Some key => snd (extractDVdouble vs key (offset s) (get (meter s)))
        end (meter s).
Proof.
  intros Hset. unfold step_double. destruct (findKey _ _ _ _ _) as [key|].
  - destruct (extractDVdouble _ _ _ _) as [[ok off] v]. reflexivity.
  - symmetry. apply Hset.
Qed.

Lemma step302_target_date_meter tm0 vs (s : St) :
  meter (step_target_date tm0 vs s)
  = set_target_date
      match findKey Multical603.Unknown Date 1 0 vs with
      | None => target_date_ (meter s)
      | Some key => strdatetime (snd (extractDVdate vs key (offset s) tm0))
      end (meter s).
Proof.
  unfold step_target_date. destruct (findKey _ _ _ _ _) as [key|].
  - destruct (extractDVdate _ _ _ _) as [[ok off] v]. reflexivity.
  - destruct (meter s); reflexivity.
Qed.

(** X29.  [processContent] of the Multical 302, record by record: the
    total energy is read from the energy record of storage 0 and the
    energy at the target date from the one of storage 1, independently of
    each other; these two, the total volume, the current power and the
    target date keep their old contents when [findKey] finds no record
    for them and otherwise hold what the extractor yields for the key
    found; the info codes are overwritten with whatever [extractDVuint8]
    leaves in them.  The records of the telegram are not changed. *)
Theorem multical302_processContent_fields (offset0 : Z) (tm0 : Tm)
    (m : MeterMultical302) (t : Multical603.Telegram Values Expl) :
  let vs := Multical603.values t in
  let m' := fst (processContent offset0 tm0 m t) in
  match findKey Multical603.Instantaneous EnergyWh 0 0 vs with
  | None => total_energy_kwh_ m' = total_energy_kwh_ m
  | Some key =>
      exists off,
        total_energy_kwh_ m' = snd (extractDVdouble vs key off (total_energy_kwh_ m))
  end
  /\ match findKey Multical603.Instantaneous EnergyWh 1 0 vs with
     | None => target_energy_kwh_ m' = target_energy_kwh_ m
     | Some key =>
         exists off,
           target_energy_kwh_ m'
           = snd (extractDVdouble vs key off (target_energy_kwh_ m))
     end
  /\ match findKey Multical603.Instantaneous Volume 0 0 vs with
     | None => total_volume_m3_ m' = total_volume_m3_ m
     | Some key =>
         exists off,
           total_volume_m3_ m' = snd (extractDVdouble vs key off (total_volume_m3_ m))
     end
  /\ match findKey Multical603.Instantaneous PowerW 0 0 vs with
     | None => current_power_kw_ m' = current_power_kw_ m
     | Some key =>
         exists off,
           current_power_kw_ m' = snd (extractDVdouble vs key off (current_power_kw_ m))
     end
  /\ match findKey Multical603.Unknown Date 1 0 vs with
     | None => target_date_ m' = target_date_ m
     | Some key =>
         exists off, target_date_ m' = strdatetime (snd (extractDVdate vs key off tm0))
     end
  /\ info_codes_ m' = snd (extractDVuint8 vs "01FF21" offset0 (info_codes_ m))
  /\ Multical603.values (snd (processContent offset0 tm0 m t)) = vs.
Proof.
  intros vs m'. subst m'. unfold processContent. fold vs.
  cbn [fst snd Multical603.values].
  set (s0 := mkSt m (Multical603.explanations t) offset0).
  set (s1 := step_info_codes vs s0).
  set (s2 := step_total_energy vs s1).
  set (s3 := step_total_volume vs s2).
  set (s4 := step_target_energy vs s3).
  set (s5 := step_current_power vs s4).
  rewrite step302_target_date_meter.
  pose proof (step_double_meter Multical603.Instantaneous PowerW 0 0
                current_power_kw_ set_current_power
                " current power consumption (%f kW)" vs s4) as H5.
  pose proof (step_double_meter Multical603.Instantaneous EnergyWh 1 0
                target_energy_kwh_ set_target_energy
                " target energy consumption (%f kWh)" vs s3) as H4.
  pose proof (step_double_meter Multical603.Instantaneous Volume 0 0
                total_volume_m3_ set_total_volume
                " total volume (%f m3)" vs s2) as H3.
  pose proof (step_double_meter Multical603.Instantaneous EnergyWh 0 0
                total_energy_kwh_ set_total_energy
                " total energy consumption (%f kWh)" vs s1) as H2.
  pose proof (step302_info_codes_meter vs s0) as H1.
  change (meter s0) with m in H1. change (offset s0) with offset0 in H1.
  fold (step_current_power vs s4) in H5. fold s5 in H5.
  fold (step_target_energy vs s3) in H4. fold s4 in H4.
  fold (step_total_volume vs s2) in H3. fold s3 in H3.
  fold (step_total_energy vs s1) in H2. fold s2 in H2.
  fold s1 in H1.
  rewrite H5, H4, H3, H2, H1 by (intros [? ? ? ? ? ?]; reflexivity).
  cbn [set_info_codes set_total_energy set_target_energy set_current_power
       set_total_volume set_target_date
       info_codes_ total_energy_kwh_ target_energy_kwh_ current_power_kw_
       total_volume_m3_ target_date_].
  split; [destruct (findKey Multical603.Instantaneous EnergyWh 0 0 vs);
          [eexists|]; reflexivity|].
  split; [destruct (findKey Multical603.Instantaneous EnergyWh 1 0 vs);
          [eexists|]; reflexivity|].
  split; [destruct (findKey Multical603.Instantaneous Volume 0 0 vs);
          [eexists|]; reflexivity|].
  split; [destruct (findKey Multical603.Instantaneous PowerW 0 0 vs);
          [eexists|]; reflexivity|].
  split; [destruct (findKey Multical603.Unknown Date 1 0 vs);
          [eexists|]; reflexivity|].
  split; reflexivity.
Qed.

End Multical302_records.

Section Compact5_payload.
Import Compact5.
Variable addMoreExplanation : Z -> string -> float -> Telegram -> Telegram.

(** X30.  [processContent] of the Compact 5 reads [content[8]] at the
    latest: it gets through exactly when the payload holds at least 9
    bytes; on a shorter payload it reads behind the end of the vector. *)
Theorem compact5_processContent_payload (m : MeterCompact5) (t : Telegram) :
  processContent addMoreExplanation m t = None
  <-> (length (payload t) < 9)%nat.
Proof.
  unfold processContent.
  destruct (le_lt_dec 9 (length (payload t))) as [Hlen|Hlen].
  - rewrite (lookup_at_index (payload t) 3), (lookup_at_index (payload t) 4) by lia.
    cbn [mbind option_bind].
    rewrite (lookup_at_index (payload t) 7), (lookup_at_index (payload t) 8) by lia.
    cbn [mbind option_bind]. split; [discriminate|lia].
  - split; [intros _; exact Hlen|intros _].
    destruct (payload t !! 3%nat) as [b3|]; [|reflexivity].
    destruct (payload t !! 4%nat) as [b4|]; [|reflexivity].
    cbn [mbind option_bind].
    destruct (payload t !! 7%nat) as [b7|]; [|reflexivity].
    cbn [mbind option_bind].
    destruct (payload t !! 8%nat) as [b8|] eqn:H8; [|reflexivity].
    apply lookup_lt_Some in H8. lia.
Qed.

End Compact5_payload.

(** ** Concrete runs of two of the properties above *)

(** A long frame of 251 bytes and a content said to start with a CI field
    are both refused on a writable tty. *)
Lemma sendTelegram_refusals_witness :
  MBusRawTTY.sendTelegram [Serial.Wrote 300] Serial.Examples.tty_usb0
    MBusRawTTY.LONG_FRAME (List.repeat 0 251)
  = Returns (false, [])
  /\ MBusRawTTY.sendTelegram [Serial.Wrote 300] Serial.Examples.tty_usb0
       MBusRawTTY.CI_FIELD [0x7A]
     = Returns (false, []).
Proof.
  split.
  - destruct (sendTelegram_refusals [Serial.Wrote 300] Serial.Examples.tty_usb0
                MBusRawTTY.LONG_FRAME (List.repeat 0 251)) as [_ H].
    apply H; [reflexivity|]. left. rewrite List.repeat_length. lia.
  - destruct (sendTelegram_refusals [Serial.Wrote 300] Serial.Examples.tty_usb0
                MBusRawTTY.CI_FIELD [0x7A]) as [_ H].
    apply H; [reflexivity|]. right. right. reflexivity.
Defined.

